(** * Workspace manager: the store, the export analytics and the import path

    A shallow embedding of [src/state/workspaceStore.ts] and of the parts of
    [src/services/exportImportService.ts] that compute the analytics summary
    and validate an import, with the properties the specification states
    about them.

    Conventions of the embedding:
    - a JavaScript array is a [list]; [find]/[findIndex] are stdpp's
      [list_find], which returns the first match with its index; mutating
      the object [find] returned is writing it back at that index;
    - a [Date] is its epoch value in milliseconds, a [Z];
    - [new Date()], [Date.now()] and [Math.random()] read the environment:
      the n-th reading of the clock is [clock n], the n-th random suffix is
      [random n], and a [World] counts the readings consumed so far;
    - the callback given to immer's [set] is a function from the state to a
      computation of the next state. *)

From stdpp Require Import base numbers strings list gmap pretty.
From Stdlib Require Import QArith.
From Stdlib Require SpecFloat.

Local Open Scope Z_scope.

(** ** Entities *)

Inductive Status := todo | in_progress | done.

Global Instance Status_eq_dec : EqDecision Status.
Proof. solve_decision. Defined.

Module Card.
Record t := mk {
  id : string;
  title : string;
  description : string;
  columnId : string;
  createdAt : Z;
  updatedAt : Z;
  tags : list string;
  status : Status;
  metadata : gmap string string;
}.

Definition set_columnId (v : string) (c : t) : t :=
  mk (id c) (title c) (description c) v (createdAt c) (updatedAt c)
     (tags c) (status c) (metadata c).
Definition set_updatedAt (v : Z) (c : t) : t :=
  mk (id c) (title c) (description c) (columnId c) (createdAt c) v
     (tags c) (status c) (metadata c).
End Card.

(** [Partial<Card>]: every field may be absent. *)
Module PartialCard.
Record t := mk {
  id : option string;
  title : option string;
  description : option string;
  columnId : option string;
  createdAt : option Z;
  updatedAt : option Z;
  tags : option (list string);
  status : option Status;
  metadata : option (gmap string string);
}.

Definition empty : t := mk None None None None None None None None None.
End PartialCard.

Module Column.
Record t := mk {
  id : string;
  title : string;
  cards : list Card.t;
  createdAt : Z;
  updatedAt : Z;
}.

Definition set_title (v : string) (c : t) : t :=
  mk (id c) v (cards c) (createdAt c) (updatedAt c).
Definition set_cards (v : list Card.t) (c : t) : t :=
  mk (id c) (title c) v (createdAt c) (updatedAt c).
Definition set_updatedAt (v : Z) (c : t) : t :=
  mk (id c) (title c) (cards c) (createdAt c) v.
End Column.

Module Board.
Record t := mk { columns : list Column.t }.
End Board.

Module Page.
Record t := mk {
  id : string;
  title : string;
  icon : string;
  board : Board.t;
  createdAt : Z;
  updatedAt : Z;
}.

Definition columns (p : t) : list Column.t := Board.columns (board p).

Definition set_title (v : string) (p : t) : t :=
  mk (id p) v (icon p) (board p) (createdAt p) (updatedAt p).
Definition set_icon (v : string) (p : t) : t :=
  mk (id p) (title p) v (board p) (createdAt p) (updatedAt p).
Definition set_columns (v : list Column.t) (p : t) : t :=
  mk (id p) (title p) (icon p) (Board.mk v) (createdAt p) (updatedAt p).
Definition set_updatedAt (v : Z) (p : t) : t :=
  mk (id p) (title p) (icon p) (board p) (createdAt p) v.
End Page.

Module Workspace.
Record t := mk {
  title : string;
  pages : list Page.t;
  activePageId : option string;
  createdAt : Z;
  updatedAt : Z;
}.

Definition set_title (v : string) (w : t) : t :=
  mk v (pages w) (activePageId w) (createdAt w) (updatedAt w).
Definition set_pages (v : list Page.t) (w : t) : t :=
  mk (title w) v (activePageId w) (createdAt w) (updatedAt w).
Definition set_activePageId (v : option string) (w : t) : t :=
  mk (title w) (pages w) v (createdAt w) (updatedAt w).
Definition set_updatedAt (v : Z) (w : t) : t :=
  mk (title w) (pages w) (activePageId w) (createdAt w) v.
End Workspace.

(** The data part of [WorkspaceState]. *)
Record WorkspaceState := mkState {
  workspace : Workspace.t;
  selectedCardId : option string;
}.

Definition set_workspace (v : Workspace.t) (st : WorkspaceState) : WorkspaceState :=
  mkState v (selectedCardId st).
Definition set_selected (v : option string) (st : WorkspaceState) : WorkspaceState :=
  mkState (workspace st) v.

(** The arguments of [moveCard]. *)
Record CardSource := mkSource {
  src_pageId : string;
  src_columnId : string;
  src_cardId : string;
}.

Record CardTarget := mkTarget {
  tgt_pageId : string;
  tgt_columnId : string;
  tgt_index : option Z;
}.

(** What [findCard] and [findColumn] return. *)
Record FoundCard := mkFoundCard {
  found_card : Card.t;
  found_pageId : string;
  found_columnId : string;
}.

Record FoundColumn := mkFoundColumn {
  found_column : Column.t;
  found_in_pageId : string;
}.

(** A call of one of the store's actions. *)
Inductive Op :=
  | SetWorkspaceTitle (title : string)
  | AddPage (title icon : string)
  | RemovePage (pageId : string)
  | RenamePage (pageId title : string)
  | SetActivePage (pageId : string)
  | UpdatePageIcon (pageId icon : string)
  | AddColumn (pageId title : string)
  | RemoveColumn (pageId columnId : string)
  | RenameColumn (pageId columnId title : string)
  | MoveColumn (pageId columnId : string) (targetIndex : Z)
  | AddCard (pageId columnId title : string) (description : option string)
  | RemoveCard (pageId columnId cardId : string)
  | UpdateCard (pageId columnId cardId : string) (updates : PartialCard.t)
  | MoveCard (source : CardSource) (target : CardTarget)
  | SetSelectedCardId (cardId : option string).

(** ** JavaScript array primitives *)

(** [Array.prototype.splice]: the clamping of [start] against the length. *)
Definition splice_start (len : nat) (start : Z) : nat :=
  if decide (start < 0)
  then Z.to_nat (Z.max (Z.of_nat len + start) 0)
  else Z.to_nat (Z.min start (Z.of_nat len)).

(** [l.splice(start, deleteCount, ...items)] returns the removed elements
    and leaves [l] spliced; the pair is (removed, array afterwards). *)
Definition splice {A} (start deleteCount : Z) (items : list A) (l : list A)
  : list A * list A :=
  let s := splice_start (length l) start in
  let d := Z.to_nat (Z.min (Z.max deleteCount 0) (Z.of_nat (length l - s))) in
  (take d (drop s l), take s l ++ items ++ drop (s + d) l).

(** ** The environment: clock and random source *)

Record World := mkWorld { ticks : nat; draws : nat }.

Definition M (A : Type) : Type := World → A * World.

Global Instance M_ret : MRet M := λ A a w, (a, w).
Global Instance M_bind : MBind M := λ A B f m w, let '(a, w') := m w in f a w'.

Definition Action : Type := WorkspaceState → M WorkspaceState.

Section Store.

(** [clock n] is what the n-th reading of the system clock returns;
    [random n] is the n-th value of
    [Math.random().toString(36).substr(2, 9)]. *)
Variable clock : nat → Z.
Variable random : nat → string.

(** [new Date()] and [Date.now()]. *)
Definition newDate : M Z :=
  λ w, (clock (ticks w), mkWorld (S (ticks w)) (draws w)).

Definition mathRandom : M string :=
  λ w, (random (draws w), mkWorld (ticks w) (S (draws w))).

Definition generateId : M string :=
  now ← newDate;
  r ← mathRandom;
  mret (pretty now +:+ "-" +:+ r).

Definition createDefaultWorkspace : M Workspace.t :=
  g1 ← generateId; let pageId := "page-" +:+ g1 in
  g2 ← generateId; let columnId := "col-" +:+ g2 in
  g3 ← generateId; let cardId := "card-" +:+ g3 in
  cardCreated ← newDate; cardUpdated ← newDate;
  colCreated ← newDate; colUpdated ← newDate;
  pageCreated ← newDate; pageUpdated ← newDate;
  wsCreated ← newDate; wsUpdated ← newDate;
  mret
    (Workspace.mk "My Workspace"
       [Page.mk pageId "Welcome" "ðŸ‘‹"
          (Board.mk
             [Column.mk columnId "To Do"
                [Card.mk cardId "Welcome to your workspace"
                   "This is your first card. You can edit it, move it, or delete it."
                   columnId cardCreated cardUpdated
                   ["welcome"; "getting-started"] todo ∅]
                colCreated colUpdated])
          pageCreated pageUpdated]
       (Some pageId) wsCreated wsUpdated).

(** The store as created: [workspace: createDefaultWorkspace()],
    [selectedCardId: null]. *)
Definition initialState : M WorkspaceState :=
  ws ← createDefaultWorkspace;
  mret (mkState ws None).

(** *** Lookups: [pages.find(p => p.id === pageId)] and the like *)

Definition findPage (pageId : string) (pages : list Page.t) :=
  list_find (λ p, Page.id p = pageId) pages.
Definition findColumnIn (columnId : string) (columns : list Column.t) :=
  list_find (λ col, Column.id col = columnId) columns.
Definition findCardIn (cardId : string) (cards : list Card.t) :=
  list_find (λ c, Card.id c = cardId) cards.

(** *** Workspace and page actions *)

Definition setWorkspaceTitle (title : string) : Action := λ st,
  now ← newDate;
  mret (set_workspace
          (Workspace.set_updatedAt now (Workspace.set_title title (workspace st))) st).

Definition addPage (title icon : string) : Action := λ st,
  g ← generateId;
  created ← newDate;
  updated ← newDate;
  let newPage := Page.mk ("page-" +:+ g) title icon (Board.mk []) created updated in
  now ← newDate;
  let ws := workspace st in
  mret (set_workspace
          (Workspace.set_updatedAt now
             (Workspace.set_activePageId (Some (Page.id newPage))
                (Workspace.set_pages (Workspace.pages ws ++ [newPage]) ws))) st).

(** [pages[0]?.id || null]: the empty string is falsy. *)
Definition firstPageId (pages : list Page.t) : option string :=
  match pages !! 0%nat with
  | Some p => if decide (Page.id p = "") then None else Some (Page.id p)
  | None => None
  end.

Definition removePage (pageId : string) : Action := λ st,
  let ws := workspace st in
  let pages' := filter (λ page, Page.id page ≠ pageId) (Workspace.pages ws) in
  let active' :=
    if decide (Workspace.activePageId ws = Some pageId)
    then firstPageId pages'
    else Workspace.activePageId ws in
  now ← newDate;
  mret (set_workspace
          (Workspace.set_updatedAt now
             (Workspace.set_activePageId active'
                (Workspace.set_pages pages' ws))) st).

Definition renamePage (pageId title : string) : Action := λ st,
  let ws := workspace st in
  match findPage pageId (Workspace.pages ws) with
  | Some (pi, page) =>
      t1 ← newDate;
      let page' := Page.set_updatedAt t1 (Page.set_title title page) in
      t2 ← newDate;
      mret (set_workspace
              (Workspace.set_updatedAt t2
                 (Workspace.set_pages (<[pi := page']> (Workspace.pages ws)) ws)) st)
  | None => mret st
  end.

Definition setActivePage (pageId : string) : Action := λ st,
  now ← newDate;
  mret (set_workspace
          (Workspace.set_updatedAt now
             (Workspace.set_activePageId (Some pageId) (workspace st))) st).

Definition updatePageIcon (pageId icon : string) : Action := λ st,
  let ws := workspace st in
  match findPage pageId (Workspace.pages ws) with
  | Some (pi, page) =>
      t1 ← newDate;
      let page' := Page.set_updatedAt t1 (Page.set_icon icon page) in
      t2 ← newDate;
      mret (set_workspace
              (Workspace.set_updatedAt t2
                 (Workspace.set_pages (<[pi := page']> (Workspace.pages ws)) ws)) st)
  | None => mret st
  end.

(** *** Column actions *)

Definition addColumn (pageId title : string) : Action := λ st,
  let ws := workspace st in
  match findPage pageId (Workspace.pages ws) with
  | Some (pi, page) =>
      g ← generateId;
      created ← newDate;
      updated ← newDate;
      let newColumn := Column.mk ("col-" +:+ g) title [] created updated in
      t1 ← newDate;
      let page' :=
        Page.set_updatedAt t1
          (Page.set_columns (Page.columns page ++ [newColumn]) page) in
      t2 ← newDate;
      mret (set_workspace
              (Workspace.set_updatedAt t2
                 (Workspace.set_pages (<[pi := page']> (Workspace.pages ws)) ws)) st)
  | None => mret st
  end.

Definition removeColumn (pageId columnId : string) : Action := λ st,
  let ws := workspace st in
  match findPage pageId (Workspace.pages ws) with
  | Some (pi, page) =>
      let columns' := filter (λ col, Column.id col ≠ columnId) (Page.columns page) in
      t1 ← newDate;
      let page' := Page.set_updatedAt t1 (Page.set_columns columns' page) in
      t2 ← newDate;
      mret (set_workspace
              (Workspace.set_updatedAt t2
                 (Workspace.set_pages (<[pi := page']> (Workspace.pages ws)) ws)) st)
  | None => mret st
  end.

Definition renameColumn (pageId columnId title : string) : Action := λ st,
  let ws := workspace st in
  match findPage pageId (Workspace.pages ws) with
  | Some (pi, page) =>
      match findColumnIn columnId (Page.columns page) with
      | Some (ci, column) =>
          t1 ← newDate;
          let column' := Column.set_updatedAt t1 (Column.set_title title column) in
          t2 ← newDate;
          let page' :=
            Page.set_updatedAt t2
              (Page.set_columns (<[ci := column']> (Page.columns page)) page) in
          t3 ← newDate;
          mret (set_workspace
                  (Workspace.set_updatedAt t3
                     (Workspace.set_pages (<[pi := page']> (Workspace.pages ws)) ws)) st)
      | None => mret st
      end
  | None => mret st
  end.

(** The two splices of [moveColumn] on the column array:
    [const [column] = columns.splice(currentIndex, 1)] and then
    [columns.splice(targetIndex, 0, column)]. *)
Definition reorder {A} (currentIndex : nat) (targetIndex : Z) (l : list A) : list A :=
  let '(removed, rest) := splice (Z.of_nat currentIndex) 1 [] l in
  match removed !! 0%nat with
  | Some column => snd (splice targetIndex 0 [column] rest)
  | None => rest
  end.

Definition moveColumn (pageId columnId : string) (targetIndex : Z) : Action := λ st,
  let ws := workspace st in
  match findPage pageId (Workspace.pages ws) with
  | Some (pi, page) =>
      match findColumnIn columnId (Page.columns page) with
      | Some (currentIndex, _) =>
          let columns' := reorder currentIndex targetIndex (Page.columns page) in
          t1 ← newDate;
          let page' := Page.set_updatedAt t1 (Page.set_columns columns' page) in
          t2 ← newDate;
          mret (set_workspace
                  (Workspace.set_updatedAt t2
                     (Workspace.set_pages (<[pi := page']> (Workspace.pages ws)) ws)) st)
      | None => mret st
      end
  | None => mret st
  end.

(** *** Card actions *)

Definition addCard (pageId columnId title : string) (description : option string)
  : Action := λ st,
  let description := default "" description in
  let ws := workspace st in
  match findPage pageId (Workspace.pages ws) with
  | Some (pi, page) =>
      match findColumnIn columnId (Page.columns page) with
      | Some (ci, column) =>
          g ← generateId;
          created ← newDate;
          updated ← newDate;
          let newCard :=
            Card.mk ("card-" +:+ g) title description columnId created updated
              [] todo ∅ in
          t1 ← newDate;
          let column' :=
            Column.set_updatedAt t1
              (Column.set_cards (Column.cards column ++ [newCard]) column) in
          t2 ← newDate;
          let page' :=
            Page.set_updatedAt t2
              (Page.set_columns (<[ci := column']> (Page.columns page)) page) in
          t3 ← newDate;
          mret (set_workspace
                  (Workspace.set_updatedAt t3
                     (Workspace.set_pages (<[pi := page']> (Workspace.pages ws)) ws)) st)
      | None => mret st
      end
  | None => mret st
  end.

Definition removeCard (pageId columnId cardId : string) : Action := λ st,
  let ws := workspace st in
  match findPage pageId (Workspace.pages ws) with
  | Some (pi, page) =>
      match findColumnIn columnId (Page.columns page) with
      | Some (ci, column) =>
          let cards' := filter (λ card, Card.id card ≠ cardId) (Column.cards column) in
          t1 ← newDate;
          let column' := Column.set_updatedAt t1 (Column.set_cards cards' column) in
          t2 ← newDate;
          let page' :=
            Page.set_updatedAt t2
              (Page.set_columns (<[ci := column']> (Page.columns page)) page) in
          t3 ← newDate;
          let selected' :=
            if decide (selectedCardId st = Some cardId) then None
            else selectedCardId st in
          mret (mkState
                  (Workspace.set_updatedAt t3
                     (Workspace.set_pages (<[pi := page']> (Workspace.pages ws)) ws))
                  selected')
      | None => mret st
      end
  | None => mret st
  end.

(** [Object.assign(card, updates, { updatedAt })]: the fields present in
    [updates] overwrite the card's, and [updatedAt] comes last. *)
Definition assign (card : Card.t) (updates : PartialCard.t) (updatedAt : Z) : Card.t :=
  Card.mk
    (default (Card.id card) (PartialCard.id updates))
    (default (Card.title card) (PartialCard.title updates))
    (default (Card.description card) (PartialCard.description updates))
    (default (Card.columnId card) (PartialCard.columnId updates))
    (default (Card.createdAt card) (PartialCard.createdAt updates))
    updatedAt
    (default (Card.tags card) (PartialCard.tags updates))
    (default (Card.status card) (PartialCard.status updates))
    (default (Card.metadata card) (PartialCard.metadata updates)).

Definition updateCard (pageId columnId cardId : string) (updates : PartialCard.t)
  : Action := λ st,
  let ws := workspace st in
  match findPage pageId (Workspace.pages ws) with
  | Some (pi, page) =>
      match findColumnIn columnId (Page.columns page) with
      | Some (ci, column) =>
          match findCardIn cardId (Column.cards column) with
          | Some (ki, card) =>
              t1 ← newDate;
              let card' := assign card updates t1 in
              t2 ← newDate;
              let column' :=
                Column.set_updatedAt t2
                  (Column.set_cards (<[ki := card']> (Column.cards column)) column) in
              t3 ← newDate;
              let page' :=
                Page.set_updatedAt t3
                  (Page.set_columns (<[ci := column']> (Page.columns page)) page) in
              t4 ← newDate;
              mret (set_workspace
                      (Workspace.set_updatedAt t4
                         (Workspace.set_pages (<[pi := page']> (Workspace.pages ws)) ws))
                      st)
          | None => mret st
          end
      | None => mret st
      end
  | None => mret st
  end.

(** The first phase of [moveCard]: find the card and remove it from the
    source column. Returns [movedCard] and the pages afterwards. *)
Definition takeCard (source : CardSource) (pages : list Page.t)
  : M (option Card.t * list Page.t) :=
  match findPage (src_pageId source) pages with
  | Some (pi, sourcePage) =>
      match findColumnIn (src_columnId source) (Page.columns sourcePage) with
      | Some (ci, sourceColumn) =>
          match findCardIn (src_cardId source) (Column.cards sourceColumn) with
          | Some (cardIndex, movedCard) =>
              let cards' :=
                snd (splice (Z.of_nat cardIndex) 1 [] (Column.cards sourceColumn)) in
              t1 ← newDate;
              let sourceColumn' :=
                Column.set_updatedAt t1 (Column.set_cards cards' sourceColumn) in
              t2 ← newDate;
              let sourcePage' :=
                Page.set_updatedAt t2
                  (Page.set_columns
                     (<[ci := sourceColumn']> (Page.columns sourcePage)) sourcePage) in
              mret (Some movedCard, <[pi := sourcePage']> pages)
          | None => mret (None, pages)
          end
      | None => mret (None, pages)
      end
  | None => mret (None, pages)
  end.

(** The second phase: insert the captured card into the target column. *)
Definition placeCard (movedCard : Card.t) (target : CardTarget) (pages : list Page.t)
  : M (list Page.t) :=
  match findPage (tgt_pageId target) pages with
  | Some (pi, targetPage) =>
      match findColumnIn (tgt_columnId target) (Page.columns targetPage) with
      | Some (ci, targetColumn) =>
          t1 ← newDate;
          let movedCard' :=
            Card.set_updatedAt t1 (Card.set_columnId (tgt_columnId target) movedCard) in
          let insertIndex :=
            default (Z.of_nat (length (Column.cards targetColumn))) (tgt_index target) in
          let cards' :=
            snd (splice insertIndex 0 [movedCard'] (Column.cards targetColumn)) in
          t2 ← newDate;
          let targetColumn' :=
            Column.set_updatedAt t2 (Column.set_cards cards' targetColumn) in
          t3 ← newDate;
          let targetPage' :=
            Page.set_updatedAt t3
              (Page.set_columns
                 (<[ci := targetColumn']> (Page.columns targetPage)) targetPage) in
          mret (<[pi := targetPage']> pages)
      | None => mret pages
      end
  | None => mret pages
  end.

Definition moveCard (source : CardSource) (target : CardTarget) : Action := λ st,
  let ws := workspace st in
  '(movedCard, pages1) ← takeCard source (Workspace.pages ws);
  pages2 ←
    match movedCard with
    | Some card => placeCard card target pages1
    | None => mret pages1
    end;
  now ← newDate;
  mret (set_workspace (Workspace.set_updatedAt now (Workspace.set_pages pages2 ws)) st).

Definition setSelectedCardId (cardId : option string) : Action := λ st,
  mret (set_selected cardId st).

(** *** Utility: [findCard] and [findColumn] *)

(** The inner loop of [findCard]: the columns of one page, in order. *)
Fixpoint findCardInColumns (cardId pageId : string) (columns : list Column.t)
  : option FoundCard :=
  match columns with
  | [] => None
  | column :: rest =>
      match findCardIn cardId (Column.cards column) with
      | Some (_, card) => Some (mkFoundCard card pageId (Column.id column))
      | None => findCardInColumns cardId pageId rest
      end
  end.

(** The outer loop: the pages, in order. *)
Fixpoint findCardInPages (cardId : string) (pages : list Page.t) : option FoundCard :=
  match pages with
  | [] => None
  | page :: rest =>
      match findCardInColumns cardId (Page.id page) (Page.columns page) with
      | Some found => Some found
      | None => findCardInPages cardId rest
      end
  end.

Definition findCard (cardId : string) (st : WorkspaceState) : option FoundCard :=
  findCardInPages cardId (Workspace.pages (workspace st)).

Fixpoint findColumnInPages (columnId : string) (pages : list Page.t)
  : option FoundColumn :=
  match pages with
  | [] => None
  | page :: rest =>
      match findColumnIn columnId (Page.columns page) with
      | Some (_, column) => Some (mkFoundColumn column (Page.id page))
      | None => findColumnInPages columnId rest
      end
  end.

Definition findColumn (columnId : string) (st : WorkspaceState) : option FoundColumn :=
  findColumnInPages columnId (Workspace.pages (workspace st)).

(** *** The board's drag handler ([components/board/Board.tsx])

    [handleDragEnd] of the board rendered for [pageId]: [active] is the id
    of the dragged item, [over] the id of the item it was dropped on, if
    any. The board renders its columns, and installs the handler, only when
    the page is found. *)
Definition handleDragEnd (pageId : string) (active : string) (over : option string)
  : Action := λ st,
  match findPage pageId (Workspace.pages (workspace st)) with
  | Some (_, page) =>
      let columns := Page.columns page in
      match over with
      | None => mret st
      | Some overId =>
          if String.prefix "col-" active then
            match findColumnIn active columns, findColumnIn overId columns with
            | Some (currentIndex, _), Some (overIndex, _) =>
                if decide (currentIndex ≠ overIndex)
                then moveColumn pageId active (Z.of_nat overIndex) st
                else mret st
            | _, _ => mret st
            end
          else mret st
      end
  | None => mret st
  end.

(** *** Sequences of store operations *)

Definition run (op : Op) : Action :=
  match op with
  | SetWorkspaceTitle title => setWorkspaceTitle title
  | AddPage title icon => addPage title icon
  | RemovePage pageId => removePage pageId
  | RenamePage pageId title => renamePage pageId title
  | SetActivePage pageId => setActivePage pageId
  | UpdatePageIcon pageId icon => updatePageIcon pageId icon
  | AddColumn pageId title => addColumn pageId title
  | RemoveColumn pageId columnId => removeColumn pageId columnId
  | RenameColumn pageId columnId title => renameColumn pageId columnId title
  | MoveColumn pageId columnId targetIndex => moveColumn pageId columnId targetIndex
  | AddCard pageId columnId title description =>
      addCard pageId columnId title description
  | RemoveCard pageId columnId cardId => removeCard pageId columnId cardId
  | UpdateCard pageId columnId cardId updates =>
      updateCard pageId columnId cardId updates
  | MoveCard source target => moveCard source target
  | SetSelectedCardId cardId => setSelectedCardId cardId
  end.

(** The states the store can be in after a sequence of operations, each
    satisfying [allowed], on the store as created in some world. *)
Inductive reachable (allowed : Op → Prop) : WorkspaceState → World → Prop :=
  | reachable_init w0 st w :
      initialState w0 = (st, w) → reachable allowed st w
  | reachable_step op st w st' w' :
      reachable allowed st w → allowed op → run op st w = (st', w') →
      reachable allowed st' w'.

End Store.

(** ** Export: the analytics summary *)

(** JavaScript numbers are IEEE-754 binary64 values (53 bits of precision,
    exponents below 1024): [number] is the Standard Library's specification
    of them, [divide] the operator [/] (the quotient rounded to the nearest
    double, ties to even), [numberOfNat] the double of an integer and
    [numberValue] the rational a finite double stands for. The counts below
    are lengths of arrays and their sums, which are exact integers. *)
Definition number : Type := SpecFloat.spec_float.
Definition numberOfNat (n : nat) : number :=
  SpecFloat.binary_normalize 53 1024 (Z.of_nat n) 0 false.
Definition divide (x y : number) : number := SpecFloat.SFdiv 53 1024 x y.
Definition numberValue (x : number) : option Q :=
  match x with
  | SpecFloat.S754_zero _ => Some 0%Q
  | SpecFloat.S754_finite s m e =>
      Some (inject_Z (if s then Z.neg m else Z.pos m) * 2 ^ e)%Q
  | _ => None
  end.

Record Analytics := mkAnalytics {
  totalCards : nat;
  completedCards : nat;
  completionRate : number;
  pagesCount : nat;
  columnsCount : nat;
}.

(** [array.reduce(f, init)]. *)
Definition reduce {A B} (f : B → A → B) (init : B) (l : list A) : B :=
  fold_left f l init.

Definition generateAnalytics (pages : list Page.t) : Analytics :=
  let totalCards :=
    reduce (λ acc page,
      acc + reduce (λ colAcc column, colAcc + length (Column.cards column))
              0 (Page.columns page))%nat 0%nat pages in
  let completedCards :=
    reduce (λ acc page,
      acc + reduce (λ colAcc column,
              colAcc + length (filter (λ card, Card.status card = done)
                                 (Column.cards column)))
              0 (Page.columns page))%nat 0%nat pages in
  let completionRate :=
    if decide (0 < totalCards)%nat
    then divide (numberOfNat completedCards) (numberOfNat totalCards)
    else numberOfNat 0 in
  mkAnalytics totalCards completedCards completionRate
    (length pages)
    (reduce (λ acc page, acc + length (Page.columns page))%nat 0%nat pages).

(** ** Import *)

(** A value produced by [JSON.parse]. An object lists its properties, one
    entry per name. *)
#[local] Set Warnings "-register-all".
Inductive JSON :=
  | JNull
  | JBool (b : bool)
  | JNumber (q : Q)
  | JString (s : string)
  | JArray (items : list JSON)
  | JObject (members : list (string * JSON)).

(** A JavaScript value read out of parsed JSON: [None] is [undefined]. *)
Definition Value : Type := option JSON.

Record Exn := mkError { exn_message : string }.

Inductive Result (A : Type) :=
  | Ok (a : A)
  | Throw (e : Exn).
Arguments Ok {A} a.
Arguments Throw {A} e.

Global Instance Result_ret : MRet Result := λ A a, Ok a.
Global Instance Result_bind : MBind Result := λ A B f m,
  match m with Ok a => f a | Throw e => Throw e end.

Module ImportResult.
Record counts := mkCounts { pages : nat; columns : nat; cards : nat }.
Inductive kind := page | column | card.
Inductive action := skipped | merged | renamed.
Record conflict := mkConflict {
  type : kind; id : string; title : string; action_ : action;
}.
Record t := mk {
  success : bool;
  message : string;
  imported : counts;
  conflicts : list conflict;
}.
End ImportResult.

Inductive MergeStrategy := replace_ | merge_ | skip_.
Record ImportOptions := mkOptions {
  mergeStrategy : MergeStrategy;
  preserveIds : bool;
}.

(** What the [FileReader] delivers for a file. *)
Inductive File :=
  | FileText (text : string)
  | FileUnreadable.

Definition truthy (v : Value) : bool :=
  match v with
  | None | Some JNull => false
  | Some (JBool b) => b
  | Some (JNumber q) => negb (Qeq_bool q 0)
  | Some (JString s) => bool_decide (s ≠ "")
  | Some (JArray _) | Some (JObject _) => true
  end.

Definition isArray (v : Value) : bool :=
  match v with Some (JArray _) => true | _ => false end.

(** [typeof v === 'object']. *)
Definition typeofObject (v : Value) : bool :=
  match v with
  | Some JNull | Some (JArray _) | Some (JObject _) => true
  | _ => false
  end.

Definition member (key : string) (members : list (string * JSON)) : Value :=
  (λ r, r.2.2) <$> list_find (λ kv, kv.1 = key) members.

Section ImportService.

(** [JSON.parse]: the value, or the [SyntaxError] it throws. *)
Variable JSON_parse : string → Result JSON.
(** The message of the [TypeError] the engine throws when [name] is read
    or called on a value that does not support it. *)
Variable typeErrorMessage : Value → string → string.

(** [v.key], for the property names this service reads ([workspace],
    [pages], [id], [title], [board], [columns], [cards]): none of them is
    defined on a primitive or on an array. *)
Definition get (v : Value) (key : string) : Result Value :=
  match v with
  | None | Some JNull => Throw (mkError (typeErrorMessage v key))
  | Some (JObject members) => Ok (member key members)
  | Some _ => Ok None
  end.

(** [array.every(callback)]. *)
Fixpoint every {A} (callback : A → Result bool) (l : list A) : Result bool :=
  match l with
  | [] => Ok true
  | x :: l' =>
      b ← callback x;
      if b : bool then every callback l' else Ok false
  end.

(** [page.id && page.title && page.board && Array.isArray(page.board.columns)],
    coerced to a boolean by [every]. *)
Definition validPage (page : JSON) : Result bool :=
  id ← get (Some page) "id";
  if truthy id then
    title ← get (Some page) "title";
    if truthy title then
      board ← get (Some page) "board";
      if truthy board then
        columns ← get board "columns";
        mret (isArray columns)
      else mret false
    else mret false
  else mret false.

Definition validateImportData (data : JSON) : Result bool :=
  if negb (truthy (Some data)) || negb (typeofObject (Some data)) then mret false
  else
    workspace ← get (Some data) "workspace";
    if negb (truthy workspace) then mret false
    else
      pages ← get workspace "pages";
      match pages with
      | Some (JArray pages) => every validPage pages
      | _ => mret false
      end.

(** [array.forEach(callback)] for a callback that updates the counters
    [st] of the enclosing function. *)
Fixpoint forEach {A St} (callback : A → St → Result St) (l : list A) (st : St)
  : Result St :=
  match l with
  | [] => Ok st
  | x :: l' =>
      st' ← callback x st;
      forEach callback l' st'
  end.

(** [v.forEach(callback)] on a value read from the data. *)
Definition forEachOf {St} (v : Value) (callback : JSON → St → Result St) (st : St)
  : Result St :=
  match v with
  | Some (JArray items) => forEach callback items st
  | _ => Throw (mkError (typeErrorMessage v "forEach"))
  end.

Definition incPages (n : ImportResult.counts) : ImportResult.counts :=
  ImportResult.mkCounts (S (ImportResult.pages n)) (ImportResult.columns n)
    (ImportResult.cards n).
Definition incColumns (n : ImportResult.counts) : ImportResult.counts :=
  ImportResult.mkCounts (ImportResult.pages n) (S (ImportResult.columns n))
    (ImportResult.cards n).
Definition incCards (n : ImportResult.counts) : ImportResult.counts :=
  ImportResult.mkCounts (ImportResult.pages n) (ImportResult.columns n)
    (S (ImportResult.cards n)).

Definition processImport (data : JSON) (options : ImportOptions)
  : Result ImportResult.t :=
  workspace ← get (Some data) "workspace";
  pages ← get workspace "pages";
  n ← forEachOf pages (λ page n,
         let n := incPages n in
         board ← get (Some page) "board";
         columns ← get board "columns";
         forEachOf columns (λ column n,
           let n := incColumns n in
           cards ← get (Some column) "cards";
           forEachOf cards (λ _ n, mret (incCards n)) n) n)
       (ImportResult.mkCounts 0 0 0);
  mret (ImportResult.mk true
          ("Successfully imported " +:+ pretty (ImportResult.pages n) +:+ " pages, "
             +:+ pretty (ImportResult.columns n) +:+ " columns, and "
             +:+ pretty (ImportResult.cards n) +:+ " cards")
          n []).

Definition readFile (file : File) : Result string :=
  match file with
  | FileText text =>
      if decide (text = "") then Throw (mkError "Failed to read file")
      else Ok text
  | FileUnreadable => Throw (mkError "File reading error")
  end.

(** The body of the [try] block. *)
Definition tryImport (file : File) (options : ImportOptions) : Result ImportResult.t :=
  content ← readFile file;
  data ← JSON_parse content;
  valid ← validateImportData data;
  if negb valid then Throw (mkError "Invalid import data format")
  else processImport data options.

(** [try { ... } catch (error) { ... }]: everything thrown in the body is an
    [Error], so the message is [error.message]. *)
Definition importWorkspace (file : File) (options : ImportOptions) : ImportResult.t :=
  match tryImport file options with
  | Ok result => result
  | Throw error =>
      ImportResult.mk false ("Import failed: " +:+ exn_message error)
        (ImportResult.mkCounts 0 0 0) []
  end.

(** *** Export *)

Inductive ExportFormat := json | csv | markdown | pdf.

Record DateRange := mkDateRange { range_from : string; range_to : string }.

Record ExportOptions := mkExportOptions {
  format : ExportFormat;
  includeMetadata : bool;
  includeAnalytics : bool;
  dateRange : option DateRange;
  selectedPages : option (list string);
}.

(** The object [prepareExportData] builds. *)
Record ExportData := mkExportData {
  export_title : string;
  export_pages : list Page.t;
  export_exportedAt : string;
  export_version : string;
  export_format : ExportFormat;
  export_options : ExportOptions;
  export_analytics : option Analytics;
}.

(** What [downloadFile] hands to the browser. *)
Record Download := mkDownload {
  download_type : string;
  download_name : string;
  download_content : string;
}.

(** The system clock, and the library functions the export relies on:
    [new Date(text)] ([None] for an invalid date), [Date.prototype.toISOString],
    [Date.prototype.toString], [JSON.stringify(value, null, 2)] and
    [s.toLowerCase().replace(/\s+/g, '-')]. *)
Variable clock : nat → Z.
Variable parseDate : string → option Z.
Variable toISOString : Z → string.
Variable dateToString : Z → string.
Variable JSON_stringify : JSON → string.
Variable slug : string → string.

(** [cardDate >= fromDate && cardDate <= toDate]; a comparison with an
    invalid date is false. *)
Definition inDateRange (fromDate toDate : option Z) (card : Card.t) : bool :=
  match fromDate, toDate with
  | Some f, Some t => bool_decide (f ≤ Card.createdAt card) && bool_decide (Card.createdAt card ≤ t)
  | _, _ => false
  end.

Definition prepareExportData (workspace : Workspace.t) (options : ExportOptions)
  : M ExportData :=
  let pages := Workspace.pages workspace in
  let pages :=
    match selectedPages options with
    | Some ((_ :: _) as selected) =>
        filter (λ page, Page.id page ∈ selected) pages
    | _ => pages
    end in
  let pages :=
    match dateRange options with
    | Some range =>
        let fromDate := parseDate (range_from range) in
        let toDate := parseDate (range_to range) in
        (λ page,
           Page.set_columns
             ((λ column,
                 Column.set_cards
                   (filter (λ card, inDateRange fromDate toDate card = true)
                      (Column.cards column)) column)
                <$> Page.columns page) page) <$> pages
    | None => pages
    end in
  now ← newDate clock;
  mret (mkExportData (Workspace.title workspace) pages (toISOString now) "1.0.0"
          (format options) options
          (if includeAnalytics options then Some (generateAnalytics pages) else None)).

(** [new Date().toISOString().split('T')[0]]; 84 is the code of [T]. *)
Fixpoint beforeT (s : string) : string :=
  match s with
  | EmptyString => EmptyString
  | String c rest =>
      if decide (c = Ascii.ascii_of_nat 84) then EmptyString
      else String c (beforeT rest)
  end.

Definition today : M string :=
  now ← newDate clock;
  mret (beforeT (toISOString now)).

Definition statusText (s : Status) : string :=
  match s with todo => "todo" | in_progress => "in-progress" | done => "done" end.

(** The value [JSON.parse] returns for what [JSON.stringify] writes: a
    [Date] is written as its ISO string, an absent property is left out. *)
Definition cardJSON (card : Card.t) : JSON :=
  JObject
    [("id", JString (Card.id card)); ("title", JString (Card.title card));
     ("description", JString (Card.description card));
     ("columnId", JString (Card.columnId card));
     ("createdAt", JString (toISOString (Card.createdAt card)));
     ("updatedAt", JString (toISOString (Card.updatedAt card)));
     ("tags", JArray (JString <$> Card.tags card));
     ("status", JString (statusText (Card.status card)));
     ("metadata",
      JObject ((λ kv, (kv.1, JString kv.2)) <$> map_to_list (Card.metadata card)))].

Definition columnJSON (column : Column.t) : JSON :=
  JObject
    [("id", JString (Column.id column)); ("title", JString (Column.title column));
     ("cards", JArray (cardJSON <$> Column.cards column));
     ("createdAt", JString (toISOString (Column.createdAt column)));
     ("updatedAt", JString (toISOString (Column.updatedAt column)))].

Definition pageJSON (page : Page.t) : JSON :=
  JObject
    [("id", JString (Page.id page)); ("title", JString (Page.title page));
     ("icon", JString (Page.icon page));
     ("board", JObject [("columns", JArray (columnJSON <$> Page.columns page))]);
     ("createdAt", JString (toISOString (Page.createdAt page)));
     ("updatedAt", JString (toISOString (Page.updatedAt page)))].

Definition workspaceJSON (ws : Workspace.t) : JSON :=
  JObject
    [("title", JString (Workspace.title ws));
     ("pages", JArray (pageJSON <$> Workspace.pages ws));
     ("activePageId",
      match Workspace.activePageId ws with Some a => JString a | None => JNull end);
     ("createdAt", JString (toISOString (Workspace.createdAt ws)));
     ("updatedAt", JString (toISOString (Workspace.updatedAt ws)))].

Definition countJSON (n : nat) : JSON := JNumber (inject_Z (Z.of_nat n)).

(** A number in JSON: [JSON.stringify] writes [null] for [NaN] and the
    infinities. *)
Definition numberJSON (x : number) : JSON :=
  match numberValue x with Some q => JNumber q | None => JNull end.

Definition analyticsJSON (a : Analytics) : JSON :=
  JObject
    [("totalCards", countJSON (totalCards a));
     ("completedCards", countJSON (completedCards a));
     ("completionRate", numberJSON (completionRate a));
     ("pagesCount", countJSON (pagesCount a));
     ("columnsCount", countJSON (columnsCount a))].

Definition formatText (f : ExportFormat) : string :=
  match f with json => "json" | csv => "csv" | markdown => "markdown" | pdf => "pdf" end.

Definition optionsJSON (o : ExportOptions) : JSON :=
  JObject
    ([("format", JString (formatText (format o)));
      ("includeMetadata", JBool (includeMetadata o));
      ("includeAnalytics", JBool (includeAnalytics o))]
     ++ match dateRange o with
        | Some r => [("dateRange",
                      JObject [("from", JString (range_from r));
                               ("to", JString (range_to r))])]
        | None => []
        end
     ++ match selectedPages o with
        | Some l => [("selectedPages", JArray (JString <$> l))]
        | None => []
        end).

Definition exportDataJSON (data : ExportData) : JSON :=
  JObject
    ([("workspace",
       JObject [("title", JString (export_title data));
                ("pages", JArray (pageJSON <$> export_pages data))]);
      ("metadata",
       JObject [("exportedAt", JString (export_exportedAt data));
                ("version", JString (export_version data));
                ("format", JString (formatText (export_format data)));
                ("options", optionsJSON (export_options data))])]
     ++ match export_analytics data with
        | Some a => [("analytics", analyticsJSON a)]
        | None => []
        end).

Definition exportAsJSON (data : ExportData) (options : ExportOptions) : M Download :=
  let jsonString := JSON_stringify (exportDataJSON data) in
  day ← today;
  mret (mkDownload "application/json" ("workspace-export-" +:+ day +:+ ".json")
          jsonString).

(** The double quote character, and a text between double quotes. *)
Definition dquote : string := String (Ascii.ascii_of_nat 34) EmptyString.
Definition quoted (s : string) : string := dquote +:+ s +:+ dquote.

(** One row per card: [row.join(',')]. *)
Definition csvRow (page : Page.t) (column : Column.t) (card : Card.t) : string :=
  String.concat ","
    [quoted (Page.title page); quoted (Column.title column);
     quoted (Card.title card); quoted (Card.description card);
     statusText (Card.status card);
     quoted (String.concat ", " (Card.tags card));
     dateToString (Card.createdAt card); dateToString (Card.updatedAt card)].

Definition csvRows (pages : list Page.t) : list string :=
  "Page,Column,Card Title,Description,Status,Tags,Created At,Updated At"
    :: (page ← pages; column ← Page.columns page; card ← Column.cards column;
        [csvRow page column card]).

(** The line feed that joins the rows. *)
Definition newline : string := String (Ascii.ascii_of_nat 10) EmptyString.

Definition exportAsCSV (data : ExportData) (options : ExportOptions) : M Download :=
  let csvString := String.concat newline (csvRows (export_pages data)) in
  day ← today;
  mret (mkDownload "text/csv" ("workspace-export-" +:+ day +:+ ".csv") csvString).

(** *** Templates *)

Definition templateJSON (ws : Workspace.t) (templateName createdAt : string) : JSON :=
  JObject
    [("name", JString templateName);
     ("description", JString "Custom workspace template");
     ("version", JString "1.0.0");
     ("createdAt", JString createdAt);
     ("structure",
      JObject
        [("pages",
          JArray
            ((λ page,
                JObject
                  [("title", JString (Page.title page));
                   ("icon", JString (Page.icon page));
                   ("board",
                    JObject
                      [("columns",
                        JArray
                          ((λ column,
                              JObject [("title", JString (Column.title column));
                                       ("cards", JArray [])])
                             <$> Page.columns page))])])
               <$> Workspace.pages ws))])].

Definition saveAsTemplate (ws : Workspace.t) (templateName : string) : M Download :=
  now ← newDate clock;
  let template := templateJSON ws templateName (toISOString now) in
  mret (mkDownload "application/json" ("template-" +:+ slug templateName +:+ ".json")
          (JSON_stringify template)).

Record TemplateResult := mkTemplateResult {
  template_success : bool;
  template_message : string;
  template_value : option JSON;
}.

(** [${value}] in a template literal: a string is itself; what the engine
    prints for another value is left to [display]. *)
Variable display : Value → string.
Definition interpolate (v : Value) : string :=
  match v with Some (JString s) => s | _ => display v end.

(** The body of the [try] block of [loadFromTemplate]; [name] and
    [structure], like the names [get] reads, are defined on objects only. *)
Definition tryLoadTemplate (templateFile : File) : Result TemplateResult :=
  content ← readFile templateFile;
  template ← JSON_parse content;
  name ← get (Some template) "name";
  structure ← (if truthy name then get (Some template) "structure" else mret None);
  if negb (truthy name) || negb (truthy structure)
  then Throw (mkError "Invalid template format")
  else
    mret (mkTemplateResult true
            ("Template " +:+ quoted (interpolate name) +:+ " loaded successfully")
            (Some template)).

Definition loadFromTemplate (templateFile : File) : TemplateResult :=
  match tryLoadTemplate templateFile with
  | Ok result => result
  | Throw error =>
      mkTemplateResult false ("Failed to load template: " +:+ exn_message error) None
  end.

(** *** Backup and restore *)

Definition backupJSON (ws : Workspace.t) (createdAt : string) : JSON :=
  JObject
    [("version", JString "1.0.0");
     ("createdAt", JString createdAt);
     ("workspace", workspaceJSON ws);
     ("metadata",
      JObject
        [("totalCards",
          countJSON
            (reduce (λ acc page,
               acc + reduce (λ colAcc column, colAcc + length (Column.cards column))
                       0 (Page.columns page))%nat 0%nat (Workspace.pages ws)));
         ("totalPages", countJSON (length (Workspace.pages ws)))])].

Definition createBackup (ws : Workspace.t) : M Download :=
  now ← newDate clock;
  let backup := backupJSON ws (toISOString now) in
  day ← today;
  mret (mkDownload "application/json" ("workspace-backup-" +:+ day +:+ ".json")
          (JSON_stringify backup)).

Definition restoreFromBackup (backupFile : File) : ImportResult.t :=
  importWorkspace backupFile (mkOptions replace_ true).

End ImportService.

(** ** What the specification speaks about *)

(** Every card reachable from the workspace, in page, column and card order. *)
Definition allCards (pages : list Page.t) : list Card.t :=
  p ← pages; col ← Page.columns p; Column.cards col.

Definition cardIds (ws : Workspace.t) : list string :=
  Card.id <$> allCards (Workspace.pages ws).

(** Referential integrity: a card's [columnId] is the id of the column
    whose sequence holds it. *)
Definition columnIntegrity (col : Column.t) : Prop :=
  Forall (λ c, Card.columnId c = Column.id col) (Column.cards col).
Definition pageIntegrity (p : Page.t) : Prop :=
  Forall columnIntegrity (Page.columns p).
Definition referentialIntegrity (ws : Workspace.t) : Prop :=
  Forall pageIntegrity (Workspace.pages ws).

(** Active-page validity. *)
Definition activePageValid (ws : Workspace.t) : Prop :=
  match Workspace.activePageId ws with
  | None => True
  | Some a => a ∈ Page.id <$> Workspace.pages ws
  end.

(** The workspace tree with every [updatedAt] blanked: two workspaces with
    the same image differ in [updatedAt] stamps only. *)
Definition blankCard (c : Card.t) : Card.t := Card.set_updatedAt 0 c.
Definition blankColumn (col : Column.t) : Column.t :=
  Column.set_updatedAt 0 (Column.set_cards (blankCard <$> Column.cards col) col).
Definition blankPage (p : Page.t) : Page.t :=
  Page.set_updatedAt 0 (Page.set_columns (blankColumn <$> Page.columns p) p).
Definition blankStamps (ws : Workspace.t) : Workspace.t :=
  Workspace.set_updatedAt 0 (Workspace.set_pages (blankPage <$> Workspace.pages ws) ws).

(** The minimal shape of import data, in the specification's words:
    [workspace.pages] is an array in which every page has [id], [title] and
    a [board.columns] array. *)
Definition pageShape (page : JSON) : bool :=
  match page with
  | JObject m =>
      bool_decide (is_Some (member "id" m))
      && bool_decide (is_Some (member "title" m))
      && match member "board" m with
         | Some (JObject b) => isArray (member "columns" b)
         | _ => false
         end
  | _ => false
  end.

Definition importShape (data : JSON) : bool :=
  match data with
  | JObject m =>
      match member "workspace" m with
      | Some (JObject ws) =>
          match member "pages" ws with
          | Some (JArray pages) => forallb pageShape pages
          | _ => false
          end
      | _ => false
      end
  | _ => false
  end.

(** The cards of the column at position [ci] of the page at position [pi]. *)
Definition cardsAt (pi ci : nat) (ws : Workspace.t) : option (list Card.t) :=
  page ← Workspace.pages ws !! pi;
  column ← Page.columns page !! ci;
  Some (Column.cards column).

(** The calls other than [setActivePage], which stores any id it is given. *)
Definition keepsActivePage (op : Op) : Prop :=
  match op with SetActivePage _ => False | _ => True end.

(** Every [updatedAt] of the tree is at most [T]. *)
Definition cardsWithin (T : Z) (cards : list Card.t) : Prop :=
  Forall (λ c, Card.updatedAt c ≤ T) cards.
Definition columnsWithin (T : Z) (columns : list Column.t) : Prop :=
  Forall (λ col, Column.updatedAt col ≤ T ∧ cardsWithin T (Column.cards col)) columns.
Definition pagesWithin (T : Z) (pages : list Page.t) : Prop :=
  Forall (λ p, Page.updatedAt p ≤ T ∧ columnsWithin T (Page.columns p)) pages.
Definition stampsWithin (T : Z) (ws : Workspace.t) : Prop :=
  Workspace.updatedAt ws ≤ T ∧ pagesWithin T (Workspace.pages ws).

(** Page ids start with [page-] and column ids with [col-]. *)
Definition columnsPrefixed (columns : list Column.t) : Prop :=
  Forall (λ col, String.prefix "col-" (Column.id col) = true) columns.
Definition idsPrefixed (ws : Workspace.t) : Prop :=
  Forall (λ p, String.prefix "page-" (Page.id p) = true ∧ columnsPrefixed (Page.columns p))
    (Workspace.pages ws).

(** A page survives the import's shape check when its id and its title are
    non-empty: [page.id && page.title] treats the empty string as absent. *)
Definition importable (pages : list Page.t) : bool :=
  forallb (λ p, bool_decide (Page.id p ≠ "") && bool_decide (Page.title p ≠ "")) pages.

(** What [importWorkspace] answers for a file whose text parses to an
    object with the given pages under [workspace.pages]. *)
Definition importOutcome (pages : list Page.t) : ImportResult.t :=
  if importable pages then
    ImportResult.mk true
      ("Successfully imported " +:+ pretty (length pages) +:+ " pages, "
         +:+ pretty (length (pages ≫= Page.columns)) +:+ " columns, and "
         +:+ pretty (length (allCards pages)) +:+ " cards")
      (ImportResult.mkCounts (length pages) (length (pages ≫= Page.columns))
         (length (allCards pages)))
      []
  else
    ImportResult.mk false "Import failed: Invalid import data format"
      (ImportResult.mkCounts 0 0 0) [].

(** The calls that leave the foreign key to the store: all but an
    [updateCard] whose updates carry a [columnId] other than the addressed
    column's. *)
Definition keepsColumnId (op : Op) : Prop :=
  match op with
  | UpdateCard _ columnId _ updates =>
      ∀ c, PartialCard.columnId updates = Some c → c = columnId
  | _ => True
  end.

Definition anyOp (op : Op) : Prop := True.

(** [x] placed at position [k] of [l]. *)
Definition insertAt {A} (k : nat) (x : A) (l : list A) : list A :=
  take k l ++ x :: drop k l.

(** ** Concrete inputs, for the examples *)

Module Example.
(** A clock that advances one millisecond per reading. *)
Definition clock (n : nat) : Z := 1000 + Z.of_nat n.
Definition random (n : nat) : string := "r" +:+ pretty n.
Definition world0 : World := mkWorld 0 0.

(** The store as created in that world. *)
Definition created : WorkspaceState := (initialState clock random world0).1.
Definition world1 : World := (initialState clock random world0).2.
Definition welcomePage : string := "page-1000-r0".
Definition toDo : string := "col-1001-r1".
Definition welcomeCard : string := "card-1002-r2".

(** A board with three columns on its first page. *)
Definition card1 : Card.t := Card.mk "k1" "Write" "" "c1" 10 20 [] todo ∅.
Definition card2 : Card.t := Card.mk "k2" "Review" "" "c1" 11 21 ["doc"] done ∅.
Definition card3 : Card.t := Card.mk "k3" "Ship" "" "c2" 12 22 [] in_progress ∅.
Definition column1 : Column.t := Column.mk "c1" "To Do" [card1; card2] 5 30.
Definition column2 : Column.t := Column.mk "c2" "Doing" [card3] 6 31.
Definition column3 : Column.t := Column.mk "c3" "Done" [] 7 32.
Definition page1 : Page.t :=
  Page.mk "p1" "Plan" "P" (Board.mk [column1; column2; column3]) 3 40.
Definition page2 : Page.t := Page.mk "p2" "Notes" "N" (Board.mk []) 4 41.
Definition board : WorkspaceState :=
  mkState (Workspace.mk "Work" [page1; page2] (Some "p1") 1 50) (Some "k3").

(** A parser that knows two texts, and the engine's message for a read
    of a property of [null] or [undefined]. *)
Definition parse (text : string) : Result JSON :=
  if decide (text = "null") then Ok JNull
  else if decide (text = "{}") then Ok (JObject [])
  else Throw (mkError "Unexpected token").
Definition typeErrorMessage (v : Value) (name : string) : string :=
  "Cannot read properties of "
    +:+ (if v is None then "undefined" else "null")
    +:+ " (reading '" +:+ name +:+ "')".
Definition options : ImportOptions := mkOptions replace_ true.
End Example.

(** ** Rounding of doubles *)

(** Where the exact value lies between two neighbours: [num / den] above
    the lower one. *)
Definition located (loc : SpecFloat.location) (num den : Z) : Prop :=
  match loc with
  | SpecFloat.loc_Exact => num = 0
  | SpecFloat.loc_Inexact Lt => 0 < 2 * num < den
  | SpecFloat.loc_Inexact Eq => 2 * num = den
  | SpecFloat.loc_Inexact Gt => den < 2 * num
  end.

(** ** Concrete inputs for the export and the drag handler *)

Module Sample.
(** Library functions: an ISO text with a fixed day, a date parser that
    knows two texts, a serializer with a fixed output. *)
Definition toISOString (z : Z) : string := "2026-11-02T10:00:00." +:+ pretty z.
Definition parseDate (text : string) : option Z :=
  if decide (text = "early") then Some 11
  else if decide (text = "late") then Some 12
  else None.
Definition stringify (v : JSON) : string := "{ }".
Definition slug (s : string) : string := s.
Definition display (v : Value) : string := "null".

(** A board whose ids have the generated form. *)
Definition columnA : Column.t := Column.mk "col-a" "To Do" [Example.card1] 5 30.
Definition columnB : Column.t := Column.mk "col-b" "Doing" [] 6 31.
Definition columnC : Column.t := Column.mk "col-c" "Done" [] 7 32.
Definition page : Page.t :=
  Page.mk "page-1" "Plan" "P" (Board.mk [columnA; columnB; columnC]) 3 40.
Definition kanban : WorkspaceState :=
  mkState (Workspace.mk "Work" [page] (Some "page-1") 1 50) None.

Definition exportOptions : ExportOptions :=
  mkExportOptions json false true (Some (mkDateRange "early" "late")) (Some ["p1"]).

(** The export of the example board, its backup and a template of it, and
    parsers that read each back. *)
Definition prepared : ExportData * World :=
  prepareExportData Example.clock parseDate toISOString (workspace Example.board)
    exportOptions Example.world0.
Definition parseExport (text : string) : Result JSON :=
  Ok (exportDataJSON toISOString prepared.1).
Definition parseBackup (text : string) : Result JSON :=
  Ok (backupJSON toISOString (workspace Example.board)
        (toISOString (Example.clock 0))).
Definition parseTemplate (text : string) : Result JSON :=
  Ok (templateJSON (workspace Example.board) "My T" (toISOString (Example.clock 0))).
Definition noCards : ExportData :=
  mkExportData "Work" [Example.page2] "2026-11-02T10:00:00.0" "1.0.0" csv
    exportOptions None.

(** The store as created after an [updateCard] that carries a foreign
    [columnId], and after an [addCard] followed by an [updateCard] that
    gives the new card the welcome card's id. *)
Definition relabel : PartialCard.t :=
  PartialCard.mk None None None (Some "col-elsewhere") None None None None None.
Definition relabelled : WorkspaceState * World :=
  run Example.clock Example.random
    (UpdateCard Example.welcomePage Example.toDo Example.welcomeCard relabel)
    Example.created Example.world1.
Definition second : WorkspaceState * World :=
  run Example.clock Example.random
    (AddCard Example.welcomePage Example.toDo "Second" None)
    Example.created Example.world1.
Definition reuseId : PartialCard.t :=
  PartialCard.mk (Some Example.welcomeCard) None None None None None None None None.
Definition twins : WorkspaceState * World :=
  run Example.clock Example.random
    (UpdateCard Example.welcomePage Example.toDo "card-1011-r3" reuseId)
    second.1 second.2.
End Sample.

(** ** Arrays: [splice] and [find] *)

Section Arrays.
Context {A : Type}.
Implicit Types (l : list A) (x : A) (i k : nat).

Lemma splice_start_le len start : (splice_start len start ≤ len)%nat.
Proof. unfold splice_start. case_decide; lia. Qed.

Lemma splice_start_of_nat len i : (i ≤ len)%nat → splice_start len (Z.of_nat i) = i.
Proof. intros. unfold splice_start. case_decide; lia. Qed.

Lemma splice_start_ge len start : Z.of_nat len ≤ start → splice_start len start = len.
Proof. intros. unfold splice_start. case_decide; lia. Qed.

(** [l.splice(i, 1)] at an index in range removes exactly that element. *)
Lemma splice_remove l i x :
  l !! i = Some x → splice (Z.of_nat i) 1 [] l = ([x], delete i l).
Proof.
  intros Hi. pose proof (lookup_lt_Some _ _ _ Hi) as Hlt.
  unfold splice. rewrite splice_start_of_nat by lia.
  replace (Z.to_nat (Z.min (Z.max 1 0) (Z.of_nat (length l - i)))) with 1%nat by lia.
  f_equal.
  - rewrite (drop_S _ _ _ Hi). done.
  - simpl. rewrite Nat.add_1_r. symmetry. apply delete_take_drop.
Qed.

(** [l.splice(start, 0, x)] inserts at the clamped position. *)
Lemma splice_insert l start x :
  snd (splice start 0 [x] l) = insertAt (splice_start (length l) start) x l.
Proof.
  unfold splice, insertAt. simpl.
  replace (Z.to_nat (Z.min 0 _)) with 0%nat by lia.
  by rewrite Nat.add_0_r.
Qed.

Lemma reorder_insertAt l i x target :
  l !! i = Some x →
  reorder i target l = insertAt (splice_start (length (delete i l)) target) x (delete i l).
Proof.
  intros Hi. unfold reorder. rewrite (splice_remove _ _ _ Hi). simpl.
  apply splice_insert.
Qed.

Lemma insertAt_Permutation k x l : insertAt k x l ≡ₚ x :: l.
Proof.
  unfold insertAt. rewrite <- Permutation_middle. by rewrite take_drop.
Qed.

Lemma insertAt_lookup k x l : (k ≤ length l)%nat → insertAt k x l !! k = Some x.
Proof.
  intros. unfold insertAt. rewrite lookup_app_r by (rewrite length_take; lia).
  rewrite length_take. by replace (k - k `min` length l)%nat with 0%nat by lia.
Qed.

Lemma delete_insertAt k x l : (k ≤ length l)%nat → delete k (insertAt k x l) = l.
Proof.
  intros. unfold insertAt.
  rewrite delete_take_drop.
  rewrite take_app_le by (rewrite length_take; lia).
  rewrite take_take, Nat.min_id.
  rewrite drop_app_ge by (rewrite length_take; lia).
  rewrite length_take.
  replace (S k - k `min` length l)%nat with 1%nat by lia.
  simpl. rewrite drop_0. apply take_drop.
Qed.

Lemma insertAt_end x l : insertAt (length l) x l = l ++ [x].
Proof. unfold insertAt. by rewrite take_ge, drop_ge by lia. Qed.

(** Removing the element at [k] and inserting [y] at [k] is overwriting
    position [k]. *)
Lemma insertAt_delete_insert k x y l :
  l !! k = Some x → insertAt k y (delete k l) = <[k:=y]> l.
Proof.
  intros Hk. pose proof (lookup_lt_Some _ _ _ Hk).
  unfold insertAt. rewrite delete_take_drop.
  rewrite take_app_le by (rewrite length_take; lia).
  rewrite take_take, Nat.min_id.
  rewrite drop_app_ge by (rewrite length_take; lia).
  rewrite length_take.
  replace (k - k `min` length l)%nat with 0%nat by lia.
  rewrite drop_0. symmetry. by apply insert_take_drop.
Qed.

Lemma Forall_filter_keep (Q P : A → Prop) `{∀ x, Decision (P x)} l :
  Forall Q l → Forall Q (filter P l).
Proof.
  rewrite !Forall_forall. intros HQ x [_ Hx]%list_elem_of_filter. auto.
Qed.

Lemma Forall_insertAt (Q : A → Prop) k x l :
  Q x → Forall Q l → Forall Q (insertAt k x l).
Proof.
  intros Hx Hl. unfold insertAt. apply Forall_app. split.
  - by apply Forall_take.
  - apply Forall_cons. split; [done|]. by apply Forall_drop.
Qed.

End Arrays.

Section Find.
Context {A : Type} (P : A → Prop) `{∀ x, Decision (P x)}.
Implicit Types (l : list A) (x y : A) (i k : nat).

(** Writing back a mutated object leaves it where [find] found it, as long
    as the mutation keeps the searched key. *)
Lemma find_insert_same l i x y :
  list_find P l = Some (i, x) → P y → list_find P (<[i:=y]> l) = Some (i, y).
Proof.
  intros (Hl & HP & Hmin)%list_find_Some Hy.
  apply list_find_Some. split_and!; [|done|].
  - apply list_lookup_insert_eq. by eapply lookup_lt_Some.
  - intros j z Hj Hlt. rewrite list_lookup_insert_ne in Hj by lia. eauto.
Qed.

Lemma find_lookup l i x : list_find P l = Some (i, x) → l !! i = Some x.
Proof. by intros (? & _)%list_find_Some. Qed.

Lemma find_holds l i x : list_find P l = Some (i, x) → P x.
Proof. by intros (_ & ? & _)%list_find_Some. Qed.

(** An array without a match passes [filter] on the negated test whole. *)
Lemma filter_no_match l : list_find P l = None → filter (λ x, ¬ P x) l = l.
Proof.
  intros Hn%list_find_None. induction Hn as [|x l Hx _ IH]; [done|].
  rewrite filter_cons_True by done. by rewrite IH.
Qed.

(** Where [x] is the only element passing the test, it is found at the
    place it was inserted. *)
Lemma find_insertAt l k x :
  (k ≤ length l)%nat → P x → Forall (λ y, ¬ P y) l →
  list_find P (insertAt k x l) = Some (k, x).
Proof.
  intros Hk Hx Hl. apply list_find_Some. split_and!; [by apply insertAt_lookup|done|].
  intros j y Hj Hlt. unfold insertAt in Hj.
  rewrite lookup_app_l in Hj by (rewrite length_take; lia).
  apply lookup_take_Some in Hj as [Hj _].
  by eapply Forall_lookup_1 in Hl.
Qed.

End Find.

(** With distinct keys, the other elements do not carry the key of the one
    at [i]. *)
Lemma NoDup_delete_ne {A B} (f : A → B) (l : list A) (i : nat) (x : A) :
  NoDup (f <$> l) → l !! i = Some x → Forall (λ y, f y ≠ f x) (delete i l).
Proof.
  intros Hnd Hi.
  rewrite <- (take_drop_middle _ _ _ Hi) in Hnd.
  rewrite fmap_app, fmap_cons in Hnd.
  apply NoDup_app in Hnd as (_ & Hl & Hr).
  apply NoDup_cons in Hr as [Hx _].
  rewrite delete_take_drop. apply Forall_app. split; apply Forall_forall; intros y Hy Heq.
  - apply (Hl (f y)); [by apply list_elem_of_fmap_2|]. rewrite Heq. left.
  - apply Hx. rewrite <- Heq. by apply list_elem_of_fmap_2.
Qed.

(** An id that no element carries is not found. *)
Lemma find_absent {A B} `{EqDecision B} (f : A → B) (key : B) (l : list A) :
  key ∉ f <$> l → list_find (λ x, f x = key) l = None.
Proof.
  intros Hn. apply list_find_None, Forall_forall. intros x Hx Heq.
  apply Hn. rewrite <- Heq. by apply list_elem_of_fmap_2.
Qed.

Lemma Workspace_set_pages_same ws : Workspace.set_pages (Workspace.pages ws) ws = ws.
Proof. by destruct ws. Qed.

Lemma Page_set_columns_same p : Page.set_columns (Page.columns p) p = p.
Proof. by destruct p as [? ? ? []]. Qed.

Lemma Column_set_cards_same c : Column.set_cards (Column.cards c) c = c.
Proof. by destruct c. Qed.

(** Overwriting one element of an array changes the concatenation of what
    [g] yields per element by what [g] yields for that element. *)
Lemma bind_insert_Permutation {A B} (g : A → list B) (l : list A) i x y more :
  l !! i = Some x → g x ≡ₚ more ++ g y →
  l ≫= g ≡ₚ more ++ (<[i:=y]> l ≫= g).
Proof.
  intros Hi Hg. pose proof (lookup_lt_Some _ _ _ Hi).
  rewrite insert_take_drop by done.
  rewrite <- (take_drop_middle l i x Hi) at 1.
  rewrite !bind_app, !bind_cons, Hg.
  rewrite !(assoc (++)). f_equiv. f_equiv. apply (comm (++)).
Qed.

Lemma bind_insert_Permutation_r {A B} (g : A → list B) (l : list A) i x y more :
  l !! i = Some x → g y ≡ₚ more ++ g x →
  <[i:=y]> l ≫= g ≡ₚ more ++ (l ≫= g).
Proof.
  intros Hi Hg. pose proof (lookup_lt_Some _ _ _ Hi).
  rewrite insert_take_drop by done.
  rewrite <- (take_drop_middle l i x Hi) at 3.
  rewrite !bind_app, !bind_cons, Hg.
  rewrite !(assoc (++)). f_equiv. f_equiv. apply (comm (++)).
Qed.

(** Unfolding one store action applied to a state and a world. *)
Ltac store_unfold :=
  unfold mbind, M_bind, mret, M_ret, newDate, mathRandom; simpl.

(** ** Properties of the store *)

Section StoreProperties.
Variable clock : nat → Z.
Variable random : nat → string.

Implicit Types (st : WorkspaceState) (w : World) (page : Page.t) (col : Column.t).

(** *** [moveColumn] *)

(** The state after [moveColumn] on an existing page and column. *)
Lemma moveColumn_found pageId columnId targetIndex st w pi page ci col :
  findPage pageId (Workspace.pages (workspace st)) = Some (pi, page) →
  findColumnIn columnId (Page.columns page) = Some (ci, col) →
  moveColumn clock pageId columnId targetIndex st w =
    (set_workspace
       (Workspace.set_updatedAt (clock (S (ticks w)))
          (Workspace.set_pages
             (<[pi := Page.set_updatedAt (clock (ticks w))
                        (Page.set_columns
                           (insertAt
                              (splice_start (length (delete ci (Page.columns page)))
                                 targetIndex)
                              col (delete ci (Page.columns page))) page)]>
                (Workspace.pages (workspace st)))
             (workspace st))) st,
     mkWorld (S (S (ticks w))) (draws w)).
Proof.
  intros Hp Hc. unfold moveColumn. rewrite Hp, Hc. store_unfold.
  by rewrite (reorder_insertAt _ _ col) by by eapply find_lookup.
Qed.

(** C10. [moveColumn] on an existing page and column only permutes the
    page's columns: for every [targetIndex] (in particular every
    [targetIndex ≥ 0]) the column sequence afterwards is a permutation of
    the one before, and when [targetIndex] is at least the length of the
    sequence after the removal, the moved column is the last one. *)
Theorem moveColumn_permutes pageId columnId targetIndex st w pi page ci col :
  findPage pageId (Workspace.pages (workspace st)) = Some (pi, page) →
  findColumnIn columnId (Page.columns page) = Some (ci, col) →
  ∃ page',
    findPage pageId
      (Workspace.pages (workspace (moveColumn clock pageId columnId targetIndex st w).1))
      = Some (pi, page')
    ∧ Page.columns page' ≡ₚ Page.columns page
    ∧ (Z.of_nat (length (Page.columns page) - 1) ≤ targetIndex →
       last (Page.columns page') = Some col).
Proof.
  intros Hp Hc. rewrite (moveColumn_found _ _ _ _ _ _ _ _ _ Hp Hc). simpl.
  eexists. split_and!.
  - eapply find_insert_same; [done|]. simpl. by eapply find_holds in Hp.
  - unfold Page.columns at 1. simpl. etrans; [apply insertAt_Permutation|].
    symmetry. apply delete_Permutation. by eapply find_lookup.
  - unfold Page.columns at 2. simpl. intros Hge.
    pose proof (find_lookup _ _ _ _ Hc) as Hl.
    pose proof (lookup_lt_Some _ _ _ Hl).
    rewrite splice_start_ge by (rewrite length_delete by eauto; lia).
    rewrite insertAt_end. apply last_snoc.
Qed.

(** C5. On a page whose column ids are distinct (the data model's
    invariant) and that holds a column with id [c],
    [moveColumn(pageId, c, i)] followed by [moveColumn(pageId, c, j)]
    leaves every page with the column sequence that the single call
    [moveColumn(pageId, c, j)] gives on the original state; [j] is read
    against the sequence with the moved column removed. This holds for
    all integers [i] and [j], the in-range ones in particular. *)
Theorem moveColumn_twice pageId c i j st w pi page ci col :
  findPage pageId (Workspace.pages (workspace st)) = Some (pi, page) →
  findColumnIn c (Page.columns page) = Some (ci, col) →
  NoDup (Column.id <$> Page.columns page) →
  Page.columns <$>
    Workspace.pages (workspace
      ((moveColumn clock pageId c i st ≫= moveColumn clock pageId c j) w).1)
  = Page.columns <$>
    Workspace.pages (workspace (moveColumn clock pageId c j st w).1).
Proof.
  intros Hp Hc Hnd.
  pose proof (find_lookup _ _ _ _ Hc) as Hl.
  pose proof (find_holds _ _ _ _ Hc) as Hid. simpl in Hid.
  pose proof (find_holds _ _ _ _ Hp) as Hpid. simpl in Hpid.
  set (rest := delete ci (Page.columns page)).
  assert (Hrest : Forall (λ y, ¬ Column.id y = c) rest).
  { rewrite <- Hid. by apply NoDup_delete_ne. }
  unfold mbind at 1, M_bind at 1.
  rewrite (moveColumn_found _ _ i _ _ _ _ _ _ Hp Hc). fold rest.
  set (k := splice_start (length rest) i).
  assert (Hk : (k ≤ length rest)%nat) by apply splice_start_le.
  erewrite moveColumn_found; cycle 1.
  { simpl. eapply find_insert_same; [exact Hp|]. done. }
  { unfold Page.columns at 1. simpl. by apply find_insertAt. }
  rewrite (moveColumn_found _ _ j _ _ _ _ _ _ Hp Hc). fold rest. simpl.
  rewrite list_insert_insert_eq, !list_fmap_insert.
  unfold Page.columns. simpl.
  by rewrite !delete_insertAt.
Qed.

(** *** [moveCard] *)

(** The first phase on a source that resolves. *)
Lemma takeCard_found source pages w pi page ci col k card :
  findPage (src_pageId source) pages = Some (pi, page) →
  findColumnIn (src_columnId source) (Page.columns page) = Some (ci, col) →
  findCardIn (src_cardId source) (Column.cards col) = Some (k, card) →
  takeCard clock source pages w =
    ((Some card,
      <[pi := Page.set_updatedAt (clock (S (ticks w)))
                (Page.set_columns
                   (<[ci := Column.set_updatedAt (clock (ticks w))
                              (Column.set_cards (delete k (Column.cards col)) col)]>
                      (Page.columns page)) page)]> pages),
     mkWorld (S (S (ticks w))) (draws w)).
Proof.
  intros Hp Hc Hk. unfold takeCard. rewrite Hp, Hc, Hk.
  rewrite (splice_remove _ _ card) by by eapply find_lookup.
  by store_unfold.
Qed.

(** The second phase on a target that resolves. *)
Lemma placeCard_found card target pages w pi page ci col :
  findPage (tgt_pageId target) pages = Some (pi, page) →
  findColumnIn (tgt_columnId target) (Page.columns page) = Some (ci, col) →
  placeCard clock card target pages w =
    (<[pi := Page.set_updatedAt (clock (S (S (ticks w))))
               (Page.set_columns
                  (<[ci := Column.set_updatedAt (clock (S (ticks w)))
                             (Column.set_cards
                                (insertAt
                                   (splice_start (length (Column.cards col))
                                      (default (Z.of_nat (length (Column.cards col)))
                                         (tgt_index target)))
                                   (Card.set_updatedAt (clock (ticks w))
                                      (Card.set_columnId (tgt_columnId target) card))
                                   (Column.cards col)) col)]>
                     (Page.columns page)) page)]> pages,
     mkWorld (S (S (S (ticks w)))) (draws w)).
Proof.
  intros Hp Hc. unfold placeCard. rewrite Hp, Hc.
  unfold mbind, M_bind, mret, M_ret, newDate. by rewrite splice_insert.
Qed.

(** What the first phase captures is what it removes: the cards before are
    the captured card and the cards after. *)
Lemma takeCard_cards source pages w :
  match (takeCard clock source pages w).1 with
  | (Some card, pages1) => allCards pages ≡ₚ card :: allCards pages1
  | (None, pages1) => pages1 = pages
  end.
Proof.
  unfold takeCard.
  destruct (findPage _ pages) as [[pi page]|] eqn:Hp; [|done].
  destruct (findColumnIn _ (Page.columns page)) as [[ci col]|] eqn:Hc; [|done].
  destruct (findCardIn _ (Column.cards col)) as [[k card]|] eqn:Hk; [|done].
  rewrite (splice_remove _ _ card) by by eapply find_lookup.
  store_unfold. unfold allCards.
  apply (bind_insert_Permutation _ _ _ page _ [card]); [by eapply find_lookup|].
  unfold Page.columns at 2. simpl.
  apply (bind_insert_Permutation _ _ _ col _ [card]); [by eapply find_lookup|].
  simpl. apply delete_Permutation. by eapply find_lookup.
Qed.

(** The second phase adds the card, with its id, when the target resolves,
    and does nothing otherwise. *)
Lemma placeCard_cards card target pages w :
  match findPage (tgt_pageId target) pages with
  | Some (_, page) =>
      match findColumnIn (tgt_columnId target) (Page.columns page) with
      | Some _ =>
          ∃ card', Card.id card' = Card.id card
            ∧ Card.columnId card' = tgt_columnId target
            ∧ allCards (placeCard clock card target pages w).1 ≡ₚ card' :: allCards pages
      | None => (placeCard clock card target pages w).1 = pages
      end
  | None => (placeCard clock card target pages w).1 = pages
  end.
Proof.
  destruct (findPage _ pages) as [[pi page]|] eqn:Hp;
    [|by unfold placeCard; rewrite Hp].
  destruct (findColumnIn _ (Page.columns page)) as [[ci col]|] eqn:Hc;
    [|by unfold placeCard; rewrite Hp, Hc].
  rewrite (placeCard_found _ _ _ _ _ _ _ _ Hp Hc). simpl.
  eexists. split_and!; [| |unfold allCards;
    apply (bind_insert_Permutation_r _ _ _ page _ [_]); [by eapply find_lookup|];
    unfold Page.columns at 1; simpl;
    apply (bind_insert_Permutation_r _ _ _ col _ [_]); [by eapply find_lookup|];
    simpl; apply insertAt_Permutation]; done.
Qed.

(** [moveCard] and the cards of the workspace: nothing moves when the
    source does not resolve; the card ids are kept when source and target
    resolve; the captured card is dropped when only the source resolves. *)
Lemma moveCard_cardIds source target st w :
  let ws := workspace st in
  let ws' := workspace (moveCard clock source target st w).1 in
  match (takeCard clock source (Workspace.pages ws) w).1 with
  | (None, _) => Workspace.pages ws' = Workspace.pages ws
  | (Some card, pages1) =>
      match findPage (tgt_pageId target) pages1 with
      | Some (_, page) =>
          match findColumnIn (tgt_columnId target) (Page.columns page) with
          | Some _ => cardIds ws' ≡ₚ cardIds ws
          | None => Card.id card :: cardIds ws' ≡ₚ cardIds ws
          end
      | None => Card.id card :: cardIds ws' ≡ₚ cardIds ws
      end
  end.
Proof.
  intros ws ws'. subst ws ws'. unfold moveCard, mbind, M_bind.
  pose proof (takeCard_cards source (Workspace.pages (workspace st)) w) as Htake.
  destruct (takeCard clock source _ w) as [[[card|] pages1] w1]; simpl in *.
  - pose proof (placeCard_cards card target pages1 w1) as Hplace.
    destruct (placeCard clock card target pages1 w1) as [pages2 w2]. simpl in *.
    unfold cardIds. simpl.
    destruct (findPage _ pages1) as [[pi page]|];
      [|by subst; rewrite Htake, fmap_cons].
    destruct (findColumnIn _ (Page.columns page)) as [[ci col]|];
      [|by subst; rewrite Htake, fmap_cons].
    destruct Hplace as (card' & Hid & _ & Hperm).
    by rewrite Htake, Hperm, !fmap_cons, Hid.
  - by subst.
Qed.

(** [moveCard] never touches the selection. *)
Lemma moveCard_selected source target st w :
  selectedCardId (moveCard clock source target st w).1 = selectedCardId st.
Proof.
  unfold moveCard. unfold mbind, M_bind.
  destruct (takeCard clock source _ w) as [[[card|] pages1] w1]; simpl.
  - by destruct (placeCard clock card target pages1 w1).
  - done.
Qed.

(** C6 (amended). Identity move. Let the store's lookups resolve
    [(p, c, cardId)] to the card at index [k] of column [c] on page [p]
    (it is the first card of the column with that id), and let that card
    carry [columnId = c] (referential integrity). Then
    [moveCard({p, c, cardId}, {p, c, index: k})] leaves the workspace
    equal to the one before up to [updatedAt] stamps: same pages, same
    column order, same card order, same fields other than [updatedAt];
    the selection is untouched. *)
Theorem moveCard_identity pageId columnId cardId st w pi page ci col k card :
  findPage pageId (Workspace.pages (workspace st)) = Some (pi, page) →
  findColumnIn columnId (Page.columns page) = Some (ci, col) →
  findCardIn cardId (Column.cards col) = Some (k, card) →
  Card.columnId card = columnId →
  let st' :=
    (moveCard clock (mkSource pageId columnId cardId)
       (mkTarget pageId columnId (Some (Z.of_nat k))) st w).1 in
  blankStamps (workspace st') = blankStamps (workspace st)
  ∧ selectedCardId st' = selectedCardId st.
Proof.
  intros Hp Hc Hk Hfk st'. split; [|apply moveCard_selected]. subst st'.
  pose proof (find_lookup _ _ _ _ Hp) as Hlp.
  pose proof (find_lookup _ _ _ _ Hc) as Hlc.
  pose proof (find_lookup _ _ _ _ Hk) as Hlk.
  pose proof (lookup_lt_Some _ _ _ Hlk) as Hlt.
  pose proof (find_holds _ _ _ _ Hp) as Hpid. simpl in Hpid.
  pose proof (find_holds _ _ _ _ Hc) as Hcid. simpl in Hcid.
  unfold moveCard. unfold mbind at 1, M_bind at 1.
  erewrite takeCard_found by (simpl; eauto).
  unfold mbind at 1, M_bind at 1.
  erewrite placeCard_found; cycle 1.
  { simpl. eapply find_insert_same; [exact Hp|]. done. }
  { unfold Page.columns at 1. simpl. eapply find_insert_same; [exact Hc|]. done. }
  store_unfold.
  rewrite length_delete by eauto.
  rewrite splice_start_of_nat by lia.
  rewrite (insertAt_delete_insert _ card) by done.
  rewrite !list_insert_insert_eq.
  destruct st as [[wtitle wpages wactive wcreated wupdated] sel].
  unfold blankStamps, Workspace.set_updatedAt, Workspace.set_pages. simpl in *.
  f_equal. rewrite list_fmap_insert.
  apply list_insert_id. rewrite list_lookup_fmap, Hlp. simpl. f_equal.
  destruct page as [pid ptitle picon [pcols] pcreated pupdated].
  unfold blankPage, Page.set_updatedAt, Page.set_columns, Page.columns in *.
  simpl in *. f_equal. f_equal.
  rewrite !list_insert_insert_eq, list_fmap_insert.
  symmetry. apply list_insert_id. rewrite list_lookup_fmap, Hlc. simpl. f_equal.
  destruct col as [cid ctitle ccards ccreated cupdated].
  unfold blankColumn, Column.set_updatedAt, Column.set_cards. simpl in *.
  f_equal. rewrite list_fmap_insert.
  symmetry. apply list_insert_id. rewrite list_lookup_fmap, Hlk. simpl. f_equal.
  destruct card. unfold blankCard, Card.set_updatedAt, Card.set_columnId.
  simpl in *. by subst.
Qed.

(** *** [updateCard] *)

(** The state after [updateCard] on an address that resolves. *)
Lemma updateCard_found pageId columnId cardId updates st w pi page ci col k card :
  findPage pageId (Workspace.pages (workspace st)) = Some (pi, page) →
  findColumnIn columnId (Page.columns page) = Some (ci, col) →
  findCardIn cardId (Column.cards col) = Some (k, card) →
  updateCard clock pageId columnId cardId updates st w =
    (set_workspace
       (Workspace.set_updatedAt (clock (3 + ticks w))
          (Workspace.set_pages
             (<[pi := Page.set_updatedAt (clock (2 + ticks w))
                (Page.set_columns
                   (<[ci := Column.set_updatedAt (clock (1 + ticks w))
                      (Column.set_cards
                         (<[k := assign card updates (clock (ticks w))]>
                            (Column.cards col)) col)]>
                      (Page.columns page)) page)]>
                (Workspace.pages (workspace st)))
             (workspace st))) st,
     mkWorld (4 + ticks w) (draws w)).
Proof. intros Hp Hc Hk. unfold updateCard. by rewrite Hp, Hc, Hk. Qed.

(** C7. Timestamp cascade. Let [updateCard] address an existing page,
    column and card, on a clock that does not run backwards and in a state
    whose stamps along the addressed path are not in the future. After the
    call the [updatedAt] of the card, of its column, of its page and of the
    workspace are the four successive clock readings of the call, each
    later than or equal to its value before; the [createdAt] of the
    column, the page and the workspace are as before, and the card's
    [createdAt] is what the merge of [updates] gives (unchanged when
    [updates] carries none): the cascade itself writes no [createdAt]. *)
Theorem updateCard_cascade pageId columnId cardId updates st w pi page ci col k card :
  findPage pageId (Workspace.pages (workspace st)) = Some (pi, page) →
  findColumnIn columnId (Page.columns page) = Some (ci, col) →
  findCardIn cardId (Column.cards col) = Some (k, card) →
  (∀ m n, (m ≤ n)%nat → clock m ≤ clock n) →
  Card.updatedAt card ≤ clock (ticks w) →
  Column.updatedAt col ≤ clock (ticks w) →
  Page.updatedAt page ≤ clock (ticks w) →
  Workspace.updatedAt (workspace st) ≤ clock (ticks w) →
  let ws' := workspace (updateCard clock pageId columnId cardId updates st w).1 in
  ∃ page' col' card',
    Workspace.pages ws' !! pi = Some page'
    ∧ Page.columns page' !! ci = Some col'
    ∧ Column.cards col' !! k = Some card'
    ∧ (Card.updatedAt card' = clock (ticks w)
       ∧ Column.updatedAt col' = clock (1 + ticks w)
       ∧ Page.updatedAt page' = clock (2 + ticks w)
       ∧ Workspace.updatedAt ws' = clock (3 + ticks w))
    ∧ (Card.updatedAt card ≤ Card.updatedAt card'
       ∧ Column.updatedAt col ≤ Column.updatedAt col'
       ∧ Page.updatedAt page ≤ Page.updatedAt page'
       ∧ Workspace.updatedAt (workspace st) ≤ Workspace.updatedAt ws')
    ∧ (Card.createdAt card' =
         default (Card.createdAt card) (PartialCard.createdAt updates)
       ∧ Column.createdAt col' = Column.createdAt col
       ∧ Page.createdAt page' = Page.createdAt page
       ∧ Workspace.createdAt ws' = Workspace.createdAt (workspace st)).
Proof.
  intros Hp Hc Hk Hmono Hcard Hcol Hpage Hws ws'. subst ws'.
  rewrite (updateCard_found _ _ _ _ _ _ _ _ _ _ _ _ Hp Hc Hk). simpl.
  pose proof (lookup_lt_Some _ _ _ (find_lookup _ _ _ _ Hp)).
  pose proof (lookup_lt_Some _ _ _ (find_lookup _ _ _ _ Hc)).
  pose proof (lookup_lt_Some _ _ _ (find_lookup _ _ _ _ Hk)).
  pose proof (Hmono (ticks w) (S (ticks w))).
  pose proof (Hmono (ticks w) (S (S (ticks w)))).
  pose proof (Hmono (ticks w) (S (S (S (ticks w))))).
  eexists _, _, _. split_and!.
  - by apply list_lookup_insert_eq.
  - unfold Page.columns at 1. simpl. by apply list_lookup_insert_eq.
  - simpl. by apply list_lookup_insert_eq.
  - done.
  - done.
  - done.
  - done.
  - simpl. lia.
  - simpl. lia.
  - simpl. lia.
  - lia.
  - done.
  - done.
  - done.
  - done.
Qed.

(** *** [removePage] *)

Lemma removePage_state pageId st w :
  removePage clock pageId st w =
    (set_workspace
       (Workspace.set_updatedAt (clock (ticks w))
          (Workspace.set_activePageId
             (if decide (Workspace.activePageId (workspace st) = Some pageId)
              then firstPageId
                     (filter (λ p, Page.id p ≠ pageId) (Workspace.pages (workspace st)))
              else Workspace.activePageId (workspace st))
             (Workspace.set_pages
                (filter (λ p, Page.id p ≠ pageId) (Workspace.pages (workspace st)))
                (workspace st)))) st,
     mkWorld (S (ticks w)) (draws w)).
Proof. done. Qed.

Lemma firstPageId_valid pages a : firstPageId pages = Some a → a ∈ Page.id <$> pages.
Proof.
  unfold firstPageId. destruct pages as [|p pages]; simpl; [done|].
  case_decide; [done|]. intros [= <-]. left.
Qed.

Lemma firstPageId_head pages :
  Forall (λ p, Page.id p ≠ "") pages → firstPageId pages = Page.id <$> head pages.
Proof.
  unfold firstPageId. destruct pages as [|p pages]; simpl; [done|].
  intros [Hp _]%Forall_cons. by case_decide.
Qed.

(** C4. In a workspace whose [activePageId] names a page present in
    [pages] (page ids being non-empty strings, as every generated id is),
    [removePage(activePageId)] makes [activePageId] the id of the first
    remaining page, or null when none remains; and after any [removePage]
    call from such a state, [activePageId] is null or the id of a page
    present in [pages]. *)
Theorem removePage_active a st w :
  Workspace.activePageId (workspace st) = Some a →
  a ∈ Page.id <$> Workspace.pages (workspace st) →
  Forall (λ p, Page.id p ≠ "") (Workspace.pages (workspace st)) →
  (let ws' := workspace (removePage clock a st w).1 in
   Workspace.pages ws' = filter (λ p, Page.id p ≠ a) (Workspace.pages (workspace st))
   ∧ Workspace.activePageId ws' = Page.id <$> head (Workspace.pages ws'))
  ∧ (∀ pageId, activePageValid (workspace (removePage clock pageId st w).1)).
Proof.
  intros Hact Hin Hne. split.
  - rewrite removePage_state. simpl. split; [done|].
    rewrite decide_True by done.
    apply firstPageId_head. by apply Forall_filter_keep.
  - intros pageId. rewrite removePage_state. unfold activePageValid. simpl.
    case_decide as Hd.
    + destruct (firstPageId _) as [b|] eqn:Hb; [|done].
      by apply firstPageId_valid.
    + rewrite Hact. apply list_elem_of_fmap in Hin as (p & -> & Hp).
      apply list_elem_of_fmap_2, list_elem_of_filter. split; [|done].
      intros Heq. apply Hd. by rewrite Hact, Heq.
Qed.

(** *** Removing what is not there *)

(** C3 (amended). Removing an absent id leaves the pages, columns and
    cards as they are, every nested [updatedAt] included, but is not a
    no-op on the whole state:
    - [removePage] with a [pageId] no page carries refreshes the
      workspace's [updatedAt], and resets [activePageId] to the first page
      (or null) when [activePageId] was that absent id;
    - [removeColumn] changes nothing when the page is absent; when the
      page exists and the column does not, it refreshes the [updatedAt] of
      the page and of the workspace;
    - [removeCard] changes nothing when the page or the column is absent;
      when both exist and the card does not, it refreshes the [updatedAt]
      of the column, the page and the workspace, and clears the selection
      if the selected card id is the absent one. *)
Theorem remove_absent st w :
  let ws := workspace st in
  (∀ pageId,
      pageId ∉ Page.id <$> Workspace.pages ws →
      removePage clock pageId st w =
        (set_workspace
           (Workspace.set_updatedAt (clock (ticks w))
              (Workspace.set_activePageId
                 (if decide (Workspace.activePageId ws = Some pageId)
                  then firstPageId (Workspace.pages ws)
                  else Workspace.activePageId ws) ws)) st,
         mkWorld (S (ticks w)) (draws w)))
  ∧ (∀ pageId columnId,
      (pageId ∉ Page.id <$> Workspace.pages ws →
       removeColumn clock pageId columnId st w = (st, w))
      ∧ (∀ pi page,
          findPage pageId (Workspace.pages ws) = Some (pi, page) →
          columnId ∉ Column.id <$> Page.columns page →
          removeColumn clock pageId columnId st w =
            (set_workspace
               (Workspace.set_updatedAt (clock (1 + ticks w))
                  (Workspace.set_pages
                     (<[pi := Page.set_updatedAt (clock (ticks w)) page]>
                        (Workspace.pages ws)) ws)) st,
             mkWorld (2 + ticks w) (draws w))))
  ∧ (∀ pageId columnId cardId,
      (pageId ∉ Page.id <$> Workspace.pages ws →
       removeCard clock pageId columnId cardId st w = (st, w))
      ∧ (∀ pi page,
          findPage pageId (Workspace.pages ws) = Some (pi, page) →
          columnId ∉ Column.id <$> Page.columns page →
          removeCard clock pageId columnId cardId st w = (st, w))
      ∧ (∀ pi page ci col,
          findPage pageId (Workspace.pages ws) = Some (pi, page) →
          findColumnIn columnId (Page.columns page) = Some (ci, col) →
          cardId ∉ Card.id <$> Column.cards col →
          removeCard clock pageId columnId cardId st w =
            (mkState
               (Workspace.set_updatedAt (clock (2 + ticks w))
                  (Workspace.set_pages
                     (<[pi := Page.set_updatedAt (clock (1 + ticks w))
                        (Page.set_columns
                           (<[ci := Column.set_updatedAt (clock (ticks w)) col]>
                              (Page.columns page)) page)]>
                        (Workspace.pages ws)) ws))
               (if decide (selectedCardId st = Some cardId) then None
                else selectedCardId st),
             mkWorld (3 + ticks w) (draws w)))).
Proof.
  intros ws. subst ws. split_and!.
  - intros pageId Hn. rewrite removePage_state.
    rewrite (filter_no_match (λ p, Page.id p = pageId)) by by apply find_absent.
    by rewrite Workspace_set_pages_same.
  - intros pageId columnId. split.
    + intros Hn. unfold removeColumn, findPage. by rewrite find_absent.
    + intros pi page Hp Hn. unfold removeColumn. rewrite Hp.
      rewrite (filter_no_match (λ c, Column.id c = columnId)) by by apply find_absent.
      by rewrite Page_set_columns_same.
  - intros pageId columnId cardId. split_and!.
    + intros Hn. unfold removeCard, findPage. by rewrite find_absent.
    + intros pi page Hp Hn. unfold removeCard, findColumnIn. rewrite Hp.
      by rewrite find_absent.
    + intros pi page ci col Hp Hc Hn. unfold removeCard. rewrite Hp, Hc.
      rewrite (filter_no_match (λ c, Card.id c = cardId)) by by apply find_absent.
      by rewrite Column_set_cards_same.
Qed.

(** *** Referential integrity *)

Lemma integrity_page_update pages pi page cols t :
  Forall pageIntegrity pages → Forall columnIntegrity cols →
  Forall pageIntegrity (<[pi := Page.set_updatedAt t (Page.set_columns cols page)]> pages).
Proof. intros Hps Hcols. by apply Forall_insert. Qed.

Lemma integrity_column_update columns ci col cards t :
  Forall columnIntegrity columns →
  Forall (λ c, Card.columnId c = Column.id col) cards →
  Forall columnIntegrity
    (<[ci := Column.set_updatedAt t (Column.set_cards cards col)]> columns).
Proof. intros Hcols Hcards. by apply Forall_insert. Qed.

Lemma integrity_found_page pages pageId pi page :
  Forall pageIntegrity pages → findPage pageId pages = Some (pi, page) →
  Forall columnIntegrity (Page.columns page).
Proof. intros Hps Hp%find_lookup. by eapply Forall_lookup_1 in Hps. Qed.

Lemma integrity_found_column columns columnId ci col :
  Forall columnIntegrity columns → findColumnIn columnId columns = Some (ci, col) →
  Forall (λ c, Card.columnId c = Column.id col) (Column.cards col).
Proof. intros Hcs Hc%find_lookup. by eapply Forall_lookup_1 in Hcs. Qed.

Lemma takeCard_integrity source pages w :
  Forall pageIntegrity pages →
  Forall pageIntegrity (takeCard clock source pages w).1.2.
Proof.
  intros Hps. unfold takeCard.
  destruct (findPage _ pages) as [[pi page]|] eqn:Hp; [|done].
  pose proof (integrity_found_page _ _ _ _ Hps Hp) as Hcols.
  destruct (findColumnIn _ (Page.columns page)) as [[ci col]|] eqn:Hc; [|done].
  pose proof (integrity_found_column _ _ _ _ Hcols Hc) as Hcards.
  destruct (findCardIn _ (Column.cards col)) as [[k card]|] eqn:Hk; [|done].
  rewrite (splice_remove _ _ card) by by eapply find_lookup.
  store_unfold.
  apply integrity_page_update, integrity_column_update; [done..|].
  by apply Forall_delete.
Qed.

Lemma placeCard_integrity card target pages w :
  Forall pageIntegrity pages →
  Forall pageIntegrity (placeCard clock card target pages w).1.
Proof.
  intros Hps. unfold placeCard.
  destruct (findPage _ pages) as [[pi page]|] eqn:Hp; [|done].
  pose proof (integrity_found_page _ _ _ _ Hps Hp) as Hcols.
  destruct (findColumnIn _ (Page.columns page)) as [[ci col]|] eqn:Hc; [|done].
  pose proof (integrity_found_column _ _ _ _ Hcols Hc) as Hcards.
  unfold mbind, M_bind, mret, M_ret, newDate. rewrite splice_insert. simpl.
  apply integrity_page_update, integrity_column_update; [done..|].
  apply Forall_insertAt; [|done]. simpl.
  symmetry. by eapply find_holds in Hc.
Qed.

(** Each action keeps referential integrity, an [updateCard] as long as
    it does not redirect the card's [columnId]. *)
Lemma run_integrity op st w :
  keepsColumnId op →
  referentialIntegrity (workspace st) →
  referentialIntegrity (workspace (run clock random op st w).1).
Proof.
  unfold referentialIntegrity. intros Hop Hps.
  destruct op; simpl.
  - (* setWorkspaceTitle *) done.
  - (* addPage *) apply Forall_app. split; [done|]. by repeat constructor.
  - (* removePage *) by apply Forall_filter_keep.
  - (* renamePage *) unfold renamePage.
    destruct (findPage _ _) as [[pi page]|] eqn:Hp; [|done]. simpl.
    apply Forall_insert; [done|]. by eapply (integrity_found_page _ _ _ page).
  - (* setActivePage *) done.
  - (* updatePageIcon *) unfold updatePageIcon.
    destruct (findPage _ _) as [[pi page]|] eqn:Hp; [|done]. simpl.
    apply Forall_insert; [done|]. by eapply (integrity_found_page _ _ _ page).
  - (* addColumn *) unfold addColumn.
    destruct (findPage _ _) as [[pi page]|] eqn:Hp; [|done]. simpl.
    apply integrity_page_update; [done|]. apply Forall_app. split.
    + by eapply integrity_found_page.
    + by repeat constructor.
  - (* removeColumn *) unfold removeColumn.
    destruct (findPage _ _) as [[pi page]|] eqn:Hp; [|done]. simpl.
    apply integrity_page_update; [done|].
    apply Forall_filter_keep. by eapply integrity_found_page.
  - (* renameColumn *) unfold renameColumn.
    destruct (findPage _ _) as [[pi page]|] eqn:Hp; [|done].
    pose proof (integrity_found_page _ _ _ _ Hps Hp) as Hcols.
    destruct (findColumnIn _ _) as [[ci col]|] eqn:Hc; [|done]. simpl.
    apply integrity_page_update; [done|].
    apply Forall_insert; [done|]. by eapply (integrity_found_column _ _ _ col).
  - (* moveColumn *) unfold moveColumn.
    destruct (findPage _ _) as [[pi page]|] eqn:Hp; [|done].
    pose proof (integrity_found_page _ _ _ _ Hps Hp) as Hcols.
    destruct (findColumnIn _ _) as [[ci col]|] eqn:Hc; [|done].
    rewrite (reorder_insertAt _ _ col) by by eapply find_lookup. simpl.
    apply integrity_page_update; [done|].
    apply Forall_insertAt; [|by apply Forall_delete].
    eapply Forall_lookup_1; [exact Hcols|]. by eapply find_lookup.
  - (* addCard *) unfold addCard.
    destruct (findPage _ _) as [[pi page]|] eqn:Hp; [|done].
    pose proof (integrity_found_page _ _ _ _ Hps Hp) as Hcols.
    destruct (findColumnIn _ _) as [[ci col]|] eqn:Hc; [|done]. simpl.
    apply integrity_page_update, integrity_column_update; [done..|].
    apply Forall_app. split; [by eapply integrity_found_column|].
    repeat constructor. simpl. symmetry. by eapply find_holds in Hc.
  - (* removeCard *) unfold removeCard.
    destruct (findPage _ _) as [[pi page]|] eqn:Hp; [|done].
    pose proof (integrity_found_page _ _ _ _ Hps Hp) as Hcols.
    destruct (findColumnIn _ _) as [[ci col]|] eqn:Hc; [|done]. simpl.
    apply integrity_page_update, integrity_column_update; [done..|].
    apply Forall_filter_keep. by eapply integrity_found_column.
  - (* updateCard *) unfold updateCard.
    destruct (findPage _ _) as [[pi page]|] eqn:Hp; [|done].
    pose proof (integrity_found_page _ _ _ _ Hps Hp) as Hcols.
    destruct (findColumnIn _ _) as [[ci col]|] eqn:Hc; [|done].
    pose proof (integrity_found_column _ _ _ _ Hcols Hc) as Hcards.
    destruct (findCardIn _ _) as [[k card]|] eqn:Hk; [|done]. simpl.
    apply integrity_page_update, integrity_column_update; [done..|].
    apply Forall_insert; [done|]. simpl.
    simpl in Hop. destruct (PartialCard.columnId updates) as [c|]; simpl.
    + rewrite (Hop c eq_refl). symmetry. by eapply find_holds in Hc.
    + eapply (Forall_lookup_1 _ _ k card) in Hcards; [done|]. by eapply find_lookup.
  - (* moveCard *) unfold moveCard, mbind, M_bind.
    pose proof (takeCard_integrity source _ w Hps) as Htake.
    destruct (takeCard clock source _ w) as [[[card|] pages1] w1]; simpl in *.
    + pose proof (placeCard_integrity card target _ w1 Htake) as Hplace.
      by destruct (placeCard clock card target pages1 w1).
    + done.
  - (* setSelectedCardId *) done.
Qed.

Lemma initialState_integrity w :
  referentialIntegrity (workspace (initialState clock random w).1).
Proof. unfold referentialIntegrity. simpl. by repeat constructor. Qed.

(** C2 (amended). Referential integrity holds in every state reachable
    from the store as created by store operations among which no
    [updateCard] call carries in its updates a [columnId] other than the
    id of the column it addresses: every card in a column's sequence has
    that column's id as its [columnId]. *)
Theorem integrity_reachable st w :
  reachable clock random keepsColumnId st w →
  referentialIntegrity (workspace st).
Proof.
  induction 1 as [w0 st w Hinit | op st w st' w' _ IH Hop Hrun].
  - pose proof (initialState_integrity w0) as Hi. by rewrite Hinit in Hi.
  - pose proof (run_integrity op st w Hop IH) as Hr. by rewrite Hrun in Hr.
Qed.

End StoreProperties.

(** ** Doubles: the quotient of two counts *)

Section Doubles.

Lemma digits2_pos_bounds (p : positive) :
  2 ^ (Z.pos (SpecFloat.digits2_pos p) - 1) ≤ Z.pos p < 2 ^ Z.pos (SpecFloat.digits2_pos p).
Proof.
  induction p as [p IH|p IH|]; simpl SpecFloat.digits2_pos.
  - rewrite Pos2Z.inj_succ. change (Z.pos p~1) with (2 * Z.pos p + 1).
    replace (Z.succ (Z.pos (SpecFloat.digits2_pos p)) - 1)
      with (Z.succ (Z.pos (SpecFloat.digits2_pos p) - 1)) by lia.
    rewrite !Z.pow_succ_r by lia.
    generalize dependent (2 ^ (Z.pos (SpecFloat.digits2_pos p) - 1)).
    generalize dependent (2 ^ Z.pos (SpecFloat.digits2_pos p)). lia.
  - rewrite Pos2Z.inj_succ. change (Z.pos p~0) with (2 * Z.pos p).
    replace (Z.succ (Z.pos (SpecFloat.digits2_pos p)) - 1)
      with (Z.succ (Z.pos (SpecFloat.digits2_pos p) - 1)) by lia.
    rewrite !Z.pow_succ_r by lia.
    generalize dependent (2 ^ (Z.pos (SpecFloat.digits2_pos p) - 1)).
    generalize dependent (2 ^ Z.pos (SpecFloat.digits2_pos p)). lia.
  - simpl. lia.
Qed.

Lemma Zdigits2_unique (q k : Z) :
  2 ^ (k - 1) ≤ q < 2 ^ k → 0 < q → SpecFloat.Zdigits2 q = k.
Proof.
  intros Hq Hpos. destruct q as [|p|p]; [lia| |lia]. simpl.
  pose proof (digits2_pos_bounds p) as Hd.
  set (d := Z.pos (SpecFloat.digits2_pos p)) in *.
  assert (0 < d) by (subst d; lia). clearbody d.
  destruct (Z.lt_trichotomy d k) as [Hlt|[Heq|Hgt]]; [|done|].
  - assert (2 ^ d ≤ 2 ^ (k - 1)) by (apply Z.pow_le_mono_r; lia).
    lia.
  - assert (0 ≤ k).
    { destruct (Z.le_gt_cases 0 k); [done|]. rewrite (Z.pow_neg_r 2 k) in Hq by lia. lia. }
    assert (2 ^ k ≤ 2 ^ (d - 1)) by (apply Z.pow_le_mono_r; lia). lia.
Qed.


Lemma fexp_normal (x : Z) : -1021 ≤ x → SpecFloat.fexp 53 1024 x = x - 53.
Proof. unfold SpecFloat.fexp, SpecFloat.emin. lia. Qed.

Lemma new_location_located (den num : Z) :
  0 ≤ num < den → located (SpecFloat.new_location den num) num den.
Proof.
  intros Hnum.
  unfold SpecFloat.new_location, SpecFloat.new_location_even, SpecFloat.new_location_odd.
  destruct (Z.even den) eqn:Heven.
  - destruct (Z.eqb_spec num 0) as [->|Hne]; [done|].
    destruct (Z.compare_spec (2 * num) den); simpl; lia.
  - assert (Hodd : Z.odd den = true) by by rewrite <- Z.negb_even, Heven.
    apply Z.odd_spec in Hodd as [h Hodd].
    destruct (Z.eqb_spec num 0) as [->|Hne]; [done|].
    destruct (Z.compare_spec (2 * num + 1) den); simpl; lia.
Qed.

Lemma round_located (mx : Z) (loc : SpecFloat.location) (num den : Z) :
  0 ≤ num < den → located loc num den →
  mx ≤ SpecFloat.round_nearest_even mx loc ≤ mx + 1
  ∧ 2 * Z.abs (SpecFloat.round_nearest_even mx loc * den - (mx * den + num)) ≤ den.
Proof.
  intros Hnum Hloc. destruct loc as [|[| |]]; simpl in *.
  - lia.
  - destruct (Z.even mx); lia.
  - lia.
  - lia.
Qed.

Lemma record_of_loc (q : Z) (loc : SpecFloat.location) :
  SpecFloat.shr_m (SpecFloat.shr_record_of_loc q loc) = q
  ∧ SpecFloat.loc_of_shr_record (SpecFloat.shr_record_of_loc q loc) = loc.
Proof. by destruct loc as [|[| |]]. Qed.

Lemma shr_fexp_53 (q e : Z) (loc : SpecFloat.location) :
  2 ^ 52 ≤ q < 2 ^ 53 → -1000 ≤ e →
  SpecFloat.shr_fexp 53 1024 q e loc = (SpecFloat.shr_record_of_loc q loc, e).
Proof.
  intros Hq He. unfold SpecFloat.shr_fexp.
  rewrite (Zdigits2_unique q 53) by (simpl; lia).
  rewrite fexp_normal by lia.
  by replace (53 + e - 53 - e) with 0 by lia.
Qed.

Lemma shr_fexp_54 (q e : Z) (loc : SpecFloat.location) :
  2 ^ 53 ≤ q < 2 ^ 54 → -1000 ≤ e →
  SpecFloat.shr_fexp 53 1024 q e loc
  = (SpecFloat.shr_1 (SpecFloat.shr_record_of_loc q loc), e + 1).
Proof.
  intros Hq He. unfold SpecFloat.shr_fexp.
  rewrite (Zdigits2_unique q 54) by (simpl; lia).
  rewrite fexp_normal by lia.
  by replace (54 + e - 53 - e) with 1 by lia.
Qed.

Lemma shr_1_located (q : Z) (loc : SpecFloat.location) (num den : Z) :
  2 ≤ q → 0 ≤ num < den → located loc num den →
  ∃ h bit,
    q = 2 * h + bit ∧ 0 ≤ bit ≤ 1
    ∧ SpecFloat.shr_m (SpecFloat.shr_1 (SpecFloat.shr_record_of_loc q loc)) = h
    ∧ located
        (SpecFloat.loc_of_shr_record
           (SpecFloat.shr_1 (SpecFloat.shr_record_of_loc q loc)))
        (bit * den + num) (2 * den).
Proof.
  intros Hq Hnum Hloc.
  destruct q as [|p|p]; [lia| |lia].
  destruct p as [p|p|]; [| |lia].
  - exists (Z.pos p), 1. destruct loc as [|[| |]]; simpl in *; lia.
  - exists (Z.pos p), 0. destruct loc as [|[| |]]; simpl in *; lia.
Qed.

Lemma shr_fexp_round (r e : Z) :
  2 ^ 52 ≤ r ≤ 2 ^ 53 → -1000 ≤ e →
  ∃ m k,
    SpecFloat.shr_fexp 53 1024 r e SpecFloat.loc_Exact
    = (SpecFloat.Build_shr_record (Z.pos m) false false, e + k)
    ∧ (k = 0 ∨ k = 1) ∧ 2 ^ 52 ≤ Z.pos m < 2 ^ 53 ∧ Z.pos m * 2 ^ k = r.
Proof.
  intros Hr He. destruct (decide (r = 2 ^ 53)) as [->|Hne].
  - exists (2 ^ 52)%positive, 1. rewrite shr_fexp_54 by (simpl; lia).
    split_and!; [done|by right|simpl; lia|simpl; lia|done].
  - destruct r as [|m|m]; [simpl in Hr; lia| |lia].
    exists m, 0. rewrite shr_fexp_53 by lia.
    split_and!; [by rewrite Z.add_0_r|by left|lia|lia|simpl; lia].
Qed.

(** Rounding a quotient: [q + num / den] in units of [2 ^ e], with [q] of
    53 or 54 bits, rounds to a normal double within half a unit in its
    last place. *)
Lemma binary_round_aux_quotient (q e num den : Z) :
  2 ^ 52 ≤ q < 2 ^ 54 → -1000 ≤ e ≤ 900 → 0 ≤ num < den →
  ∃ m k,
    SpecFloat.binary_round_aux 53 1024 false q e (SpecFloat.new_location den num)
    = SpecFloat.S754_finite false m (e + k)
    ∧ 0 ≤ k ≤ 2 ∧ 2 ^ 52 ≤ Z.pos m < 2 ^ 53
    ∧ 2 * Z.abs (Z.pos m * 2 ^ k * den - (q * den + num)) ≤ 2 ^ k * den.
Proof.
  intros Hq He Hnum.
  pose proof (new_location_located den num Hnum) as Hloc.
  set (loc := SpecFloat.new_location den num) in *. clearbody loc.
  unfold SpecFloat.binary_round_aux.
  destruct (decide (q < 2 ^ 53)) as [Hsmall|Hbig].
  - rewrite shr_fexp_53 by lia.
    destruct (record_of_loc q loc) as [-> ->].
    destruct (round_located q loc num den Hnum Hloc) as [Hr Herr].
    destruct (shr_fexp_round (SpecFloat.round_nearest_even q loc) e)
      as (m & k & -> & Hk & Hm & Hmk); [lia|lia|].
    exists m, k. simpl SpecFloat.shr_m. cbv beta iota.
    rewrite (proj2 (Z.leb_le _ _)) by lia.
    split_and!; [done|lia|lia|lia|lia|].
    replace (Z.pos m * 2 ^ k * den)
      with (SpecFloat.round_nearest_even q loc * den) by (by rewrite <- Hmk).
    destruct Hk as [->| ->]; simpl; lia.
  - rewrite shr_fexp_54 by lia.
    destruct (shr_1_located q loc num den) as (h & bit & Hqh & Hbit & -> & Hloc');
      [lia|done|done|].
    set (loc' := SpecFloat.loc_of_shr_record _) in *. clearbody loc'.
    destruct (round_located h loc' (bit * den + num) (2 * den)) as [Hr Herr];
      [nia|done|].
    destruct (shr_fexp_round (SpecFloat.round_nearest_even h loc') (e + 1))
      as (m & k & -> & Hk & Hm & Hmk); [lia|lia|].
    exists m, (1 + k). simpl SpecFloat.shr_m. cbv beta iota.
    rewrite (proj2 (Z.leb_le _ _)) by lia.
    split_and!; [by rewrite Z.add_assoc|lia|lia|lia|lia|].
    rewrite Z.pow_add_r by lia. rewrite Z.pow_1_r.
    replace (Z.pos m * (2 * 2 ^ k) * den)
      with (SpecFloat.round_nearest_even h loc' * (2 * den))
      by (rewrite <- Hmk; ring).
    destruct Hk as [->| ->]; simpl; nia.
Qed.


Lemma binary_round_aux_exact (m : positive) (e : Z) :
  2 ^ 52 ≤ Z.pos m < 2 ^ 53 → -1000 ≤ e ≤ 900 →
  SpecFloat.binary_round_aux 53 1024 false (Z.pos m) e SpecFloat.loc_Exact
  = SpecFloat.S754_finite false m e.
Proof.
  intros Hm He. unfold SpecFloat.binary_round_aux.
  rewrite shr_fexp_53 by lia. simpl SpecFloat.shr_record_of_loc. cbv beta iota.
  simpl SpecFloat.shr_m. simpl SpecFloat.loc_of_shr_record.
  simpl SpecFloat.round_nearest_even.
  rewrite shr_fexp_53 by lia. simpl.
  by rewrite (proj2 (Z.leb_le _ _)) by lia.
Qed.

Lemma iter_xO (p x : positive) : Z.pos (Pos.iter xO p x) = Z.pos p * 2 ^ Z.pos x.
Proof.
  apply (Pos.iter_ind positive xO p (λ x r, Z.pos r = Z.pos p * 2 ^ Z.pos x)).
  - change (Z.pos p~0) with (2 * Z.pos p). rewrite Z.pow_1_r. lia.
  - intros y r IH. change (Z.pos r~0) with (2 * Z.pos r).
    rewrite Pos2Z.inj_succ, Z.pow_succ_r, IH by lia. ring.
Qed.

(** An integer below [2 ^ 53] is a double: its mantissa is the integer
    shifted to 53 bits. *)
Lemma numberOfNat_normal (n : nat) :
  0 < Z.of_nat n < 2 ^ 53 →
  ∃ m a,
    numberOfNat n = SpecFloat.S754_finite false m (- a)
    ∧ 0 ≤ a ≤ 52 ∧ 2 ^ 52 ≤ Z.pos m < 2 ^ 53 ∧ Z.pos m = Z.of_nat n * 2 ^ a.
Proof.
  intros Hn. unfold numberOfNat, SpecFloat.binary_normalize.
  destruct (Z.of_nat n) as [|p|p]; [lia| |lia].
  unfold SpecFloat.binary_round.
  pose proof (digits2_pos_bounds p) as Hd.
  set (d := Z.pos (SpecFloat.digits2_pos p)) in *.
  assert (Hd1 : 0 < d) by (subst d; lia). clearbody d.
  assert (Hd53 : d ≤ 53).
  { destruct (Z.le_gt_cases d 53); [done|].
    assert (2 ^ 53 ≤ 2 ^ (d - 1)) by (apply Z.pow_le_mono_r; lia). lia. }
  rewrite fexp_normal by lia. unfold SpecFloat.shl_align.
  destruct (d + 0 - 53 - 0) as [|x|x] eqn:Hx.
  - assert (d = 53) as -> by lia. exists p, 0.
    rewrite binary_round_aux_exact by (simpl in *; lia).
    split_and!; [done|lia|lia|simpl in *; lia|simpl in *; lia|simpl; lia].
  - lia.
  - assert (Hpow : 2 ^ (d - 1) * 2 ^ Z.pos x = 2 ^ 52).
    { rewrite <- Z.pow_add_r by lia. f_equal. lia. }
    assert (Hpow' : 2 ^ d * 2 ^ Z.pos x = 2 ^ 53).
    { rewrite <- Z.pow_add_r by lia. f_equal. lia. }
    assert (0 < 2 ^ Z.pos x) by (apply Z.pow_pos_nonneg; lia).
    exists (Pos.iter xO p x), (Z.pos x).
    rewrite binary_round_aux_exact; rewrite ?iter_xO.
    + split_and!; [f_equal; lia|lia|lia|nia|nia|done].
    + nia.
    + lia.
Qed.

(** The quotient of two normal doubles with small exponents. *)
Lemma divide_normal (m1 m2 : positive) (e1 e2 : Z) :
  2 ^ 52 ≤ Z.pos m1 < 2 ^ 53 → 2 ^ 52 ≤ Z.pos m2 < 2 ^ 53 →
  -52 ≤ e1 ≤ 0 → -52 ≤ e2 ≤ 0 →
  ∃ m k,
    divide (SpecFloat.S754_finite false m1 e1) (SpecFloat.S754_finite false m2 e2)
    = SpecFloat.S754_finite false m (e1 - e2 - 53 + k)
    ∧ 0 ≤ k ≤ 2 ∧ 2 ^ 52 ≤ Z.pos m < 2 ^ 53
    ∧ 2 * Z.abs (Z.pos m * 2 ^ k * Z.pos m2 - Z.pos m1 * 2 ^ 53) ≤ 2 ^ k * Z.pos m2.
Proof.
  intros Hm1 Hm2 He1 He2.
  unfold divide, SpecFloat.SFdiv, SpecFloat.SFdiv_core_binary. cbv zeta.
  rewrite (Zdigits2_unique (Z.pos m1) 53), (Zdigits2_unique (Z.pos m2) 53)
    by (simpl; lia).
  rewrite fexp_normal by lia.
  rewrite Z.min_l by lia.
  replace (e1 - e2 - (53 + e1 - (53 + e2) - 53)) with 53 by lia.
  cbv beta iota. rewrite Z.shiftl_mul_pow2 by lia.
  pose proof (Z_div_mod (Z.pos m1 * 2 ^ 53) (Z.pos m2) ltac:(lia)) as Hdiv.
  destruct (Z.div_eucl (Z.pos m1 * 2 ^ 53) (Z.pos m2)) as [q r].
  destruct Hdiv as [Hdiv Hr].
  destruct (binary_round_aux_quotient q (53 + e1 - (53 + e2) - 53) r (Z.pos m2))
    as (m & k & Heq & Hk & Hm & Herr); [nia|lia|lia|].
  exists m, k. simpl xorb. rewrite Heq.
  split_and!; [f_equal; lia|lia|lia|lia|lia|].
  by replace (Z.pos m1 * 2 ^ 53) with (q * Z.pos m2 + r) by lia.
Qed.

(** The quotient of two counts is the exact ratio rounded to 53 bits: a
    normal double [m * 2 ^ e] within half a unit in the last place of the
    ratio. *)
Lemma divide_accurate (c t : nat) :
  (0 < c ≤ t)%nat → Z.of_nat t < 2 ^ 53 →
  ∃ m e,
    divide (numberOfNat c) (numberOfNat t) = SpecFloat.S754_finite false m e
    ∧ 2 ^ 52 ≤ Z.pos m < 2 ^ 53 ∧ e < 0
    ∧ 2 * Z.abs (Z.pos m * Z.of_nat t - Z.of_nat c * 2 ^ (- e)) ≤ Z.of_nat t.
Proof.
  intros Hc Ht.
  destruct (numberOfNat_normal c) as (m1 & a1 & -> & Ha1 & Hm1 & Hc1); [lia|].
  destruct (numberOfNat_normal t) as (m2 & a2 & -> & Ha2 & Hm2 & Ht2); [lia|].
  assert (Ha : a2 ≤ a1).
  { destruct (Z.le_gt_cases a2 a1); [done|].
    assert (2 * 2 ^ a1 ≤ 2 ^ a2).
    { rewrite <- Z.pow_succ_r by lia. apply Z.pow_le_mono_r; lia. }
    nia. }
  destruct (divide_normal m1 m2 (- a1) (- a2)) as (m & k & -> & Hk & Hm & Herr);
    [lia..|].
  exists m, (- a1 - - a2 - 53 + k). split_and!; [done|lia|lia|lia|].
  set (E := - (- a1 - - a2 - 53 + k)).
  assert (Hsplit : 2 ^ (a1 + 53) = 2 ^ E * 2 ^ (a2 + k)).
  { rewrite <- Z.pow_add_r by (subst E; lia). f_equal. subst E. lia. }
  assert (Hk' : 2 ^ (a2 + k) = 2 ^ a2 * 2 ^ k) by (rewrite Z.pow_add_r; lia).
  assert (Ha1' : 2 ^ (a1 + 53) = 2 ^ a1 * 2 ^ 53) by (rewrite Z.pow_add_r; lia).
  assert (0 < 2 ^ (a2 + k)) by (apply Z.pow_pos_nonneg; lia).
  clearbody E.
  rewrite Hc1, Ht2 in Herr.
  assert (Heq : Z.pos m * 2 ^ k * (Z.of_nat t * 2 ^ a2) - Z.of_nat c * 2 ^ a1 * 2 ^ 53
                = 2 ^ (a2 + k) * (Z.pos m * Z.of_nat t - Z.of_nat c * 2 ^ E)).
  { transitivity (Z.pos m * Z.of_nat t * (2 ^ a2 * 2 ^ k)
                  - Z.of_nat c * (2 ^ a1 * 2 ^ 53)); [ring|].
    rewrite <- Hk', <- Ha1', Hsplit. ring. }
  rewrite Heq in Herr.
  replace (2 ^ k * (Z.of_nat t * 2 ^ a2)) with (2 ^ (a2 + k) * Z.of_nat t) in Herr
    by (rewrite Hk'; ring).
  rewrite Z.abs_mul, (Z.abs_eq (2 ^ (a2 + k))) in Herr by lia.
  nia.
Qed.

(** No count divided by a positive count is the number 0. *)
Lemma divide_zero (t : nat) :
  0 < Z.of_nat t < 2 ^ 53 → divide (numberOfNat 0) (numberOfNat t) = numberOfNat 0.
Proof.
  intros Ht. by destruct (numberOfNat_normal t Ht) as (m & a & -> & _).
Qed.

End Doubles.

(** ** Properties of the analytics summary *)

Section Analytics.

(** A [reduce] that adds a length per element counts the concatenation. *)
Lemma reduce_count {A B} (f : A → nat) (g : A → list B) (l : list A) (n : nat) :
  (∀ x, f x = length (g x)) →
  reduce (λ acc x, acc + f x)%nat n l = (n + length (l ≫= g))%nat.
Proof.
  intros Hf. unfold reduce. revert n.
  induction l as [|x l IH]; intros n.
  - change ([] ≫= g) with (@nil B). simpl. lia.
  - change ((x :: l) ≫= g) with (g x ++ (l ≫= g)). simpl.
    rewrite IH, Hf, length_app. lia.
Qed.

Lemma filter_bind {A B} (P : B → Prop) `{∀ y, Decision (P y)}
    (g : A → list B) (l : list A) :
  filter P (l ≫= g) = l ≫= (λ x, filter P (g x)).
Proof.
  induction l as [|x l IH]; [done|].
  change ((x :: l) ≫= g) with (g x ++ (l ≫= g)).
  by rewrite filter_app, IH.
Qed.

(** C9. The analytics summary of a list of pages: [totalCards] is the
    number of cards in all columns of all pages, [completedCards] the
    number of those with status [done], [completionRate] their quotient
    when [totalCards] is positive and 0 when it is 0, [pagesCount] and
    [columnsCount] the numbers of pages and of columns. The quotient is the
    one [/] computes on doubles: for fewer than [2 ^ 53] cards it is the
    number 0 when no card is done, and otherwise a normal double
    [m * 2 ^ e] (53 bits of mantissa) within half a unit in the last place
    of the exact ratio, [|m * 2 ^ e - completed / total| ≤ 2 ^ e / 2]. *)
Theorem generateAnalytics_correct (pages : list Page.t) :
  let a := generateAnalytics pages in
  let total := length (allCards pages) in
  let completed := length (filter (λ c, Card.status c = done) (allCards pages)) in
  totalCards a = total
  ∧ completedCards a = completed
  ∧ ((0 < total)%nat →
     completionRate a = divide (numberOfNat completed) (numberOfNat total))
  ∧ (total = 0%nat → completionRate a = numberOfNat 0)
  ∧ (completed = 0%nat → Z.of_nat total < 2 ^ 53 → completionRate a = numberOfNat 0)
  ∧ ((0 < completed)%nat → Z.of_nat total < 2 ^ 53 →
     ∃ m e,
       completionRate a = SpecFloat.S754_finite false m e
       ∧ 2 ^ 52 ≤ Z.pos m < 2 ^ 53 ∧ e < 0
       ∧ 2 * Z.abs (Z.pos m * Z.of_nat total - Z.of_nat completed * 2 ^ (- e))
         ≤ Z.of_nat total)
  ∧ pagesCount a = length pages
  ∧ columnsCount a = length (pages ≫= Page.columns).
Proof.
  intros a total completed.
  assert (Ht : totalCards a = total).
  { subst a total. unfold generateAnalytics, allCards. simpl.
    rewrite (reduce_count _ (λ p, Page.columns p ≫= Column.cards)); [done|].
    intros p. by rewrite (reduce_count _ Column.cards). }
  assert (Hc : completedCards a = completed).
  { subst a completed. unfold generateAnalytics, allCards. simpl.
    rewrite (reduce_count _
               (λ p, filter (λ c, Card.status c = done)
                       (Page.columns p ≫= Column.cards))).
    - by rewrite filter_bind.
    - intros p. rewrite filter_bind.
      by rewrite (reduce_count _
                    (λ col, filter (λ c, Card.status c = done) (Column.cards col))). }
  assert (Hle : (completed ≤ total)%nat) by apply length_filter.
  assert (Hpos : (0 < total)%nat →
                 completionRate a = divide (numberOfNat completed) (numberOfNat total)).
  { intros Hpos. rewrite <- Ht, <- Hc. rewrite <- Ht in Hpos.
    subst a. unfold generateAnalytics at 1. simpl.
    by rewrite decide_True by done. }
  assert (Hzero : total = 0%nat → completionRate a = numberOfNat 0).
  { intros Hzero. rewrite <- Ht in Hzero.
    subst a. unfold generateAnalytics. simpl. simpl in Hzero.
    by rewrite decide_False by lia. }
  split_and!; [done|done|done|done| | |done|].
  - intros Hnone Hsmall. destruct (decide (total = 0%nat)) as [Hno|Hsome]; [auto|].
    rewrite Hpos, Hnone by lia. apply divide_zero. lia.
  - intros Hsome Hsmall. rewrite Hpos by lia. apply divide_accurate; lia.
  - subst a. unfold generateAnalytics. simpl.
    by rewrite (reduce_count _ Page.columns).
Qed.

End Analytics.

(** ** Properties of the import path *)

Section ImportProperties.
Variable JSON_parse : string → Result JSON.
Variable typeErrorMessage : Value → string → string.

Implicit Types (data page : JSON) (file : File) (options : ImportOptions).

Lemma truthy_is_Some (v : Value) : truthy v = true → is_Some v.
Proof. destruct v; [eauto|done]. Qed.

#[local] Arguments truthy : simpl never.

(** A page the code accepts has the shape the specification asks for. *)
Lemma validPage_shape page :
  validPage typeErrorMessage page = Ok true → pageShape page = true.
Proof.
  unfold validPage, pageShape.
  destruct page as [| | | | |m]; simpl; try done.
  destruct (truthy (member "id" m)) eqn:Hid; [|done].
  destruct (truthy (member "title" m)) eqn:Htitle; [|done].
  destruct (truthy (member "board" m)) eqn:Hboard; [|done].
  apply truthy_is_Some in Hid, Htitle.
  rewrite !bool_decide_eq_true_2 by done. simpl.
  destruct (member "board" m) as [[| | | | |b]|]; simpl; try done.
  by intros [= Hcols].
Qed.

Lemma every_validPage_shape pages :
  every (validPage typeErrorMessage) pages = Ok true →
  forallb pageShape pages = true.
Proof.
  induction pages as [|page pages IH]; simpl; [done|].
  destruct (validPage typeErrorMessage page) as [[|]|] eqn:Hp; simpl; try done.
  intros Hrest. by rewrite (validPage_shape _ Hp), IH.
Qed.

(** Data the code accepts has the shape the specification asks for, so
    data failing the specification's shape check is never accepted. *)
Lemma validateImportData_shape data :
  validateImportData typeErrorMessage data = Ok true → importShape data = true.
Proof.
  unfold validateImportData, importShape.
  destruct data as [| | | | |m]; simpl; try done;
    try (by destruct (_ : bool)).
  destruct (member "workspace" m) as [[| |q| | |ws]|]; simpl; try done;
    try (by destruct (_ : bool)).
  destruct (member "pages" ws) as [[| | | |pages|]|]; simpl; try done.
  apply every_validPage_shape.
Qed.

(** C8 (amended). [importWorkspace] returns a result for every file and
    never throws: a failure is a result with [success = false], a message
    that starts with [Import failed: ] and zero imported pages, columns
    and cards. In particular, when the file reads and parses to a value
    that fails the minimal shape check (or, more generally, that the code's
    check does not accept), the result is such a failure; its
    message is exactly [Import failed: Invalid import data format] when
    the check returns false, and [Import failed: ] followed by the
    error's message when the check itself throws. The function is given
    the file and the options only: it has no access to the store. *)
Theorem importWorkspace_invalid file options :
  let r := importWorkspace JSON_parse typeErrorMessage file options in
  (ImportResult.success r = true
   ∨ ImportResult.success r = false
     ∧ (∃ msg, ImportResult.message r = "Import failed: " +:+ msg)
     ∧ ImportResult.imported r = ImportResult.mkCounts 0 0 0
     ∧ ImportResult.conflicts r = [])
  ∧ (∀ content data,
      readFile file = Ok content →
      JSON_parse content = Ok data →
      importShape data = false ∨ validateImportData typeErrorMessage data ≠ Ok true →
      ImportResult.success r = false
      ∧ ImportResult.imported r = ImportResult.mkCounts 0 0 0
      ∧ ImportResult.conflicts r = []
      ∧ (validateImportData typeErrorMessage data = Ok false →
         ImportResult.message r = "Import failed: Invalid import data format")
      ∧ (∀ e, validateImportData typeErrorMessage data = Throw e →
         ImportResult.message r = "Import failed: " +:+ exn_message e)).
Proof.
  intros r. subst r. split.
  - unfold importWorkspace.
    destruct (tryImport _ _ file options) as [res|e] eqn:Htry.
    + left. unfold tryImport in Htry.
      destruct (readFile file); simpl in Htry; [|done].
      destruct (JSON_parse _) as [data|]; simpl in Htry; [|done].
      destruct (validateImportData _ data) as [[|]|]; simpl in Htry;
        [|done..].
      unfold processImport in Htry.
      destruct (get _ (Some data) "workspace") as [ws|]; simpl in Htry; [|done].
      destruct (get _ ws "pages") as [pages|]; simpl in Htry; [|done].
      destruct (forEachOf _ pages _ _); simpl in Htry; [|done].
      by injection Htry as <-.
    + right. simpl. eauto.
  - intros content data Hread Hparse Hshape.
    assert (Hinvalid : validateImportData typeErrorMessage data ≠ Ok true).
    { destruct Hshape as [Hshape|]; [|done].
      intros Hv%validateImportData_shape. by rewrite Hv in Hshape. }
    unfold importWorkspace, tryImport. rewrite Hread. simpl. rewrite Hparse. simpl.
    destruct (validateImportData _ data) as [[|]|e] eqn:Hv; simpl.
    + done.
    + split_and!; try done.
    + split_and!; try done. by intros e' [= ->].
Qed.

End ImportProperties.

(** ** The properties at concrete inputs *)

Example created_state :
  Example.created =
    mkState
      (Workspace.mk "My Workspace"
         [Page.mk Example.welcomePage "Welcome" "ðŸ‘‹"
            (Board.mk
               [Column.mk Example.toDo "To Do"
                  [Card.mk Example.welcomeCard "Welcome to your workspace"
                     "This is your first card. You can edit it, move it, or delete it."
                     Example.toDo 1003 1004 ["welcome"; "getting-started"] todo ∅]
                  1005 1006])
            1007 1008]
         (Some Example.welcomePage) 1009 1010)
      None
  ∧ Example.world1 = mkWorld 11 3.
Proof. by vm_compute. Qed.

(** C1. [moveCard] with a source that resolves and a target column that
    does not exist removes the card from its column and inserts it nowhere:
    on the store as created, moving the welcome card to the missing column
    [col-missing] leaves the workspace without any card. *)
Theorem moveCard_missing_target_loses_card :
  let source := mkSource Example.welcomePage Example.toDo Example.welcomeCard in
  let target := mkTarget Example.welcomePage "col-missing" None in
  let st' := (moveCard Example.clock source target Example.created Example.world1).1 in
  cardIds (workspace Example.created) = [Example.welcomeCard]
  ∧ cardIds (workspace st') = []
  ∧ ¬ cardIds (workspace st') ≡ₚ cardIds (workspace Example.created).
Proof.
  split_and!; [by vm_compute..|].
  intros Hperm. apply Permutation_length in Hperm. vm_compute in Hperm. done.
Qed.

(** C2, as stated, fails: one [updateCard] on the store as created that
    carries a foreign [columnId] yields a reachable state in which the
    welcome card's [columnId] is not the id of the column holding it. *)
Lemma integrity_broken_by_updateCard :
  ∃ st w,
    reachable Example.clock Example.random anyOp st w
    ∧ ¬ referentialIntegrity (workspace st).
Proof.
  pose (op := UpdateCard Example.welcomePage Example.toDo Example.welcomeCard
                (PartialCard.mk None None None (Some "col-elsewhere")
                   None None None None None)).
  exists (run Example.clock Example.random op Example.created Example.world1).1,
         (run Example.clock Example.random op Example.created Example.world1).2.
  split.
  - eapply (reachable_step _ _ _ op Example.created Example.world1).
    + by apply (reachable_init _ _ _ Example.world0).
    + done.
    + by vm_compute.
  - intros Hint.
    apply Forall_cons in Hint as [Hpage _].
    apply Forall_cons in Hpage as [Hcol _].
    apply Forall_cons in Hcol as [Hcard _].
    by vm_compute in Hcard.
Qed.

(** C6, as stated, fails in states the store reaches through [updateCard].
    After an update that carries a foreign [columnId], the identity move
    of the welcome card rewrites its [columnId]. After an update that gives
    a second card the welcome card's id (referential integrity intact), the
    identity move of the card at index 1 moves the card at index 0 there:
    the two cards change places. *)
Lemma moveCard_identity_not_structural :
  (let st := Sample.relabelled.1 in
   let st' :=
     (moveCard Example.clock
        (mkSource Example.welcomePage Example.toDo Example.welcomeCard)
        (mkTarget Example.welcomePage Example.toDo (Some 0)) st Sample.relabelled.2).1 in
   reachable Example.clock Example.random anyOp st Sample.relabelled.2
   ∧ fmap (M:=list) Card.id <$> cardsAt 0%nat 0%nat (workspace st) = Some [Example.welcomeCard]
   ∧ fmap (M:=list) Card.columnId <$> cardsAt 0%nat 0%nat (workspace st) = Some ["col-elsewhere"]
   ∧ fmap (M:=list) Card.columnId <$> cardsAt 0%nat 0%nat (workspace st') = Some [Example.toDo]
   ∧ blankStamps (workspace st') ≠ blankStamps (workspace st))
  ∧ (let st := Sample.twins.1 in
     let st' :=
       (moveCard Example.clock
          (mkSource Example.welcomePage Example.toDo Example.welcomeCard)
          (mkTarget Example.welcomePage Example.toDo (Some 1)) st Sample.twins.2).1 in
     reachable Example.clock Example.random keepsColumnId st Sample.twins.2
     ∧ referentialIntegrity (workspace st)
     ∧ fmap (M:=list) Card.id <$> cardsAt 0%nat 0%nat (workspace st)
       = Some [Example.welcomeCard; Example.welcomeCard]
     ∧ fmap (M:=list) Card.title <$> cardsAt 0%nat 0%nat (workspace st)
       = Some ["Welcome to your workspace"; "Second"]
     ∧ fmap (M:=list) Card.title <$> cardsAt 0%nat 0%nat (workspace st')
       = Some ["Second"; "Welcome to your workspace"]
     ∧ blankStamps (workspace st') ≠ blankStamps (workspace st)).
Proof.
  assert (Hcreated : reachable Example.clock Example.random keepsColumnId
                       Example.created Example.world1).
  { by apply (reachable_init _ _ _ Example.world0). }
  split.
  - intros st st'. split_and!; [|by vm_compute..|].
    + eapply (reachable_step _ _ _
                (UpdateCard Example.welcomePage Example.toDo Example.welcomeCard
                   Sample.relabel)
                Example.created Example.world1).
      * by apply (reachable_init _ _ _ Example.world0).
      * done.
      * exact (surjective_pairing Sample.relabelled).
    + intros Heq.
      apply (f_equal (λ ws, fmap (M:=list) Card.columnId <$> cardsAt 0%nat 0%nat ws)) in Heq.
      by vm_compute in Heq.
  - intros st st'.
    assert (Hsecond : reachable Example.clock Example.random keepsColumnId
                        Sample.second.1 Sample.second.2).
    { eapply (reachable_step _ _ _
                (AddCard Example.welcomePage Example.toDo "Second" None)
                Example.created Example.world1);
        [exact Hcreated|done|exact (surjective_pairing Sample.second)]. }
    assert (Htwins : reachable Example.clock Example.random keepsColumnId
                       st Sample.twins.2).
    { eapply (reachable_step _ _ _
                (UpdateCard Example.welcomePage Example.toDo "card-1011-r3"
                   Sample.reuseId)
                Sample.second.1 Sample.second.2);
        [exact Hsecond|by intros c Hc|exact (surjective_pairing Sample.twins)]. }
    split_and!; [exact Htwins| |by vm_compute..|].
    + apply run_integrity; [by intros c Hc|].
      apply run_integrity; [done|]. apply initialState_integrity.
    + intros Heq.
      apply (f_equal (λ ws, fmap (M:=list) Card.title <$> cardsAt 0%nat 0%nat ws)) in Heq.
      by vm_compute in Heq.
Qed.

(** C3, as stated, fails: [removePage] with an id no page carries refreshes
    the workspace's [updatedAt], so the state is not left unchanged. *)
Lemma removePage_absent_not_noop :
  ("page-none" ∉ Page.id <$> Workspace.pages (workspace Example.created))
  ∧ ((removePage Example.clock "page-none" Example.created Example.world1).1
     ≠ Example.created)
  ∧ Workspace.updatedAt (workspace Example.created) = 1010
  ∧ Workspace.updatedAt
      (workspace (removePage Example.clock "page-none" Example.created Example.world1).1)
    = 1011.
Proof.
  split_and!.
  - intros Hin. apply list_elem_of_fmap in Hin as (p & Hid & Hp).
    apply list_elem_of_singleton in Hp as ->. by vm_compute in Hid.
  - intros Heq. apply (f_equal (λ st, Workspace.updatedAt (workspace st))) in Heq.
    by vm_compute in Heq.
  - by vm_compute.
  - by vm_compute.
Qed.

(** C8, as stated, fails: for the parsed value [null], which fails the
    shape check, the message is not [Invalid import data format] but that
    text behind the prefix [Import failed: ]. *)
Lemma importWorkspace_message_prefixed :
  let r := importWorkspace Example.parse Example.typeErrorMessage
             (FileText "null") Example.options in
  Example.parse "null" = Ok JNull
  ∧ importShape JNull = false
  ∧ validateImportData Example.typeErrorMessage JNull = Ok false
  ∧ ImportResult.message r = "Import failed: Invalid import data format"
  ∧ ImportResult.message r ≠ "Invalid import data format".
Proof. split_and!; by vm_compute. Qed.

(** [moveColumn_permutes] on the three-column board: moving [c1] to index 5. *)
Lemma moveColumn_permutes_witness :
  findPage "p1" (Workspace.pages (workspace Example.board)) = Some (0%nat, Example.page1)
  ∧ findColumnIn "c1" (Page.columns Example.page1) = Some (0%nat, Example.column1)
  ∧ ∃ page',
      findPage "p1"
        (Workspace.pages
           (workspace (moveColumn Example.clock "p1" "c1" 5 Example.board Example.world0).1))
        = Some (0%nat, page')
      ∧ Page.columns page' ≡ₚ Page.columns Example.page1
      ∧ (Z.of_nat (length (Page.columns Example.page1) - 1) ≤ 5 →
         last (Page.columns page') = Some Example.column1).
Proof.
  split; [by vm_compute|]. split; [by vm_compute|].
  apply (moveColumn_permutes Example.clock "p1" "c1" 5 Example.board Example.world0
           0%nat Example.page1 0%nat Example.column1); by vm_compute.
Defined.

(** [moveColumn_twice] on the three-column board: [c1] to 2, then to 1. *)
Lemma moveColumn_twice_witness :
  findPage "p1" (Workspace.pages (workspace Example.board)) = Some (0%nat, Example.page1)
  ∧ findColumnIn "c1" (Page.columns Example.page1) = Some (0%nat, Example.column1)
  ∧ NoDup (Column.id <$> Page.columns Example.page1)
  ∧ Page.columns <$>
      Workspace.pages (workspace
        ((moveColumn Example.clock "p1" "c1" 2 Example.board
            ≫= moveColumn Example.clock "p1" "c1" 1) Example.world0).1)
    = Page.columns <$>
      Workspace.pages
        (workspace (moveColumn Example.clock "p1" "c1" 1 Example.board Example.world0).1).
Proof.
  assert (Hnd : NoDup (Column.id <$> Page.columns Example.page1)).
  { apply (bool_decide_unpack _). by vm_compute. }
  split; [by vm_compute|]. split; [by vm_compute|]. split; [exact Hnd|].
  apply (moveColumn_twice Example.clock "p1" "c1" 2 1 Example.board Example.world0
           0%nat Example.page1 0%nat Example.column1); [by vm_compute..|exact Hnd].
Defined.

(** [moveCard_identity] on the board: card [k2] sits at index 1 of [c1]. *)
Lemma moveCard_identity_witness :
  findPage "p1" (Workspace.pages (workspace Example.board)) = Some (0%nat, Example.page1)
  ∧ findColumnIn "c1" (Page.columns Example.page1) = Some (0%nat, Example.column1)
  ∧ findCardIn "k2" (Column.cards Example.column1) = Some (1%nat, Example.card2)
  ∧ Card.columnId Example.card2 = "c1"
  ∧ blankStamps
      (workspace
         (moveCard Example.clock (mkSource "p1" "c1" "k2")
            (mkTarget "p1" "c1" (Some (Z.of_nat 1))) Example.board Example.world0).1)
    = blankStamps (workspace Example.board)
  ∧ selectedCardId
      (moveCard Example.clock (mkSource "p1" "c1" "k2")
         (mkTarget "p1" "c1" (Some (Z.of_nat 1))) Example.board Example.world0).1
    = selectedCardId Example.board.
Proof.
  split; [by vm_compute|]. split; [by vm_compute|]. split; [by vm_compute|].
  split; [by vm_compute|].
  apply (moveCard_identity Example.clock "p1" "c1" "k2" Example.board Example.world0
           0%nat Example.page1 0%nat Example.column1 1%nat Example.card2);
    by vm_compute.
Defined.

Lemma Example_clock_mono m n : (m ≤ n)%nat → Example.clock m ≤ Example.clock n.
Proof. unfold Example.clock. lia. Defined.

(** [updateCard_cascade] on the board: retitling [k3]. *)
Lemma updateCard_cascade_witness :
  let updates :=
    PartialCard.mk None (Some "Ship it") None None None None None None None in
  let ws' :=
    workspace (updateCard Example.clock "p1" "c2" "k3" updates Example.board
                 Example.world0).1 in
  ∃ page' col' card',
    Workspace.pages ws' !! 0%nat = Some page'
    ∧ Page.columns page' !! 1%nat = Some col'
    ∧ Column.cards col' !! 0%nat = Some card'
    ∧ (Card.updatedAt card' = Example.clock (ticks Example.world0)
       ∧ Column.updatedAt col' = Example.clock (1 + ticks Example.world0)
       ∧ Page.updatedAt page' = Example.clock (2 + ticks Example.world0)
       ∧ Workspace.updatedAt ws' = Example.clock (3 + ticks Example.world0))
    ∧ (Card.updatedAt Example.card3 ≤ Card.updatedAt card'
       ∧ Column.updatedAt Example.column2 ≤ Column.updatedAt col'
       ∧ Page.updatedAt Example.page1 ≤ Page.updatedAt page'
       ∧ Workspace.updatedAt (workspace Example.board) ≤ Workspace.updatedAt ws')
    ∧ (Card.createdAt card' =
         default (Card.createdAt Example.card3) (PartialCard.createdAt updates)
       ∧ Column.createdAt col' = Column.createdAt Example.column2
       ∧ Page.createdAt page' = Page.createdAt Example.page1
       ∧ Workspace.createdAt ws' = Workspace.createdAt (workspace Example.board)).
Proof.
  intros updates.
  apply (updateCard_cascade Example.clock "p1" "c2" "k3" updates Example.board
           Example.world0 0%nat Example.page1 1%nat Example.column2 0%nat Example.card3);
    [by vm_compute|by vm_compute|by vm_compute|apply Example_clock_mono|..];
    by vm_compute.
Defined.

(** [removePage_active] on the board, whose active page is [p1]. *)
Lemma removePage_active_witness :
  Workspace.activePageId (workspace Example.board) = Some "p1"
  ∧ "p1" ∈ Page.id <$> Workspace.pages (workspace Example.board)
  ∧ Forall (λ p, Page.id p ≠ "") (Workspace.pages (workspace Example.board))
  ∧ Workspace.activePageId
      (workspace (removePage Example.clock "p1" Example.board Example.world0).1)
    = Some "p2"
  ∧ activePageValid
      (workspace (removePage Example.clock "p2" Example.board Example.world0).1).
Proof.
  assert (Hin : "p1" ∈ Page.id <$> Workspace.pages (workspace Example.board)).
  { apply (bool_decide_unpack _). by vm_compute. }
  assert (Hne : Forall (λ p, Page.id p ≠ "") (Workspace.pages (workspace Example.board))).
  { apply (bool_decide_unpack _). by vm_compute. }
  destruct (removePage_active Example.clock "p1" Example.board Example.world0
              eq_refl Hin Hne) as [[_ Hfirst] Hvalid].
  split_and!; [done|exact Hin|exact Hne| |apply Hvalid].
  rewrite Hfirst. by vm_compute.
Defined.

(** [remove_absent] on the board: no page has id [page-none]. *)
Lemma remove_absent_witness :
  ("page-none" ∉ Page.id <$> Workspace.pages (workspace Example.board))
  ∧ removePage Example.clock "page-none" Example.board Example.world0
    = (set_workspace
         (Workspace.set_updatedAt 1000 (workspace Example.board)) Example.board,
       mkWorld 1 0).
Proof.
  assert (Hn : "page-none" ∉ Page.id <$> Workspace.pages (workspace Example.board)).
  { apply (bool_decide_unpack _). by vm_compute. }
  split; [exact Hn|].
  destruct (remove_absent Example.clock Example.board Example.world0) as [Hpage _].
  rewrite (Hpage "page-none" Hn). by vm_compute.
Defined.

(** [integrity_reachable] after adding a card to the store as created. *)
Lemma integrity_reachable_witness :
  let op := AddCard Example.welcomePage Example.toDo "Next" None in
  let r := run Example.clock Example.random op Example.created Example.world1 in
  reachable Example.clock Example.random keepsColumnId r.1 r.2
  ∧ referentialIntegrity (workspace r.1).
Proof.
  intros op r.
  assert (Hreach : reachable Example.clock Example.random keepsColumnId r.1 r.2).
  { eapply (reachable_step _ _ _ op Example.created Example.world1).
    - by apply (reachable_init _ _ _ Example.world0).
    - done.
    - apply surjective_pairing. }
  split; [exact Hreach|].
  exact (integrity_reachable Example.clock Example.random r.1 r.2 Hreach).
Defined.

(** [generateAnalytics_correct] on the board's pages: three cards, one done. *)
Lemma generateAnalytics_correct_witness :
  (0 < length (allCards [Example.page1; Example.page2]))%nat
  ∧ totalCards (generateAnalytics [Example.page1; Example.page2]) = 3%nat
  ∧ completedCards (generateAnalytics [Example.page1; Example.page2]) = 1%nat
  ∧ completionRate (generateAnalytics [Example.page1; Example.page2])
    = SpecFloat.S754_finite false 6004799503160661 (-54)
  ∧ 2 * Z.abs (6004799503160661 * 3 - 1 * 2 ^ 54) ≤ 3
  ∧ completionRate (generateAnalytics []) = numberOfNat 0.
Proof.
  destruct (generateAnalytics_correct [Example.page1; Example.page2])
    as (Htotal & Hcompleted & Hrate & _ & _ & Hnear & _).
  destruct (generateAnalytics_correct []) as (_ & _ & _ & Hempty & _).
  assert (Hpos : (0 < length (allCards [Example.page1; Example.page2]))%nat).
  { vm_compute. lia. }
  assert (Hdone : (0 < length (filter (λ c, Card.status c = done)
                                 (allCards [Example.page1; Example.page2])))%nat).
  { vm_compute. lia. }
  assert (Hsmall : Z.of_nat (length (allCards [Example.page1; Example.page2])) < 2 ^ 53).
  { by vm_compute. }
  assert (Hvalue : completionRate (generateAnalytics [Example.page1; Example.page2])
                   = SpecFloat.S754_finite false 6004799503160661 (-54)).
  { rewrite (Hrate Hpos). by vm_compute. }
  split_and!; [exact Hpos|by rewrite Htotal|by rewrite Hcompleted|exact Hvalue|
               |by apply Hempty].
  destruct (Hnear Hdone Hsmall) as (m & e & Hme & _ & _ & Herr).
  rewrite Hvalue in Hme. injection Hme as <- <-. exact Herr.
Defined.

(** [importWorkspace_invalid] on a file whose text is [null]. *)
Lemma importWorkspace_invalid_witness :
  let r := importWorkspace Example.parse Example.typeErrorMessage
             (FileText "null") Example.options in
  readFile (FileText "null") = Ok "null"
  ∧ Example.parse "null" = Ok JNull
  ∧ importShape JNull = false
  ∧ ImportResult.success r = false
  ∧ ImportResult.imported r = ImportResult.mkCounts 0 0 0
  ∧ ImportResult.conflicts r = []
  ∧ ImportResult.message r = "Import failed: Invalid import data format".
Proof.
  intros r.
  destruct (importWorkspace_invalid Example.parse Example.typeErrorMessage
              (FileText "null") Example.options) as [_ Hfail].
  destruct (Hfail "null" JNull eq_refl eq_refl (or_introl eq_refl))
    as (Hsuccess & Himported & Hconflicts & Hmessage & _).
  split_and!; [done|done|done|exact Hsuccess|exact Himported
              |exact Hconflicts|by apply Hmessage].
Defined.

(** ** Further properties of the store *)

Section StoreLookups.

Implicit Types (st : WorkspaceState) (page : Page.t) (col : Column.t).

Lemma findCardIn_None cardId cards :
  findCardIn cardId cards = None ↔ cardId ∉ Card.id <$> cards.
Proof.
  unfold findCardIn. rewrite list_find_None, Forall_forall, list_elem_of_fmap.
  split.
  - intros Hn (c & -> & Hc). by apply (Hn c).
  - intros Hn c Hc Heq. apply Hn. by exists c.
Qed.

Lemma findCardInColumns_Some cardId pageId columns found :
  findCardInColumns cardId pageId columns = Some found →
  found_pageId found = pageId
  ∧ Card.id (found_card found) = cardId
  ∧ ∃ col, col ∈ columns
      ∧ found_card found ∈ Column.cards col
      ∧ found_columnId found = Column.id col.
Proof.
  induction columns as [|column rest IH]; simpl; [done|].
  destruct (findCardIn cardId (Column.cards column)) as [[k card]|] eqn:Hk.
  - intros [= <-]. simpl. split_and!; [done|by eapply find_holds in Hk|].
    exists column. split_and!; [left| |done].
    eapply list_elem_of_lookup_2, find_lookup, Hk.
  - intros (? & ? & col & ? & ? & ?)%IH. split_and!; [done..|].
    exists col. split_and!; [by right|done..].
Qed.

Lemma findCardInColumns_None cardId pageId columns :
  findCardInColumns cardId pageId columns = None ↔
  cardId ∉ Card.id <$> (columns ≫= Column.cards).
Proof.
  induction columns as [|column rest IH]; simpl.
  - split; [|done]. intros _. apply not_elem_of_nil.
  - change ((column :: rest) ≫= Column.cards)
      with (Column.cards column ++ (rest ≫= Column.cards)).
    rewrite fmap_app, not_elem_of_app, <- IH, <- findCardIn_None.
    destruct (findCardIn cardId (Column.cards column)) as [[k card]|].
    + split; [done|by intros [? _]].
    + split; [done|by intros [_ ?]].
Qed.

(** X1. [findCard] answers null exactly when no card of the workspace has
    the id; otherwise the card it returns has the id and lies in a column,
    on a page, whose ids are the [columnId] and [pageId] returned with it. *)
Theorem findCard_spec cardId st :
  match findCard cardId st with
  | Some found =>
      Card.id (found_card found) = cardId
      ∧ ∃ page col,
          page ∈ Workspace.pages (workspace st)
          ∧ col ∈ Page.columns page
          ∧ found_card found ∈ Column.cards col
          ∧ found_pageId found = Page.id page
          ∧ found_columnId found = Column.id col
  | None => cardId ∉ cardIds (workspace st)
  end.
Proof.
  unfold findCard, cardIds, allCards.
  induction (Workspace.pages (workspace st)) as [|page rest IH]; simpl.
  - apply not_elem_of_nil.
  - destruct (findCardInColumns cardId (Page.id page) (Page.columns page))
      as [found|] eqn:Hcols.
    + apply findCardInColumns_Some in Hcols as (Hp & Hid & col & Hcol & Hcard & Hc).
      split; [done|]. exists page, col. split_and!; [left|done..].
    + apply findCardInColumns_None in Hcols.
      change ((page :: rest) ≫= λ p, Page.columns p ≫= Column.cards)
        with ((Page.columns page ≫= Column.cards)
                ++ (rest ≫= λ p, Page.columns p ≫= Column.cards)).
      destruct (findCardInPages cardId rest) as [found|].
      * destruct IH as (Hid & page' & col & Hpage & Hrest).
        split; [done|]. exists page', col. split; [by right|done].
      * rewrite fmap_app, not_elem_of_app. done.
Qed.

(** X2. [findColumn] answers null exactly when no page has a column with
    the id; otherwise the column it returns has the id and belongs to a
    page whose id is the [pageId] returned with it. *)
Theorem findColumn_spec columnId st :
  match findColumn columnId st with
  | Some found =>
      Column.id (found_column found) = columnId
      ∧ ∃ page,
          page ∈ Workspace.pages (workspace st)
          ∧ found_column found ∈ Page.columns page
          ∧ found_in_pageId found = Page.id page
  | None =>
      columnId ∉ Column.id <$> (Workspace.pages (workspace st) ≫= Page.columns)
  end.
Proof.
  unfold findColumn.
  induction (Workspace.pages (workspace st)) as [|page rest IH]; simpl.
  - apply not_elem_of_nil.
  - change ((page :: rest) ≫= Page.columns)
      with (Page.columns page ++ (rest ≫= Page.columns)).
    destruct (findColumnIn columnId (Page.columns page)) as [[k col]|] eqn:Hc.
    + simpl. split; [by eapply find_holds in Hc|]. exists page.
      split_and!; [left| |done]. eapply list_elem_of_lookup_2, find_lookup, Hc.
    + destruct (findColumnInPages columnId rest) as [found|].
      * destruct IH as (Hid & page' & Hpage & Hrest).
        split; [done|]. exists page'. split; [by right|done].
      * rewrite fmap_app, not_elem_of_app. split; [|done].
        intros (c & -> & Hin)%list_elem_of_fmap.
        apply list_find_None in Hc. by eapply Forall_forall in Hc.
Qed.

End StoreLookups.

Section StoreExtras.
Variable clock : nat → Z.
Variable random : nat → string.

Implicit Types (st : WorkspaceState) (w : World) (page : Page.t) (col : Column.t).

(** X3. Actions that edit, add to or reorder an entity that is not there
    are true no-ops: with an absent page, column or card on the addressed
    path, [renamePage], [updatePageIcon], [addColumn], [renameColumn],
    [moveColumn], [addCard] and [updateCard] leave the whole state
    unchanged, stamps included, and read neither the clock nor the random
    source. *)
Theorem notFound_noop st w :
  let pages := Workspace.pages (workspace st) in
  (∀ pageId,
      pageId ∉ Page.id <$> pages →
      (∀ title, renamePage clock pageId title st w = (st, w))
      ∧ (∀ icon, updatePageIcon clock pageId icon st w = (st, w))
      ∧ (∀ title, addColumn clock random pageId title st w = (st, w))
      ∧ (∀ columnId title, renameColumn clock pageId columnId title st w = (st, w))
      ∧ (∀ columnId target, moveColumn clock pageId columnId target st w = (st, w))
      ∧ (∀ columnId title description,
           addCard clock random pageId columnId title description st w = (st, w))
      ∧ (∀ columnId cardId updates,
           updateCard clock pageId columnId cardId updates st w = (st, w)))
  ∧ (∀ pageId columnId pi page,
      findPage pageId pages = Some (pi, page) →
      columnId ∉ Column.id <$> Page.columns page →
      (∀ title, renameColumn clock pageId columnId title st w = (st, w))
      ∧ (∀ target, moveColumn clock pageId columnId target st w = (st, w))
      ∧ (∀ title description,
           addCard clock random pageId columnId title description st w = (st, w))
      ∧ (∀ cardId updates,
           updateCard clock pageId columnId cardId updates st w = (st, w)))
  ∧ (∀ pageId columnId cardId pi page ci col,
      findPage pageId pages = Some (pi, page) →
      findColumnIn columnId (Page.columns page) = Some (ci, col) →
      cardId ∉ Card.id <$> Column.cards col →
      ∀ updates, updateCard clock pageId columnId cardId updates st w = (st, w)).
Proof.
  intros pages. subst pages. split_and!.
  - intros pageId Hn%find_absent.
    unfold renamePage, updatePageIcon, addColumn, renameColumn, moveColumn,
      addCard, updateCard, findPage.
    rewrite Hn. done.
  - intros pageId columnId pi page Hp Hn%find_absent.
    unfold renameColumn, moveColumn, addCard, updateCard, findColumnIn.
    rewrite Hp, Hn. done.
  - intros pageId columnId cardId pi page ci col Hp Hc Hn%find_absent updates.
    unfold updateCard, findCardIn. by rewrite Hp, Hc, Hn.
Qed.

(** X4. [moveCard] with a source that does not resolve to a card (page,
    column or card absent) moves nothing, whatever the target: the only
    change is the workspace's [updatedAt], set to the one clock reading of
    the call. *)
Theorem moveCard_source_missing source target st w :
  (∀ pi page ci col,
      findPage (src_pageId source) (Workspace.pages (workspace st)) = Some (pi, page) →
      findColumnIn (src_columnId source) (Page.columns page) = Some (ci, col) →
      src_cardId source ∉ Card.id <$> Column.cards col) →
  moveCard clock source target st w =
    (set_workspace (Workspace.set_updatedAt (clock (ticks w)) (workspace st)) st,
     mkWorld (S (ticks w)) (draws w)).
Proof.
  intros Hmiss.
  assert (Htake : takeCard clock source (Workspace.pages (workspace st)) w
                  = ((None, Workspace.pages (workspace st)), w)).
  { unfold takeCard.
    destruct (findPage _ _) as [[pi page]|] eqn:Hp; [|done].
    destruct (findColumnIn _ (Page.columns page)) as [[ci col]|] eqn:Hc; [|done].
    unfold findCardIn. by rewrite (find_absent _ _ _ (Hmiss _ _ _ _ eq_refl Hc)). }
  unfold moveCard, mbind, M_bind. rewrite Htake. simpl.
  by rewrite Workspace_set_pages_same.
Qed.

(** X5. The selection is changed by [setSelectedCardId] and by a
    [removeCard] of the selected card only: after any other call
    [selectedCardId] is what it was. *)
Theorem selection_frame op st w :
  (∀ cardId, op ≠ SetSelectedCardId cardId) →
  selectedCardId (run clock random op st w).1 = selectedCardId st
  ∨ ∃ pageId columnId cardId,
      op = RemoveCard pageId columnId cardId
      ∧ selectedCardId st = Some cardId
      ∧ selectedCardId (run clock random op st w).1 = None.
Proof.
  intros Hop. destruct op; simpl;
    try (left; done);
    try (left; unfold renamePage, updatePageIcon, addColumn, removeColumn,
           renameColumn, moveColumn, addCard, updateCard,
           findPage, findColumnIn, findCardIn;
         repeat (destruct (list_find _ _) as [[? ?]|]; simpl; try done); fail).
  - (* removeCard *)
    unfold removeCard.
    destruct (findPage _ _) as [[pi page]|]; [|by left].
    destruct (findColumnIn _ _) as [[ci col]|]; [|by left]. simpl.
    case_decide as Hsel; [|by left].
    right. by exists pageId, columnId, cardId.
  - (* moveCard *) left. apply moveCard_selected.
  - (* setSelectedCardId *) by destruct (Hop cardId).
Qed.

Lemma find_after_filter {A} (P : A → Prop) `{∀ x, Decision (P x)} (l : list A) :
  list_find P (filter (λ x, ¬ P x) l) = None.
Proof.
  apply list_find_None, Forall_forall. by intros x [Hx _]%list_elem_of_filter.
Qed.

(** X6. What is removed is no longer found. After [removePage(pageId)] no
    page has the id. After [removeColumn] on an existing page, the page
    keeps its id and position, its columns are the former ones without
    those with the id, in order, and none has the id. After [removeCard] on
    an existing page and column, the column's cards are the former ones
    without those with the id, in order, none has the id, and a selection
    of that id is cleared. *)
Theorem removed_not_found st w :
  (∀ pageId,
      findPage pageId (Workspace.pages (workspace (removePage clock pageId st w).1))
      = None)
  ∧ (∀ pageId columnId pi page,
      findPage pageId (Workspace.pages (workspace st)) = Some (pi, page) →
      ∃ page',
        findPage pageId
          (Workspace.pages (workspace (removeColumn clock pageId columnId st w).1))
        = Some (pi, page')
        ∧ Page.columns page' = filter (λ c, Column.id c ≠ columnId) (Page.columns page)
        ∧ findColumnIn columnId (Page.columns page') = None)
  ∧ (∀ pageId columnId cardId pi page ci col,
      findPage pageId (Workspace.pages (workspace st)) = Some (pi, page) →
      findColumnIn columnId (Page.columns page) = Some (ci, col) →
      let st' := (removeCard clock pageId columnId cardId st w).1 in
      cardsAt pi ci (workspace st')
      = Some (filter (λ c, Card.id c ≠ cardId) (Column.cards col))
      ∧ (cardId ∉ Card.id <$> filter (λ c, Card.id c ≠ cardId) (Column.cards col))
      ∧ (selectedCardId st = Some cardId → selectedCardId st' = None)
      ∧ (selectedCardId st ≠ Some cardId → selectedCardId st' = selectedCardId st)).
Proof.
  split_and!.
  - intros pageId. rewrite removePage_state. simpl.
    apply (find_after_filter (λ p, Page.id p = pageId)).
  - intros pageId columnId pi page Hp. unfold removeColumn. rewrite Hp. simpl.
    eexists. split_and!.
    + eapply find_insert_same; [exact Hp|]. by eapply find_holds in Hp.
    + done.
    + apply (find_after_filter (λ c, Column.id c = columnId)).
  - intros pageId columnId cardId pi page ci col Hp Hc st'. subst st'.
    unfold removeCard. rewrite Hp, Hc. simpl.
    pose proof (lookup_lt_Some _ _ _ (find_lookup _ _ _ _ Hp)).
    pose proof (lookup_lt_Some _ _ _ (find_lookup _ _ _ _ Hc)).
    split_and!.
    + unfold cardsAt. simpl. rewrite list_lookup_insert_eq by done. simpl.
      unfold Page.columns at 1. simpl. by rewrite list_lookup_insert_eq.
    + intros (c & Hid & [Hne _]%list_elem_of_filter)%list_elem_of_fmap. done.
    + intros Hsel. by rewrite decide_True.
    + intros Hsel. by rewrite decide_False.
Qed.

(** X7. Dropping a dragged column on another column of the board puts it
    at the position the other column had, keeping the order of the rest:
    when [active] and [over] are the ids of columns found at different
    positions [i] and [j] of the page, after [handleDragEnd] position [j]
    holds the dragged column, and leaving it out gives the former sequence
    without it. *)
Theorem handleDragEnd_places pageId active overId st w pi page i col j over :
  findPage pageId (Workspace.pages (workspace st)) = Some (pi, page) →
  String.prefix "col-" active = true →
  findColumnIn active (Page.columns page) = Some (i, col) →
  findColumnIn overId (Page.columns page) = Some (j, over) →
  i ≠ j →
  ∃ page',
    Workspace.pages
      (workspace (handleDragEnd clock pageId active (Some overId) st w).1) !! pi
    = Some page'
    ∧ Page.columns page' !! j = Some col
    ∧ delete j (Page.columns page') = delete i (Page.columns page).
Proof.
  intros Hp Hpre Hi Hj Hne.
  pose proof (lookup_lt_Some _ _ _ (find_lookup _ _ _ _ Hp)).
  pose proof (find_lookup _ _ _ _ Hi) as Hli.
  pose proof (lookup_lt_Some _ _ _ Hli).
  pose proof (lookup_lt_Some _ _ _ (find_lookup _ _ _ _ Hj)).
  unfold handleDragEnd. rewrite Hp, Hpre, Hi, Hj. rewrite decide_True by done.
  rewrite (moveColumn_found _ _ _ _ _ _ _ _ _ _ Hp Hi). simpl.
  assert (Hlen : (j ≤ length (delete i (Page.columns page)))%nat).
  { rewrite length_delete by eauto. lia. }
  rewrite splice_start_of_nat by done.
  eexists. split_and!.
  - by apply list_lookup_insert_eq.
  - unfold Page.columns at 1. simpl. by apply insertAt_lookup.
  - unfold Page.columns at 1. simpl. by apply delete_insertAt.
Qed.

(** X8. A drop that names no target, a dragged item that is not a column,
    a dragged or target id that is not a column of the page, or a column
    dropped on itself changes nothing, not even a stamp. *)
Theorem handleDragEnd_ignored pageId active over st w :
  over = None
  ∨ String.prefix "col-" active = false
  ∨ (∀ pi page overId i a j o,
       findPage pageId (Workspace.pages (workspace st)) = Some (pi, page) →
       over = Some overId →
       findColumnIn active (Page.columns page) = Some (i, a) →
       findColumnIn overId (Page.columns page) = Some (j, o) →
       i = j) →
  handleDragEnd clock pageId active over st w = (st, w).
Proof.
  intros Hcase. unfold handleDragEnd.
  destruct (findPage _ _) as [[pi page]|] eqn:Hp; [|done].
  destruct over as [overId|]; [|done].
  destruct (String.prefix "col-" active) eqn:Hpre; [|done].
  destruct Hcase as [|[|Hcols]]; [done..|].
  destruct (findColumnIn active _) as [[i a]|] eqn:Hi; [|done].
  destruct (findColumnIn overId _) as [[j o]|] eqn:Hj; [|done].
  rewrite (Hcols pi page overId i a j o eq_refl eq_refl Hi Hj).
  by rewrite decide_False by (intros Hne; by apply Hne).
Qed.

(** *** What the actions leave alone *)

Lemma fmap_insert_same {A B} (f : A → B) (l : list A) i x y :
  l !! i = Some x → f y = f x → f <$> <[i:=y]> l = f <$> l.
Proof.
  intros Hi Hf. rewrite list_fmap_insert, Hf.
  apply list_insert_id. by rewrite list_lookup_fmap, Hi.
Qed.

Lemma takeCard_pageIds source pages w :
  Page.id <$> (takeCard clock source pages w).1.2 = Page.id <$> pages.
Proof.
  unfold takeCard.
  destruct (findPage _ pages) as [[pi page]|] eqn:Hp; [|done].
  destruct (findColumnIn _ (Page.columns page)) as [[ci col]|]; [|done].
  destruct (findCardIn _ (Column.cards col)) as [[k card]|]; [|done].
  simpl. by eapply fmap_insert_same; [eapply find_lookup|].
Qed.

Lemma placeCard_pageIds card target pages w :
  Page.id <$> (placeCard clock card target pages w).1 = Page.id <$> pages.
Proof.
  unfold placeCard.
  destruct (findPage _ pages) as [[pi page]|] eqn:Hp; [|done].
  destruct (findColumnIn _ (Page.columns page)) as [[ci col]|]; [|done].
  simpl. by eapply fmap_insert_same; [eapply find_lookup|].
Qed.

(** The sequence of page ids after a call that neither adds nor removes a
    page. *)
Lemma run_pageIds op st w :
  (∀ title icon, op ≠ AddPage title icon) →
  (∀ pageId, op ≠ RemovePage pageId) →
  Page.id <$> Workspace.pages (workspace (run clock random op st w).1)
  = Page.id <$> Workspace.pages (workspace st).
Proof.
  intros Hadd Hremove.
  destruct op; simpl;
    try done;
    try (by destruct (Hadd title icon));
    try (by destruct (Hremove pageId));
    try (unfold renamePage, updatePageIcon, addColumn, removeColumn,
           renameColumn, moveColumn, addCard, removeCard, updateCard;
         destruct (findPage _ _) as [[pi page]|] eqn:Hp; [|done];
         unfold findColumnIn, findCardIn;
         repeat (destruct (list_find _ _) as [[? ?]|]; simpl; try done);
         simpl; by eapply fmap_insert_same; [eapply find_lookup|]).
  (* moveCard *)
  unfold moveCard, mbind, M_bind.
  pose proof (takeCard_pageIds source (Workspace.pages (workspace st)) w) as Htake.
  destruct (takeCard clock source _ w) as [[[card|] pages1] w1]; simpl in *; [|done].
  pose proof (placeCard_pageIds card target pages1 w1) as Hplace.
  destruct (placeCard clock card target pages1 w1) as [pages2 w2]. simpl in *.
  congruence.
Qed.

(** The active page after a call that is none of [addPage], [removePage],
    [setActivePage]. *)
Lemma run_activePageId op st w :
  (∀ title icon, op ≠ AddPage title icon) →
  (∀ pageId, op ≠ RemovePage pageId) →
  (∀ pageId, op ≠ SetActivePage pageId) →
  Workspace.activePageId (workspace (run clock random op st w).1)
  = Workspace.activePageId (workspace st).
Proof.
  intros Hadd Hremove Hactive.
  destruct op; simpl;
    try done;
    try (by destruct (Hadd title icon));
    try (by destruct (Hremove pageId));
    try (by destruct (Hactive pageId));
    try (unfold renamePage, updatePageIcon, addColumn, removeColumn,
           renameColumn, moveColumn, addCard, removeCard, updateCard,
           findPage, findColumnIn, findCardIn;
         repeat (destruct (list_find _ _) as [[? ?]|]; simpl; try done); fail).
  (* moveCard *)
  unfold moveCard, mbind, M_bind.
  destruct (takeCard clock source _ w) as [[[card|] pages1] w1]; simpl; [|done].
  by destruct (placeCard clock card target pages1 w1).
Qed.

(** X9. Only [addPage] and [removePage] change which pages there are, and
    only they and [setActivePage] change the active page: after any other
    call the sequence of page ids and [activePageId] are what they were;
    [setActivePage] too keeps the sequence of page ids. *)
Theorem pages_frame op st w :
  (∀ title icon, op ≠ AddPage title icon) →
  (∀ pageId, op ≠ RemovePage pageId) →
  let ws' := workspace (run clock random op st w).1 in
  Page.id <$> Workspace.pages ws' = Page.id <$> Workspace.pages (workspace st)
  ∧ ((∀ pageId, op ≠ SetActivePage pageId) →
     Workspace.activePageId ws' = Workspace.activePageId (workspace st)).
Proof.
  intros Hadd Hremove ws'. subst ws'. split.
  - by apply run_pageIds.
  - intros Hactive. by apply run_activePageId.
Qed.

(** X10. Active-page validity is an invariant of every action but
    [setActivePage]: in every state reachable from the store as created
    without [setActivePage], [activePageId] is null or the id of a page
    present in [pages]. *)
Theorem activePage_reachable st w :
  reachable clock random keepsActivePage st w → activePageValid (workspace st).
Proof.
  induction 1 as [w0 st w Hinit | op st w st' w' _ IH Hop Hrun].
  - apply (f_equal fst) in Hinit. simpl in Hinit. subst st.
    unfold activePageValid. simpl. left.
  - apply (f_equal fst) in Hrun. simpl in Hrun. subst st'.
    destruct op; try done.
    all: try (unfold activePageValid;
              rewrite run_activePageId, run_pageIds by done; exact IH).
    + (* addPage *)
      unfold activePageValid. simpl. rewrite fmap_app. apply elem_of_app.
      right. left.
    + (* removePage *)
      unfold run. rewrite removePage_state. unfold activePageValid in *. simpl.
      case_decide as Hd.
      * destruct (firstPageId _) as [b|] eqn:Hb; [|done].
        by apply firstPageId_valid.
      * destruct (Workspace.activePageId (workspace st)) as [a|]; [|done].
        apply list_elem_of_fmap in IH as (p & -> & Hp).
        apply list_elem_of_fmap_2, list_elem_of_filter. split; [|done].
        intros Heq. apply Hd. by rewrite Heq.
Qed.

(** *** The form of generated ids *)

Lemma prefixed_page_update pages pi page cols t :
  Forall (λ p, String.prefix "page-" (Page.id p) = true
               ∧ columnsPrefixed (Page.columns p)) pages →
  pages !! pi = Some page →
  columnsPrefixed cols →
  Forall (λ p, String.prefix "page-" (Page.id p) = true
               ∧ columnsPrefixed (Page.columns p))
    (<[pi := Page.set_updatedAt t (Page.set_columns cols page)]> pages).
Proof.
  intros Hps Hp Hcols. apply Forall_insert; [done|]. split; [|done].
  by apply (Forall_lookup_1 _ _ _ _ Hps Hp).
Qed.

Lemma prefixed_column_update columns ci col cards t :
  columnsPrefixed columns → columns !! ci = Some col →
  columnsPrefixed (<[ci := Column.set_updatedAt t (Column.set_cards cards col)]> columns).
Proof.
  intros Hcols Hc. apply Forall_insert; [done|].
  by apply (Forall_lookup_1 _ _ _ _ Hcols Hc).
Qed.

Lemma prefixed_found pages pi page :
  Forall (λ p, String.prefix "page-" (Page.id p) = true
               ∧ columnsPrefixed (Page.columns p)) pages →
  pages !! pi = Some page →
  String.prefix "page-" (Page.id page) = true ∧ columnsPrefixed (Page.columns page).
Proof. intros Hps Hp. by apply (Forall_lookup_1 _ _ _ _ Hps Hp). Qed.

Lemma takeCard_prefixed source pages w :
  idsPrefixed (Workspace.mk "" pages None 0 0) →
  idsPrefixed (Workspace.mk "" (takeCard clock source pages w).1.2 None 0 0).
Proof.
  unfold idsPrefixed, takeCard. simpl. intros Hps.
  destruct (findPage _ pages) as [[pi page]|] eqn:Hp; [|done].
  apply find_lookup in Hp. destruct (prefixed_found _ _ _ Hps Hp) as [_ Hcols].
  destruct (findColumnIn _ (Page.columns page)) as [[ci col]|] eqn:Hc; [|done].
  apply find_lookup in Hc.
  destruct (findCardIn _ (Column.cards col)) as [[k card]|]; [|done].
  simpl. apply prefixed_page_update; [done..|]. by apply prefixed_column_update.
Qed.

Lemma placeCard_prefixed card target pages w :
  idsPrefixed (Workspace.mk "" pages None 0 0) →
  idsPrefixed (Workspace.mk "" (placeCard clock card target pages w).1 None 0 0).
Proof.
  unfold idsPrefixed, placeCard. simpl. intros Hps.
  destruct (findPage _ pages) as [[pi page]|] eqn:Hp; [|done].
  apply find_lookup in Hp. destruct (prefixed_found _ _ _ Hps Hp) as [_ Hcols].
  destruct (findColumnIn _ (Page.columns page)) as [[ci col]|] eqn:Hc; [|done].
  apply find_lookup in Hc.
  simpl. apply prefixed_page_update; [done..|]. by apply prefixed_column_update.
Qed.

Lemma prefix_append (p s : string) : String.prefix p (p +:+ s) = true.
Proof.
  apply String.prefix_correct.
  induction p as [|a p IH]; simpl; [by destruct s|].
  unfold String.app in *. simpl. by rewrite IH.
Qed.

(** Closing the goals about a freshly built page or column. *)
Ltac prefixed_new :=
  repeat first
    [ done | apply prefix_append | apply Forall_nil_2 | apply Forall_cons_2 | split
    | (unfold columnsPrefixed, Page.columns; simpl; apply Forall_nil_2) ].

Lemma run_prefixed op st w :
  idsPrefixed (workspace st) → idsPrefixed (workspace (run clock random op st w).1).
Proof.
  unfold idsPrefixed. intros Hps.
  destruct op; simpl; try done.
  - (* addPage *) apply Forall_app. split; [done|]. prefixed_new.
  - (* removePage *) by apply Forall_filter_keep.
  - (* renamePage *) unfold renamePage.
    destruct (findPage _ _) as [[pi page]|] eqn:Hp; [|done]. simpl.
    apply find_lookup in Hp. apply Forall_insert; [done|].
    by apply (prefixed_found _ _ _ Hps Hp).
  - (* updatePageIcon *) unfold updatePageIcon.
    destruct (findPage _ _) as [[pi page]|] eqn:Hp; [|done]. simpl.
    apply find_lookup in Hp. apply Forall_insert; [done|].
    by apply (prefixed_found _ _ _ Hps Hp).
  - (* addColumn *) unfold addColumn.
    destruct (findPage _ _) as [[pi page]|] eqn:Hp; [|done]. simpl.
    apply find_lookup in Hp. destruct (prefixed_found _ _ _ Hps Hp) as [_ Hcols].
    apply prefixed_page_update; [done..|]. apply Forall_app. split; [done|].
    prefixed_new.
  - (* removeColumn *) unfold removeColumn.
    destruct (findPage _ _) as [[pi page]|] eqn:Hp; [|done]. simpl.
    apply find_lookup in Hp. destruct (prefixed_found _ _ _ Hps Hp) as [_ Hcols].
    apply prefixed_page_update; [done..|]. by apply Forall_filter_keep.
  - (* renameColumn *) unfold renameColumn.
    destruct (findPage _ _) as [[pi page]|] eqn:Hp; [|done].
    apply find_lookup in Hp. destruct (prefixed_found _ _ _ Hps Hp) as [_ Hcols].
    destruct (findColumnIn _ _) as [[ci col]|] eqn:Hc; [|done]. simpl.
    apply find_lookup in Hc.
    apply prefixed_page_update; [done..|]. apply Forall_insert; [done|].
    by apply (Forall_lookup_1 _ _ _ _ Hcols Hc).
  - (* moveColumn *) unfold moveColumn.
    destruct (findPage _ _) as [[pi page]|] eqn:Hp; [|done].
    apply find_lookup in Hp. destruct (prefixed_found _ _ _ Hps Hp) as [_ Hcols].
    destruct (findColumnIn _ _) as [[ci col]|] eqn:Hc; [|done].
    apply find_lookup in Hc.
    rewrite (reorder_insertAt _ _ col) by done. simpl.
    apply prefixed_page_update; [done..|].
    apply Forall_insertAt; [|by apply Forall_delete].
    by apply (Forall_lookup_1 _ _ _ _ Hcols Hc).
  - (* addCard *) unfold addCard.
    destruct (findPage _ _) as [[pi page]|] eqn:Hp; [|done].
    apply find_lookup in Hp. destruct (prefixed_found _ _ _ Hps Hp) as [_ Hcols].
    destruct (findColumnIn _ _) as [[ci col]|] eqn:Hc; [|done]. simpl.
    apply find_lookup in Hc.
    apply prefixed_page_update; [done..|]. by apply prefixed_column_update.
  - (* removeCard *) unfold removeCard.
    destruct (findPage _ _) as [[pi page]|] eqn:Hp; [|done].
    apply find_lookup in Hp. destruct (prefixed_found _ _ _ Hps Hp) as [_ Hcols].
    destruct (findColumnIn _ _) as [[ci col]|] eqn:Hc; [|done]. simpl.
    apply find_lookup in Hc.
    apply prefixed_page_update; [done..|]. by apply prefixed_column_update.
  - (* updateCard *) unfold updateCard.
    destruct (findPage _ _) as [[pi page]|] eqn:Hp; [|done].
    apply find_lookup in Hp. destruct (prefixed_found _ _ _ Hps Hp) as [_ Hcols].
    destruct (findColumnIn _ _) as [[ci col]|] eqn:Hc; [|done].
    apply find_lookup in Hc.
    destruct (findCardIn _ _) as [[k card]|]; [|done]. simpl.
    apply prefixed_page_update; [done..|]. by apply prefixed_column_update.
  - (* moveCard *) unfold moveCard, mbind, M_bind.
    pose proof (takeCard_prefixed source _ w Hps) as Htake.
    destruct (takeCard clock source _ w) as [[[card|] pages1] w1]; simpl in *; [|done].
    pose proof (placeCard_prefixed card target _ w1 Htake) as Hplace.
    by destruct (placeCard clock card target pages1 w1).
Qed.

(** X11. Ids keep the form they are generated in: in every state
    reachable from the store as created, by any calls, every page id
    starts with [page-] and every column id with [col-]; in particular no
    page or column id is the empty string. *)
Theorem ids_reachable st w :
  reachable clock random anyOp st w →
  idsPrefixed (workspace st)
  ∧ Forall (λ p, Page.id p ≠ "" ∧ Forall (λ c, Column.id c ≠ "") (Page.columns p))
      (Workspace.pages (workspace st)).
Proof.
  intros Hreach.
  assert (Hpre : idsPrefixed (workspace st)).
  { induction Hreach as [w0 st w Hinit | op st w st' w' _ IH Hop Hrun].
    - apply (f_equal fst) in Hinit. simpl in Hinit. subst st.
      unfold idsPrefixed. simpl. prefixed_new.
    - apply (f_equal fst) in Hrun. simpl in Hrun. subst st'. by apply run_prefixed. }
  split; [done|].
  eapply Forall_impl; [exact Hpre|]. intros p [Hp Hcols]. split.
  - intros Heq. by rewrite Heq in Hp.
  - eapply Forall_impl; [exact Hcols|]. intros c Hc Heq. simpl in Hc.
    by rewrite Heq in Hc.
Qed.

(** *** Stamps and the clock *)

Section Stamps.
Hypothesis clock_mono : ∀ m n, (m ≤ n)%nat → clock m ≤ clock n.

Lemma cardsWithin_weaken T T' cards : T ≤ T' → cardsWithin T cards → cardsWithin T' cards.
Proof.
  intros HT Hcards. eapply Forall_impl; [exact Hcards|]. intros c Hc. simpl in Hc. lia.
Qed.

Lemma columnsWithin_weaken T T' columns :
  T ≤ T' → columnsWithin T columns → columnsWithin T' columns.
Proof.
  intros HT Hcols. eapply Forall_impl; [exact Hcols|]. intros c [Hc Hcards].
  split; [lia|by eapply cardsWithin_weaken].
Qed.

Lemma pagesWithin_weaken T T' pages : T ≤ T' → pagesWithin T pages → pagesWithin T' pages.
Proof.
  intros HT Hps. eapply Forall_impl; [exact Hps|]. intros p [Hp Hcols].
  split; [lia|by eapply columnsWithin_weaken].
Qed.

Lemma within_page_update T pages pi page cols t :
  pagesWithin T pages → t ≤ T → columnsWithin T cols →
  pagesWithin T (<[pi := Page.set_updatedAt t (Page.set_columns cols page)]> pages).
Proof. intros Hps Ht Hcols. by apply Forall_insert. Qed.

Lemma within_column_update T columns ci col cards t :
  columnsWithin T columns → t ≤ T → cardsWithin T cards →
  columnsWithin T (<[ci := Column.set_updatedAt t (Column.set_cards cards col)]> columns).
Proof. intros Hcols Ht Hcards. by apply Forall_insert. Qed.

Lemma within_found_page T pages pageId pi page :
  pagesWithin T pages → findPage pageId pages = Some (pi, page) →
  columnsWithin T (Page.columns page).
Proof.
  intros Hps Hp%find_lookup. by destruct (Forall_lookup_1 _ _ _ _ Hps Hp).
Qed.

Lemma within_found_column T columns columnId ci col :
  columnsWithin T columns → findColumnIn columnId columns = Some (ci, col) →
  cardsWithin T (Column.cards col).
Proof.
  intros Hcs Hc%find_lookup. by destruct (Forall_lookup_1 _ _ _ _ Hcs Hc).
Qed.

(** A reading of the clock taken [k] readings after [w] is not after the
    reading [n] readings after [w], for [k ≤ n]. *)
Ltac clock_le := apply clock_mono; simpl; lia.

Lemma takeCard_within source pages w :
  pagesWithin (clock (ticks w)) pages →
  pagesWithin (clock (ticks (takeCard clock source pages w).2))
    (takeCard clock source pages w).1.2
  ∧ (ticks w ≤ ticks (takeCard clock source pages w).2)%nat.
Proof.
  intros Hps. unfold takeCard.
  destruct (findPage _ pages) as [[pi page]|] eqn:Hp; [|done].
  destruct (findColumnIn _ (Page.columns page)) as [[ci col]|] eqn:Hc; [|done].
  destruct (findCardIn _ (Column.cards col)) as [[k card]|] eqn:Hk; [|done].
  rewrite (splice_remove _ _ card) by by eapply find_lookup.
  store_unfold. split; [|lia].
  assert (HT : clock (ticks w) ≤ clock (S (S (ticks w)))) by clock_le.
  apply (pagesWithin_weaken _ _ _ HT) in Hps.
  pose proof (within_found_page _ _ _ _ _ Hps Hp) as Hcols.
  pose proof (within_found_column _ _ _ _ _ Hcols Hc) as Hcards.
  apply within_page_update; [done|clock_le|].
  apply within_column_update; [done|clock_le|]. by apply Forall_delete.
Qed.

Lemma placeCard_within card target pages w :
  pagesWithin (clock (ticks w)) pages →
  pagesWithin (clock (ticks (placeCard clock card target pages w).2))
    (placeCard clock card target pages w).1
  ∧ (ticks w ≤ ticks (placeCard clock card target pages w).2)%nat.
Proof.
  intros Hps. unfold placeCard.
  destruct (findPage _ pages) as [[pi page]|] eqn:Hp; [|done].
  destruct (findColumnIn _ (Page.columns page)) as [[ci col]|] eqn:Hc; [|done].
  unfold mbind, M_bind, mret, M_ret, newDate. rewrite splice_insert. simpl.
  split; [|lia].
  assert (HT : clock (ticks w) ≤ clock (S (S (S (ticks w))))) by clock_le.
  apply (pagesWithin_weaken _ _ _ HT) in Hps.
  pose proof (within_found_page _ _ _ _ _ Hps Hp) as Hcols.
  pose proof (within_found_column _ _ _ _ _ Hcols Hc) as Hcards.
  apply within_page_update; [done|clock_le|].
  apply within_column_update; [done|clock_le|].
  apply Forall_insertAt; [|done]. simpl. clock_le.
Qed.

(** Each action leaves every stamp at or before the next clock reading. *)
Lemma run_within op st w :
  stampsWithin (clock (ticks w)) (workspace st) →
  stampsWithin (clock (ticks (run clock random op st w).2))
    (workspace (run clock random op st w).1).
Proof.
  unfold stampsWithin. intros [Hws Hps].
  destruct op; simpl.
  - (* setWorkspaceTitle *)
    split; [clock_le|]. eapply pagesWithin_weaken; [|done]. clock_le.
  - (* addPage *)
    split; [clock_le|]. apply Forall_app. split.
    + eapply pagesWithin_weaken; [|done]. clock_le.
    + apply Forall_cons_2; [|apply Forall_nil_2]. split; [simpl; clock_le|].
      apply Forall_nil_2.
  - (* removePage *)
    split; [clock_le|]. apply Forall_filter_keep.
    eapply pagesWithin_weaken; [|done]. clock_le.
  - (* renamePage *) unfold renamePage.
    destruct (findPage _ _) as [[pi page]|] eqn:Hp; [|done]. simpl.
    assert (HT : clock (ticks w) ≤ clock (S (S (ticks w)))) by clock_le.
    apply (pagesWithin_weaken _ _ _ HT) in Hps.
    split; [clock_le|]. apply Forall_insert; [done|].
    split; [simpl; clock_le|]. by eapply (within_found_page _ _ _ _ page).
  - (* setActivePage *)
    split; [clock_le|]. eapply pagesWithin_weaken; [|done]. clock_le.
  - (* updatePageIcon *) unfold updatePageIcon.
    destruct (findPage _ _) as [[pi page]|] eqn:Hp; [|done]. simpl.
    assert (HT : clock (ticks w) ≤ clock (S (S (ticks w)))) by clock_le.
    apply (pagesWithin_weaken _ _ _ HT) in Hps.
    split; [clock_le|]. apply Forall_insert; [done|].
    split; [simpl; clock_le|]. by eapply (within_found_page _ _ _ _ page).
  - (* addColumn *) unfold addColumn.
    destruct (findPage _ _) as [[pi page]|] eqn:Hp; [|done]. simpl.
    assert (HT : clock (ticks w) ≤ clock (S (S (S (S (S (ticks w)))))))
      by clock_le.
    apply (pagesWithin_weaken _ _ _ HT) in Hps.
    split; [clock_le|]. apply within_page_update; [done|clock_le|].
    apply Forall_app. split; [by eapply within_found_page|].
    apply Forall_cons_2; [|apply Forall_nil_2]. split; [simpl; clock_le|].
    apply Forall_nil_2.
  - (* removeColumn *) unfold removeColumn.
    destruct (findPage _ _) as [[pi page]|] eqn:Hp; [|done]. simpl.
    assert (HT : clock (ticks w) ≤ clock (S (S (ticks w)))) by clock_le.
    apply (pagesWithin_weaken _ _ _ HT) in Hps.
    split; [clock_le|]. apply within_page_update; [done|clock_le|].
    apply Forall_filter_keep. by eapply within_found_page.
  - (* renameColumn *) unfold renameColumn.
    destruct (findPage _ _) as [[pi page]|] eqn:Hp; [|done].
    destruct (findColumnIn _ _) as [[ci col]|] eqn:Hc; [|done]. simpl.
    assert (HT : clock (ticks w) ≤ clock (S (S (S (ticks w))))) by clock_le.
    apply (pagesWithin_weaken _ _ _ HT) in Hps.
    pose proof (within_found_page _ _ _ _ _ Hps Hp) as Hcols.
    split; [clock_le|]. apply within_page_update; [done|clock_le|].
    apply Forall_insert; [done|]. split; [simpl; clock_le|].
    by eapply (within_found_column _ _ _ _ col).
  - (* moveColumn *) unfold moveColumn.
    destruct (findPage _ _) as [[pi page]|] eqn:Hp; [|done].
    destruct (findColumnIn _ _) as [[ci col]|] eqn:Hc; [|done].
    rewrite (reorder_insertAt _ _ col) by by eapply find_lookup. simpl.
    assert (HT : clock (ticks w) ≤ clock (S (S (ticks w)))) by clock_le.
    apply (pagesWithin_weaken _ _ _ HT) in Hps.
    pose proof (within_found_page _ _ _ _ _ Hps Hp) as Hcols.
    split; [clock_le|]. apply within_page_update; [done|clock_le|].
    apply Forall_insertAt; [|by apply Forall_delete].
    apply (Forall_lookup_1 _ _ ci col Hcols). by eapply find_lookup.
  - (* addCard *) unfold addCard.
    destruct (findPage _ _) as [[pi page]|] eqn:Hp; [|done].
    destruct (findColumnIn _ _) as [[ci col]|] eqn:Hc; [|done]. simpl.
    assert (HT : clock (ticks w) ≤ clock (S (S (S (S (S (S (ticks w))))))))
      by clock_le.
    apply (pagesWithin_weaken _ _ _ HT) in Hps.
    pose proof (within_found_page _ _ _ _ _ Hps Hp) as Hcols.
    split; [clock_le|]. apply within_page_update; [done|clock_le|].
    apply within_column_update; [done|clock_le|].
    apply Forall_app. split; [by eapply within_found_column|].
    apply Forall_cons_2; [simpl; clock_le|apply Forall_nil_2].
  - (* removeCard *) unfold removeCard.
    destruct (findPage _ _) as [[pi page]|] eqn:Hp; [|done].
    destruct (findColumnIn _ _) as [[ci col]|] eqn:Hc; [|done]. simpl.
    assert (HT : clock (ticks w) ≤ clock (S (S (S (ticks w))))) by clock_le.
    apply (pagesWithin_weaken _ _ _ HT) in Hps.
    pose proof (within_found_page _ _ _ _ _ Hps Hp) as Hcols.
    split; [clock_le|]. apply within_page_update; [done|clock_le|].
    apply within_column_update; [done|clock_le|].
    apply Forall_filter_keep. by eapply within_found_column.
  - (* updateCard *) unfold updateCard.
    destruct (findPage _ _) as [[pi page]|] eqn:Hp; [|done].
    destruct (findColumnIn _ _) as [[ci col]|] eqn:Hc; [|done].
    destruct (findCardIn _ _) as [[k card]|] eqn:Hk; [|done]. simpl.
    assert (HT : clock (ticks w) ≤ clock (S (S (S (S (ticks w)))))) by clock_le.
    apply (pagesWithin_weaken _ _ _ HT) in Hps.
    pose proof (within_found_page _ _ _ _ _ Hps Hp) as Hcols.
    split; [clock_le|]. apply within_page_update; [done|clock_le|].
    apply within_column_update; [done|clock_le|].
    apply Forall_insert; [by eapply within_found_column|]. simpl. clock_le.
  - (* moveCard *) unfold moveCard, mbind, M_bind.
    destruct (takeCard_within source _ w Hps) as [Htake Hw1].
    destruct (takeCard clock source _ w) as [[[card|] pages1] w1]; simpl in *.
    + destruct (placeCard_within card target _ w1 Htake) as [Hplace Hw2].
      destruct (placeCard clock card target pages1 w1) as [pages2 w2]. simpl in *.
      split; [clock_le|]. eapply pagesWithin_weaken; [|done]. clock_le.
    + split; [clock_le|]. eapply pagesWithin_weaken; [|done]. clock_le.
  - (* setSelectedCardId *) done.
Qed.

(** X12. No stamp is in the future. On a clock that does not run
    backwards, in every state reachable from the store as created, by any
    calls, the [updatedAt] of the workspace and of every page, column and
    card is at most the next reading of the clock. *)
Theorem stamps_reachable st w :
  reachable clock random anyOp st w → stampsWithin (clock (ticks w)) (workspace st).
Proof.
  induction 1 as [w0 st w Hinit | op st w st' w' _ IH Hop Hrun].
  - injection Hinit as <- <-. unfold stampsWithin, pagesWithin, columnsWithin,
      cardsWithin. simpl.
    split; [clock_le|].
    repeat first [apply Forall_nil_2 | apply Forall_cons_2 | split | clock_le].
  - pose proof (run_within op st w IH) as Hr. by rewrite Hrun in Hr.
Qed.

End Stamps.

(** *** Adding and moving cards *)

Lemma find_insert_other {A} (P : A → Prop) `{∀ x, Decision (P x)} (l : list A) i j x y z :
  list_find P l = Some (j, z) → i ≠ j → l !! i = Some x → (P y → P x) →
  list_find P (<[i:=y]> l) = Some (j, z).
Proof.
  intros (Hj & Hz & Hmin)%list_find_Some Hne Hi Hxy.
  apply list_find_Some. split_and!; [by rewrite list_lookup_insert_ne|done|].
  intros k' w' Hk Hlt. destruct (decide (k' = i)) as [->|Hki].
  - rewrite list_lookup_insert_eq in Hk by by eapply lookup_lt_Some.
    injection Hk as <-. intros Hy. by apply (Hmin i x Hi Hlt), Hxy.
  - rewrite list_lookup_insert_ne in Hk by done. eauto.
Qed.

Lemma findCardInColumns_middle cardId pageId before column after k card :
  cardId ∉ Card.id <$> (before ≫= Column.cards) →
  findCardIn cardId (Column.cards column) = Some (k, card) →
  findCardInColumns cardId pageId (before ++ column :: after)
  = Some (mkFoundCard card pageId (Column.id column)).
Proof.
  intros Hbefore Hk. induction before as [|c before IH]; simpl.
  - by rewrite Hk.
  - change ((c :: before) ≫= Column.cards)
      with (Column.cards c ++ (before ≫= Column.cards)) in Hbefore.
    rewrite fmap_app, not_elem_of_app in Hbefore. destruct Hbefore as [Hc Hrest].
    apply findCardIn_None in Hc. rewrite Hc. by apply IH.
Qed.

Lemma findCardInPages_middle cardId before page after found :
  cardId ∉ Card.id <$> allCards before →
  findCardInColumns cardId (Page.id page) (Page.columns page) = Some found →
  findCardInPages cardId (before ++ page :: after) = Some found.
Proof.
  intros Hbefore Hfound. induction before as [|p before IH]; simpl.
  - by rewrite Hfound.
  - change (allCards (p :: before))
      with ((Page.columns p ≫= Column.cards) ++ allCards before) in Hbefore.
    rewrite fmap_app, not_elem_of_app in Hbefore. destruct Hbefore as [Hp Hrest].
    apply (findCardInColumns_None _ (Page.id p)) in Hp. rewrite Hp. by apply IH.
Qed.

(** X13. A card just added is found. When [addCard] addresses an existing
    page and column and the id it generates is not yet the id of a card,
    [findCard] of that id afterwards returns the new card (the given title
    and description, [columnId] the addressed column, status [todo], no
    tags, no metadata) together with the addressed [pageId] and
    [columnId]. *)
Theorem addCard_findCard pageId columnId title description st w pi page ci col :
  findPage pageId (Workspace.pages (workspace st)) = Some (pi, page) →
  findColumnIn columnId (Page.columns page) = Some (ci, col) →
  let newId := "card-" +:+ (generateId clock random w).1 in
  newId ∉ cardIds (workspace st) →
  findCard newId (addCard clock random pageId columnId title description st w).1
  = Some (mkFoundCard
            (Card.mk newId title (default "" description) columnId
               (clock (1 + ticks w)) (clock (2 + ticks w)) [] todo ∅)
            pageId columnId).
Proof.
  intros Hp Hc newId Hfresh.
  pose proof (find_lookup _ _ _ _ Hp) as Hlp.
  pose proof (find_lookup _ _ _ _ Hc) as Hlc.
  pose proof (find_holds _ _ _ _ Hp) as Hpid. simpl in Hpid.
  pose proof (find_holds _ _ _ _ Hc) as Hcid. simpl in Hcid.
  unfold cardIds, allCards in Hfresh.
  rewrite <- (take_drop_middle _ _ _ Hlp), bind_app, bind_cons in Hfresh.
  rewrite <- (take_drop_middle _ _ _ Hlc), bind_app, bind_cons in Hfresh.
  rewrite !fmap_app, !not_elem_of_app in Hfresh.
  destruct Hfresh as (Hpages & ((Hcols & Hcards & _) & _)).
  unfold findCard, addCard. rewrite Hp, Hc. simpl.
  rewrite insert_take_drop by by eapply lookup_lt_Some.
  apply findCardInPages_middle; [done|]. simpl. rewrite Hpid.
  unfold Page.columns at 1. simpl.
  rewrite insert_take_drop by by eapply lookup_lt_Some.
  erewrite findCardInColumns_middle; [by rewrite <- Hcid|done|]. simpl.
  unfold findCardIn. apply findCardIn_None in Hcards.
  rewrite list_find_app_r by exact Hcards. simpl.
  rewrite decide_True by done. simpl. by rewrite Hcid.
Qed.

(** The pages after [moveCard] on a source that resolves: those the second
    phase gives on what the first phase left. *)
Lemma moveCard_found_pages source target st w pi page ci col k card :
  findPage (src_pageId source) (Workspace.pages (workspace st)) = Some (pi, page) →
  findColumnIn (src_columnId source) (Page.columns page) = Some (ci, col) →
  findCardIn (src_cardId source) (Column.cards col) = Some (k, card) →
  Workspace.pages (workspace (moveCard clock source target st w).1)
  = (placeCard clock card target
       (<[pi := Page.set_updatedAt (clock (S (ticks w)))
                  (Page.set_columns
                     (<[ci := Column.set_updatedAt (clock (ticks w))
                                (Column.set_cards (delete k (Column.cards col)) col)]>
                        (Page.columns page)) page)]>
          (Workspace.pages (workspace st)))
       (mkWorld (S (S (ticks w))) (draws w))).1.
Proof.
  intros Hp Hc Hk. unfold moveCard. unfold mbind at 1, M_bind at 1.
  rewrite (takeCard_found _ _ _ _ _ _ _ _ _ _ Hp Hc Hk).
  unfold mbind, M_bind. by destruct (placeCard _ _ _ _ _).
Qed.

(** X14. A move between two different columns relocates the card. When the
    source resolves to the card at index [k] of a column and the target to
    another column (of the same or of another page), after [moveCard] the
    source column holds its former cards without the one at [k], and the
    target column holds its former cards with the moved card inserted at
    the target index (clamped as [splice] does; at the end when no index is
    given); the moved card carries the target's [columnId] and a fresh
    [updatedAt], its other fields unchanged. *)
Theorem moveCard_relocates source target st w pi page ci col k card pj tpage cj tcol :
  let pages := Workspace.pages (workspace st) in
  findPage (src_pageId source) pages = Some (pi, page) →
  findColumnIn (src_columnId source) (Page.columns page) = Some (ci, col) →
  findCardIn (src_cardId source) (Column.cards col) = Some (k, card) →
  findPage (tgt_pageId target) pages = Some (pj, tpage) →
  findColumnIn (tgt_columnId target) (Page.columns tpage) = Some (cj, tcol) →
  (pi, ci) ≠ (pj, cj) →
  let ws' := workspace (moveCard clock source target st w).1 in
  cardsAt pi ci ws' = Some (delete k (Column.cards col))
  ∧ cardsAt pj cj ws'
    = Some (insertAt
              (splice_start (length (Column.cards tcol))
                 (default (Z.of_nat (length (Column.cards tcol))) (tgt_index target)))
              (Card.set_updatedAt (clock (2 + ticks w))
                 (Card.set_columnId (tgt_columnId target) card))
              (Column.cards tcol)).
Proof.
  intros pages Hp Hc Hk Htp Htc Hne ws'. subst pages ws'.
  pose proof (find_lookup _ _ _ _ Hp) as Hlp.
  pose proof (find_lookup _ _ _ _ Hc) as Hlc.
  pose proof (find_lookup _ _ _ _ Htp) as Hltp.
  pose proof (find_lookup _ _ _ _ Htc) as Hltc.
  pose proof (lookup_lt_Some _ _ _ Hlp). pose proof (lookup_lt_Some _ _ _ Hlc).
  pose proof (lookup_lt_Some _ _ _ Hltp). pose proof (lookup_lt_Some _ _ _ Hltc).
  unfold cardsAt. rewrite !(moveCard_found_pages _ _ _ _ _ _ _ _ _ _ Hp Hc Hk).
  destruct (decide (pj = pi)) as [->|Hpne].
  - (* the same page *)
    assert (tpage = page) as -> by congruence.
    assert (Hcne : ci ≠ cj) by congruence.
    erewrite placeCard_found; cycle 1.
    { eapply find_insert_same; [exact Htp|]. simpl. by eapply find_holds in Htp. }
    { unfold Page.columns at 1. simpl.
      eapply find_insert_other; [exact Htc|done|exact Hlc|done]. }
    simpl. rewrite list_insert_insert_eq, list_lookup_insert_eq by done. simpl.
    unfold Page.columns in *. simpl in *. split.
    + rewrite list_lookup_insert_ne by done.
      by rewrite list_lookup_insert_eq by done.
    + by rewrite list_lookup_insert_eq by (by rewrite length_insert).
  - (* another page *)
    erewrite placeCard_found; cycle 1.
    { eapply find_insert_other; [exact Htp|done|exact Hlp|]. simpl. done. }
    { exact Htc. }
    simpl. split.
    + rewrite list_lookup_insert_ne by done.
      rewrite list_lookup_insert_eq by done. simpl.
      unfold Page.columns in *. simpl in *. by rewrite list_lookup_insert_eq by done.
    + rewrite list_lookup_insert_eq by (by rewrite length_insert). simpl.
      unfold Page.columns in *. simpl in *. by rewrite list_lookup_insert_eq by done.
Qed.

End StoreExtras.

(** ** Further properties of the export and import service *)

Section ServiceProperties.
Variable JSON_parse : string → Result JSON.
Variable typeErrorMessage : Value → string → string.
Variable clock : nat → Z.
Variable parseDate : string → option Z.
Variable toISOString : Z → string.
Variable dateToString : Z → string.
Variable JSON_stringify : JSON → string.
Variable slug : string → string.
Variable display : Value → string.

Implicit Types (data : JSON) (file : File) (options : ImportOptions) (ws : Workspace.t).

(** X15. Read and parse failures are reported, not thrown: an unreadable
    file gives [Import failed: File reading error], an empty file
    [Import failed: Failed to read file] (its text is never parsed), and a
    text [JSON.parse] rejects gives [Import failed: ] followed by the
    parser's message; each with [success = false] and nothing imported. *)
Theorem importWorkspace_read_failures options :
  let failed msg :=
    ImportResult.mk false ("Import failed: " +:+ msg) (ImportResult.mkCounts 0 0 0) [] in
  importWorkspace JSON_parse typeErrorMessage FileUnreadable options
  = failed "File reading error"
  ∧ importWorkspace JSON_parse typeErrorMessage (FileText "") options
    = failed "Failed to read file"
  ∧ (∀ content e,
      content ≠ "" → JSON_parse content = Throw e →
      importWorkspace JSON_parse typeErrorMessage (FileText content) options
      = failed (exn_message e)).
Proof.
  intros failed. split_and!; [done..|].
  intros content e Hne Hparse. unfold importWorkspace, tryImport. simpl.
  rewrite decide_False by done. simpl. by rewrite Hparse.
Qed.

(** X16. Success is reported only for data that was read, parsed and
    accepted: when [importWorkspace] answers [success = true], the file had
    a non-empty text that parsed to a value the shape check accepted, which
    has the minimal shape, and the result lists no conflict. *)
Theorem importWorkspace_success file options :
  ImportResult.success (importWorkspace JSON_parse typeErrorMessage file options) = true →
  ∃ content data,
    file = FileText content ∧ content ≠ ""
    ∧ JSON_parse content = Ok data
    ∧ validateImportData typeErrorMessage data = Ok true
    ∧ importShape data = true
    ∧ ImportResult.conflicts (importWorkspace JSON_parse typeErrorMessage file options)
      = [].
Proof.
  unfold importWorkspace, tryImport.
  destruct file as [content|]; simpl; [|done].
  case_decide as Hne; simpl; [done|].
  destruct (JSON_parse content) as [data|] eqn:Hparse; simpl; [|done].
  destruct (validateImportData typeErrorMessage data) as [[|]|] eqn:Hv; simpl;
    [|done..].
  intros Hsuccess. exists content, data. split_and!; try done.
  - by eapply validateImportData_shape.
  - unfold processImport in *.
    destruct (get _ (Some data) "workspace") as [w|]; simpl in *; [|done].
    destruct (get _ w "pages") as [pages|]; simpl in *; [|done].
    by destruct (forEachOf _ pages _ _).
Qed.

(** *** What was written can be read back *)

Lemma validPage_pageJSON (page : Page.t) :
  validPage typeErrorMessage (pageJSON toISOString page)
  = Ok (bool_decide (Page.id page ≠ "") && bool_decide (Page.title page ≠ "")).
Proof.
  unfold validPage, pageJSON. simpl.
  destruct (bool_decide (Page.id page ≠ "")); simpl; [|done].
  by destruct (bool_decide (Page.title page ≠ "")).
Qed.

Lemma every_pageJSON (pages : list Page.t) :
  every (validPage typeErrorMessage) (pageJSON toISOString <$> pages)
  = Ok (importable pages).
Proof.
  induction pages as [|page pages IH]; simpl; [done|].
  rewrite validPage_pageJSON. simpl.
  destruct (bool_decide (Page.id page ≠ "") && bool_decide (Page.title page ≠ ""));
    simpl; [exact IH|done].
Qed.

Lemma forEach_cards (cards : list Card.t) (n : ImportResult.counts) :
  forEach (λ _ n, mret (incCards n)) (cardJSON toISOString <$> cards) n
  = Ok (ImportResult.mkCounts (ImportResult.pages n) (ImportResult.columns n)
          (ImportResult.cards n + length cards)).
Proof.
  revert n. induction cards as [|card cards IH]; intros [p c k]; simpl.
  - by rewrite Nat.add_0_r.
  - rewrite IH. simpl. do 2 f_equal. lia.
Qed.

Lemma forEach_columns (columns : list Column.t) (n : ImportResult.counts) :
  forEach
    (λ column n,
       let n := incColumns n in
       cards ← get typeErrorMessage (Some column) "cards";
       forEachOf typeErrorMessage cards (λ _ n, mret (incCards n)) n)
    (columnJSON toISOString <$> columns) n
  = Ok (ImportResult.mkCounts (ImportResult.pages n)
          (ImportResult.columns n + length columns)
          (ImportResult.cards n + length (columns ≫= Column.cards))).
Proof.
  revert n. induction columns as [|column columns IH]; intros [p c k].
  - simpl. by rewrite !Nat.add_0_r.
  - change ((column :: columns) ≫= Column.cards)
      with (Column.cards column ++ (columns ≫= Column.cards)).
    simpl. rewrite forEach_cards. simpl. rewrite IH. simpl.
    rewrite length_app. do 2 f_equal; lia.
Qed.

Lemma forEach_pages (pages : list Page.t) (n : ImportResult.counts) :
  forEach
    (λ page n,
       let n := incPages n in
       board ← get typeErrorMessage (Some page) "board";
       columns ← get typeErrorMessage board "columns";
       forEachOf typeErrorMessage columns
         (λ column n,
            let n := incColumns n in
            cards ← get typeErrorMessage (Some column) "cards";
            forEachOf typeErrorMessage cards (λ _ n, mret (incCards n)) n) n)
    (pageJSON toISOString <$> pages) n
  = Ok (ImportResult.mkCounts (ImportResult.pages n + length pages)
          (ImportResult.columns n + length (pages ≫= Page.columns))
          (ImportResult.cards n + length (allCards pages))).
Proof.
  revert n. induction pages as [|page pages IH]; intros [p c k].
  - simpl. by rewrite !Nat.add_0_r.
  - change ((page :: pages) ≫= Page.columns)
      with (Page.columns page ++ (pages ≫= Page.columns)).
    change (allCards (page :: pages))
      with ((Page.columns page ≫= Column.cards) ++ allCards pages).
    simpl. rewrite forEach_columns. simpl. rewrite IH. simpl.
    rewrite !length_app. f_equal. f_equal; lia.
Qed.

Lemma import_pages content members wsMembers pages options :
  content ≠ "" →
  JSON_parse content = Ok (JObject members) →
  member "workspace" members = Some (JObject wsMembers) →
  member "pages" wsMembers = Some (JArray (pageJSON toISOString <$> pages)) →
  importWorkspace JSON_parse typeErrorMessage (FileText content) options
  = importOutcome pages.
Proof.
  intros Hne Hparse Hws Hpages.
  unfold importWorkspace, tryImport, importOutcome. simpl.
  rewrite decide_False by done. simpl. rewrite Hparse. simpl.
  unfold validateImportData. simpl. rewrite Hws. simpl. rewrite Hpages.
  rewrite every_pageJSON. simpl.
  destruct (importable pages); simpl; [|done].
  unfold processImport. simpl. rewrite Hws. simpl. rewrite Hpages. simpl.
  by rewrite forEach_pages.
Qed.

Lemma analytics_counts (pages : list Page.t) :
  pagesCount (generateAnalytics pages) = length pages
  ∧ columnsCount (generateAnalytics pages) = length (pages ≫= Page.columns)
  ∧ totalCards (generateAnalytics pages) = length (allCards pages).
Proof.
  unfold generateAnalytics, allCards. simpl. split_and!; [done| |].
  - by rewrite (reduce_count _ Page.columns).
  - rewrite (reduce_count _ (λ p, Page.columns p ≫= Column.cards)); [done|].
    intros p. by rewrite (reduce_count _ Column.cards).
Qed.

Lemma prepareExportData_analytics ws exportOptions w :
  export_analytics (prepareExportData clock parseDate toISOString ws exportOptions w).1
  = if includeAnalytics exportOptions
    then Some (generateAnalytics
                 (export_pages
                    (prepareExportData clock parseDate toISOString ws exportOptions w).1))
    else None.
Proof. done. Qed.

(** X17. Export, then import. Let the JSON export of a workspace be
    written and read back ([JSON.parse] returning the value
    [JSON.stringify] was given). Then [importWorkspace] succeeds exactly
    when every exported page has a non-empty id and a non-empty title, and
    otherwise answers [Import failed: Invalid import data format]; on
    success it reports the numbers of exported pages, columns and cards,
    which are the [pagesCount], [columnsCount] and [totalCards] of the
    analytics summary when the export carries one. *)
Theorem export_import_roundtrip ws exportOptions options w :
  let prepared := prepareExportData clock parseDate toISOString ws exportOptions w in
  let data := prepared.1 in
  let file := (exportAsJSON clock toISOString JSON_stringify data exportOptions
                 prepared.2).1 in
  download_content file ≠ "" →
  JSON_parse (download_content file) = Ok (exportDataJSON toISOString data) →
  let r := importWorkspace JSON_parse typeErrorMessage
             (FileText (download_content file)) options in
  r = importOutcome (export_pages data)
  ∧ (ImportResult.success r = true ↔ importable (export_pages data) = true)
  ∧ (∀ a, export_analytics data = Some a → ImportResult.success r = true →
       ImportResult.imported r
       = ImportResult.mkCounts (pagesCount a) (columnsCount a) (totalCards a)).
Proof.
  intros prepared data file Hne Hparse r.
  assert (Hr : r = importOutcome (export_pages data)).
  { subst r. eapply import_pages; [done|exact Hparse|done..]. }
  split_and!; [done| |].
  - rewrite Hr. unfold importOutcome. by destruct (importable _).
  - intros a Ha. subst data prepared. rewrite prepareExportData_analytics in Ha.
    destruct (includeAnalytics exportOptions); [|done]. injection Ha as <-.
    rewrite Hr. unfold importOutcome. destruct (importable _); [|done]. intros _.
    cbn [ImportResult.imported].
    destruct (analytics_counts
                (export_pages
                   (prepareExportData clock parseDate toISOString ws exportOptions w).1))
      as (Hpages & Hcolumns & Hcards).
    f_equal;
      first [exact (eq_sym Hpages)|exact (eq_sym Hcolumns)|exact (eq_sym Hcards)].
Qed.

(** X18. Backup, then restore. For a backup written and read back,
    [restoreFromBackup] succeeds exactly when every page of the workspace
    has a non-empty id and title, and then reports the workspace's numbers
    of pages, columns and cards; the backup's own [totalPages] and
    [totalCards] are those numbers of pages and cards. *)
Theorem backup_restore_roundtrip ws w :
  let file := (createBackup clock toISOString JSON_stringify ws w).1 in
  let backup := backupJSON toISOString ws (toISOString (clock (ticks w))) in
  download_content file ≠ "" →
  JSON_parse (download_content file) = Ok backup →
  restoreFromBackup JSON_parse typeErrorMessage (FileText (download_content file))
  = importOutcome (Workspace.pages ws)
  ∧ (∃ members,
       backup = JObject members
       ∧ member "metadata" members
         = Some (JObject
                   [("totalCards", countJSON (length (allCards (Workspace.pages ws))));
                    ("totalPages", countJSON (length (Workspace.pages ws)))])).
Proof.
  intros file backup Hne Hparse. split.
  - unfold restoreFromBackup. eapply import_pages; [done|exact Hparse|done..].
  - eexists. split; [done|]. simpl. do 5 f_equal.
    unfold allCards.
    rewrite (reduce_count _ (λ p, Page.columns p ≫= Column.cards)); [done|].
    intros p. by rewrite (reduce_count _ Column.cards).
Qed.

(** X19. Save a template, then load it. For a template file written and
    read back, [loadFromTemplate] succeeds with the message
    [Template "<name>" loaded successfully] and the template, unless the
    name is empty: an empty name makes the saved file fail to load with
    [Failed to load template: Invalid template format]. A template file is
    never accepted by [importWorkspace]: it has no [workspace]. *)
Theorem template_roundtrip ws templateName options w :
  let file := (saveAsTemplate clock toISOString JSON_stringify slug ws templateName w).1 in
  let template := templateJSON ws templateName (toISOString (clock (ticks w))) in
  download_content file ≠ "" →
  JSON_parse (download_content file) = Ok template →
  loadFromTemplate JSON_parse typeErrorMessage display
    (FileText (download_content file))
  = (if decide (templateName = "")
     then mkTemplateResult false "Failed to load template: Invalid template format" None
     else mkTemplateResult true
            ("Template " +:+ quoted templateName +:+ " loaded successfully")
            (Some template))
  ∧ importWorkspace JSON_parse typeErrorMessage (FileText (download_content file))
      options
    = ImportResult.mk false "Import failed: Invalid import data format"
        (ImportResult.mkCounts 0 0 0) [].
Proof.
  intros file template Hne Hparse. split.
  - unfold loadFromTemplate, tryLoadTemplate. simpl.
    rewrite decide_False by done. simpl.
    subst file. simpl in Hparse. rewrite Hparse. simpl.
    case_decide as Hname.
    + subst templateName. done.
    + by rewrite bool_decide_eq_true_2.
  - unfold importWorkspace, tryImport. simpl.
    rewrite decide_False by done. simpl.
    subst file. simpl in Hparse. by rewrite Hparse.
Qed.

(** *** What is exported *)

Lemma fmap_filter_comm {A B} (f : A → B) (P : B → Prop) `{∀ y, Decision (P y)}
    (l : list A) :
  f <$> filter (λ x, P (f x)) l = filter P (f <$> l).
Proof.
  induction l as [|x l IH]; [done|]. rewrite fmap_cons, !filter_cons.
  destruct (decide (P (f x))); by rewrite ?fmap_cons, IH.
Qed.

(** The pages [prepareExportData] exports are the selected ones, each with
    its columns mapped by the date filter. *)
Lemma prepareExportData_pages ws exportOptions w :
  export_pages (prepareExportData clock parseDate toISOString ws exportOptions w).1
  = (match dateRange exportOptions with
     | Some range =>
         fmap (λ page,
           Page.set_columns
             ((λ column,
                 Column.set_cards
                   (filter (λ card,
                      inDateRange (parseDate (range_from range))
                        (parseDate (range_to range)) card = true)
                      (Column.cards column)) column)
                <$> Page.columns page) page)
     | None => id
     end)
      (match selectedPages exportOptions with
       | Some ((_ :: _) as selected) =>
           filter (λ page, Page.id page ∈ selected) (Workspace.pages ws)
       | _ => Workspace.pages ws
       end).
Proof. unfold prepareExportData. simpl. by destruct (dateRange exportOptions). Qed.

(** X20. Page selection. The ids of the exported pages are the ids of the
    workspace's pages that occur in [selectedPages], in the workspace's
    order and whatever the date range; a missing or an empty selection
    exports every page, and selected ids no page carries are ignored. *)
Theorem prepareExportData_selection ws exportOptions w :
  Page.id <$>
    export_pages (prepareExportData clock parseDate toISOString ws exportOptions w).1
  = match selectedPages exportOptions with
    | Some ((_ :: _) as selected) =>
        filter (λ i, i ∈ selected) (Page.id <$> Workspace.pages ws)
    | _ => Page.id <$> Workspace.pages ws
    end.
Proof.
  rewrite prepareExportData_pages.
  assert (Hids : ∀ pages : list Page.t,
             Page.id <$>
               (match dateRange exportOptions with
                | Some range =>
                    fmap (λ page,
                      Page.set_columns
                        ((λ column,
                            Column.set_cards
                              (filter (λ card,
                                 inDateRange (parseDate (range_from range))
                                   (parseDate (range_to range)) card = true)
                                 (Column.cards column)) column)
                           <$> Page.columns page) page)
                | None => id
                end) pages
             = Page.id <$> pages).
  { intros pages. destruct (dateRange exportOptions) as [range|]; [|done].
    rewrite <- list_fmap_compose. by apply list_fmap_ext. }
  rewrite Hids.
  destruct (selectedPages exportOptions) as [[|i selected]|]; [done| |done].
  exact (fmap_filter_comm Page.id (λ j, j ∈ i :: selected) (Workspace.pages ws)).
Qed.

Section DateRange.
Variable fromDate toDate : option Z.

Let keep (card : Card.t) : Prop := inDateRange fromDate toDate card = true.
Let filterColumn (column : Column.t) : Column.t :=
  Column.set_cards (filter keep (Column.cards column)) column.
Let filterPage (page : Page.t) : Page.t :=
  Page.set_columns (filterColumn <$> Page.columns page) page.

Lemma filterPage_cards (pages : list Page.t) :
  allCards (filterPage <$> pages) = filter keep (allCards pages).
Proof.
  induction pages as [|page pages IH]; [done|].
  rewrite fmap_cons.
  change (allCards (filterPage page :: (filterPage <$> pages)))
    with ((Page.columns (filterPage page) ≫= Column.cards)
            ++ allCards (filterPage <$> pages)).
  change (allCards (page :: pages))
    with ((Page.columns page ≫= Column.cards) ++ allCards pages).
  rewrite filter_app, IH. f_equal.
  unfold filterPage, Page.columns. simpl.
  induction (Board.columns (Page.board page)) as [|column columns IHc]; [done|].
  rewrite fmap_cons, !bind_cons, filter_app, IHc. done.
Qed.

Lemma filterPage_columnIds (pages : list Page.t) :
  (λ p, Column.id <$> Page.columns p) <$> (filterPage <$> pages)
  = (λ p, Column.id <$> Page.columns p) <$> pages.
Proof.
  rewrite <- list_fmap_compose. apply list_fmap_ext. intros _ page _. simpl.
  unfold filterPage, Page.columns. simpl.
  rewrite <- list_fmap_compose. by apply list_fmap_ext.
Qed.

Lemma keep_none (cards : list Card.t) :
  fromDate = None ∨ toDate = None
  ∨ (∃ f t, fromDate = Some f ∧ toDate = Some t ∧ t < f) →
  filter keep cards = [].
Proof.
  intros Hcase. induction cards as [|card cards IH]; [done|].
  rewrite filter_cons_False; [done|]. unfold keep, inDateRange.
  destruct Hcase as [->|[->|(f & t & -> & -> & Hlt)]].
  - done.
  - by destruct fromDate.
  - intros [Hf Ht]%andb_prop. apply bool_decide_eq_true_1 in Hf, Ht. lia.
Qed.

End DateRange.

(** X21. Date range. With a date range the export keeps every selected
    page and every column, in order, and drops cards only: the exported
    cards are those of the selected pages created between the two bounds
    (inclusive), in order. When a bound is not a valid date, or the range
    is inverted, no card is exported; the pages and columns still are. *)
Theorem prepareExportData_dateRange ws exportOptions range w :
  dateRange exportOptions = Some range →
  let unfiltered :=
    export_pages
      (prepareExportData clock parseDate toISOString ws
         (mkExportOptions (format exportOptions) (includeMetadata exportOptions)
            (includeAnalytics exportOptions) None (selectedPages exportOptions)) w).1 in
  let exported :=
    export_pages (prepareExportData clock parseDate toISOString ws exportOptions w).1 in
  let fromDate := parseDate (range_from range) in
  let toDate := parseDate (range_to range) in
  Page.id <$> exported = Page.id <$> unfiltered
  ∧ (λ p, Column.id <$> Page.columns p) <$> exported
    = (λ p, Column.id <$> Page.columns p) <$> unfiltered
  ∧ allCards exported
    = filter (λ card, inDateRange fromDate toDate card = true) (allCards unfiltered)
  ∧ (fromDate = None ∨ toDate = None
     ∨ (∃ f t, fromDate = Some f ∧ toDate = Some t ∧ t < f) →
     allCards exported = []).
Proof.
  intros Hrange unfiltered exported fromDate toDate.
  assert (Hexp : exported
                 = (λ page,
                      Page.set_columns
                        ((λ column,
                            Column.set_cards
                              (filter (λ card, inDateRange fromDate toDate card = true)
                                 (Column.cards column)) column)
                           <$> Page.columns page) page) <$> unfiltered).
  { subst exported unfiltered. rewrite !prepareExportData_pages. simpl.
    by rewrite Hrange. }
  split_and!.
  - rewrite Hexp, <- list_fmap_compose. by apply list_fmap_ext.
  - rewrite Hexp. apply filterPage_columnIds.
  - rewrite Hexp. apply filterPage_cards.
  - intros Hcase. rewrite Hexp, filterPage_cards. by apply keep_none.
Qed.

Lemma length_csvRows (pages : list Page.t) :
  length (csvRows dateToString pages) = S (length (allCards pages)).
Proof.
  unfold csvRows. simpl. f_equal.
  induction pages as [|page pages IH]; [done|].
  change (allCards (page :: pages))
    with ((Page.columns page ≫= Column.cards) ++ allCards pages).
  rewrite bind_cons, !length_app, IH. f_equal.
  induction (Page.columns page) as [|column columns IHc]; [done|].
  rewrite !bind_cons, !length_app, IHc. f_equal.
  induction (Column.cards column) as [|card cards IHk]; [done|].
  rewrite bind_cons, length_app, IHk. done.
Qed.

(** X22. The CSV export has one row per card after the header: the number
    of rows is one more than the number of exported cards, and a workspace
    without cards exports the header line alone, as [text/csv] in a file
    named [workspace-export-<day>.csv]. *)
Theorem exportAsCSV_rows (data : ExportData) exportOptions w :
  let file := (exportAsCSV clock toISOString dateToString data exportOptions w).1 in
  length (csvRows dateToString (export_pages data))
  = S (length (allCards (export_pages data)))
  ∧ download_content file
    = String.concat newline (csvRows dateToString (export_pages data))
  ∧ download_type file = "text/csv"
  ∧ download_name file
    = "workspace-export-" +:+ beforeT (toISOString (clock (ticks w))) +:+ ".csv"
  ∧ (allCards (export_pages data) = [] →
     download_content file
     = "Page,Column,Card Title,Description,Status,Tags,Created At,Updated At").
Proof.
  intros file. split_and!; [apply length_csvRows|done..|].
  intros Hnone. subst file. simpl.
  pose proof (length_csvRows (export_pages data)) as Hlen. rewrite Hnone in Hlen.
  unfold csvRows in *. simpl in Hlen. injection Hlen as Hlen.
  apply nil_length_inv in Hlen. by rewrite Hlen.
Qed.

End ServiceProperties.

(** ** The further properties at concrete inputs *)

Lemma notFound_noop_witness :
  ("page-none" ∉ Page.id <$> Workspace.pages (workspace Example.board))
  ∧ renamePage Example.clock "page-none" "New" Example.board Example.world0
    = (Example.board, Example.world0)
  ∧ moveColumn Example.clock "p1" "col-none" 0 Example.board Example.world0
    = (Example.board, Example.world0).
Proof.
  assert (Hn : "page-none" ∉ Page.id <$> Workspace.pages (workspace Example.board)).
  { apply (bool_decide_unpack _). by vm_compute. }
  destruct (notFound_noop Example.clock Example.random Example.board Example.world0)
    as (Hpage & Hcolumn & _).
  split_and!; [exact Hn|by apply Hpage|].
  apply (Hcolumn "p1" "col-none" 0%nat Example.page1); [by vm_compute|].
  apply (bool_decide_unpack _). by vm_compute.
Defined.

Lemma moveCard_source_missing_witness :
  moveCard Example.clock (mkSource "p1" "c3" "k1") (mkTarget "p1" "c2" None)
    Example.board Example.world0
  = (set_workspace (Workspace.set_updatedAt 1000 (workspace Example.board))
       Example.board,
     mkWorld 1 0).
Proof.
  apply (moveCard_source_missing Example.clock).
  intros pi page ci col Hp Hc.
  vm_compute in Hp. injection Hp as <- <-.
  vm_compute in Hc. injection Hc as <- <-.
  apply not_elem_of_nil.
Defined.

Lemma selection_frame_witness :
  selectedCardId
    (run Example.clock Example.random (RemoveCard "p1" "c1" "k1") Example.board
       Example.world0).1
  = selectedCardId Example.board
  ∨ ∃ pageId columnId cardId,
      RemoveCard "p1" "c1" "k1" = RemoveCard pageId columnId cardId
      ∧ selectedCardId Example.board = Some cardId
      ∧ selectedCardId
          (run Example.clock Example.random (RemoveCard "p1" "c1" "k1") Example.board
             Example.world0).1
        = None.
Proof.
  apply (selection_frame Example.clock Example.random (RemoveCard "p1" "c1" "k1")).
  intros cardId. discriminate.
Defined.

Lemma removed_not_found_witness :
  findPage "p1" (Workspace.pages (workspace Example.board)) = Some (0%nat, Example.page1)
  ∧ findColumnIn "c2" (Page.columns Example.page1) = Some (1%nat, Example.column2)
  ∧ cardsAt 0 1
      (workspace (removeCard Example.clock "p1" "c2" "k3" Example.board Example.world0).1)
    = Some []
  ∧ selectedCardId
      (removeCard Example.clock "p1" "c2" "k3" Example.board Example.world0).1
    = None.
Proof.
  destruct (removed_not_found Example.clock Example.board Example.world0)
    as (_ & _ & Hcard).
  destruct (Hcard "p1" "c2" "k3" 0%nat Example.page1 1%nat Example.column2
              eq_refl eq_refl) as (Hcards & _ & Hselected & _).
  split_and!; [done|done| |by apply Hselected].
  rewrite Hcards. by vm_compute.
Defined.

Lemma handleDragEnd_places_witness :
  String.prefix "col-" "col-a" = true
  ∧ findColumnIn "col-a" (Page.columns Sample.page) = Some (0%nat, Sample.columnA)
  ∧ findColumnIn "col-c" (Page.columns Sample.page) = Some (2%nat, Sample.columnC)
  ∧ ∃ page',
      Workspace.pages
        (workspace
           (handleDragEnd Example.clock "page-1" "col-a" (Some "col-c") Sample.kanban
              Example.world0).1) !! 0%nat
      = Some page'
      ∧ Page.columns page' !! 2%nat = Some Sample.columnA
      ∧ delete 2%nat (Page.columns page') = delete 0%nat (Page.columns Sample.page).
Proof.
  assert (Hpre : String.prefix "col-" "col-a" = true) by by vm_compute.
  split_and!; [exact Hpre|by vm_compute..|].
  apply (handleDragEnd_places Example.clock "page-1" "col-a" "col-c" Sample.kanban
           Example.world0 0%nat Sample.page 0%nat Sample.columnA 2%nat Sample.columnC);
    [by vm_compute|exact Hpre|by vm_compute|by vm_compute|lia].
Defined.

Lemma handleDragEnd_ignored_witness :
  handleDragEnd Example.clock "page-1" "col-a" None Sample.kanban Example.world0
  = (Sample.kanban, Example.world0)
  ∧ handleDragEnd Example.clock "p1" "k1" (Some "c2") Example.board Example.world0
    = (Example.board, Example.world0).
Proof.
  split.
  - apply (handleDragEnd_ignored Example.clock). by left.
  - apply (handleDragEnd_ignored Example.clock). right. left. by vm_compute.
Defined.

Lemma pages_frame_witness :
  Page.id <$>
    Workspace.pages
      (workspace
         (run Example.clock Example.random (MoveColumn "p1" "c1" 2) Example.board
            Example.world0).1)
  = ["p1"; "p2"].
Proof.
  destruct (pages_frame Example.clock Example.random (MoveColumn "p1" "c1" 2)
              Example.board Example.world0) as [Hids _]; [discriminate..|].
  rewrite Hids. by vm_compute.
Defined.

Lemma activePage_reachable_witness :
  let r := run Example.clock Example.random (RemovePage Example.welcomePage)
             Example.created Example.world1 in
  reachable Example.clock Example.random keepsActivePage r.1 r.2
  ∧ activePageValid (workspace r.1).
Proof.
  intros r.
  assert (Hreach : reachable Example.clock Example.random keepsActivePage r.1 r.2).
  { eapply (reachable_step _ _ _ (RemovePage Example.welcomePage)
              Example.created Example.world1).
    - by apply (reachable_init _ _ _ Example.world0).
    - done.
    - apply surjective_pairing. }
  split; [exact Hreach|].
  exact (activePage_reachable Example.clock Example.random r.1 r.2 Hreach).
Defined.

Lemma ids_reachable_witness :
  let r := run Example.clock Example.random (AddColumn Example.welcomePage "Doing")
             Example.created Example.world1 in
  reachable Example.clock Example.random anyOp r.1 r.2
  ∧ idsPrefixed (workspace r.1).
Proof.
  intros r.
  assert (Hreach : reachable Example.clock Example.random anyOp r.1 r.2).
  { eapply (reachable_step _ _ _ (AddColumn Example.welcomePage "Doing")
              Example.created Example.world1).
    - by apply (reachable_init _ _ _ Example.world0).
    - done.
    - apply surjective_pairing. }
  split; [exact Hreach|].
  exact (proj1 (ids_reachable Example.clock Example.random r.1 r.2 Hreach)).
Defined.

Lemma stamps_reachable_witness :
  let r := run Example.clock Example.random
             (UpdateCard Example.welcomePage Example.toDo Example.welcomeCard
                PartialCard.empty)
             Example.created Example.world1 in
  reachable Example.clock Example.random anyOp r.1 r.2
  ∧ stampsWithin (Example.clock (ticks r.2)) (workspace r.1).
Proof.
  intros r.
  assert (Hreach : reachable Example.clock Example.random anyOp r.1 r.2).
  { eapply (reachable_step _ _ _ _ Example.created Example.world1).
    - by apply (reachable_init _ _ _ Example.world0).
    - done.
    - apply surjective_pairing. }
  split; [exact Hreach|].
  exact (stamps_reachable Example.clock Example.random Example_clock_mono r.1 r.2 Hreach).
Defined.

Lemma addCard_findCard_witness :
  ("card-1011-r3" ∉ cardIds (workspace Example.created))
  ∧ findCard "card-1011-r3"
      (addCard Example.clock Example.random Example.welcomePage Example.toDo "Next" None
         Example.created Example.world1).1
    = Some (mkFoundCard
              (Card.mk "card-1011-r3" "Next" "" Example.toDo 1012 1013 [] todo ∅)
              Example.welcomePage Example.toDo).
Proof.
  assert (Hfresh : "card-1011-r3" ∉ cardIds (workspace Example.created)).
  { apply (bool_decide_unpack _). by vm_compute. }
  split; [exact Hfresh|].
  eapply (addCard_findCard Example.clock Example.random Example.welcomePage Example.toDo
            "Next" None Example.created Example.world1);
    [by vm_compute|by vm_compute|exact Hfresh].
Defined.

Lemma moveCard_relocates_witness :
  let ws' := workspace
               (moveCard Example.clock (mkSource "p1" "c1" "k1") (mkTarget "p1" "c2" None)
                  Example.board Example.world0).1 in
  findCardIn "k1" (Column.cards Example.column1) = Some (0%nat, Example.card1)
  ∧ cardsAt 0 0 ws' = Some [Example.card2]
  ∧ cardsAt 0 1 ws'
    = Some [Example.card3;
            Card.set_updatedAt 1002 (Card.set_columnId "c2" Example.card1)].
Proof.
  intros ws'.
  destruct (moveCard_relocates Example.clock (mkSource "p1" "c1" "k1")
              (mkTarget "p1" "c2" None) Example.board Example.world0
              0%nat Example.page1 0%nat Example.column1 0%nat Example.card1
              0%nat Example.page1 1%nat Example.column2
              eq_refl eq_refl eq_refl eq_refl eq_refl ltac:(discriminate))
    as [Hsource Htarget].
  split_and!; [done| |].
  - subst ws'. rewrite Hsource. by vm_compute.
  - subst ws'. rewrite Htarget. by vm_compute.
Defined.

Lemma importWorkspace_read_failures_witness :
  Example.parse "{" = Throw (mkError "Unexpected token")
  ∧ importWorkspace Example.parse Example.typeErrorMessage (FileText "{") Example.options
    = ImportResult.mk false "Import failed: Unexpected token"
        (ImportResult.mkCounts 0 0 0) [].
Proof.
  destruct (importWorkspace_read_failures Example.parse Example.typeErrorMessage
              Example.options) as (_ & _ & Hparse).
  split; [done|].
  by apply (Hparse "{" (mkError "Unexpected token")).
Defined.

Lemma importWorkspace_success_witness :
  ImportResult.success
    (importWorkspace Sample.parseExport Example.typeErrorMessage (FileText "{ }")
       Example.options)
  = true
  ∧ ∃ content data,
      FileText "{ }" = FileText content ∧ content ≠ ""
      ∧ Sample.parseExport content = Ok data
      ∧ validateImportData Example.typeErrorMessage data = Ok true
      ∧ importShape data = true
      ∧ ImportResult.conflicts
          (importWorkspace Sample.parseExport Example.typeErrorMessage (FileText "{ }")
             Example.options)
        = [].
Proof.
  assert (Hsuccess :
            ImportResult.success
              (importWorkspace Sample.parseExport Example.typeErrorMessage
                 (FileText "{ }") Example.options)
            = true) by by vm_compute.
  split; [exact Hsuccess|].
  exact (importWorkspace_success Sample.parseExport Example.typeErrorMessage
           (FileText "{ }") Example.options Hsuccess).
Defined.

Lemma export_import_roundtrip_witness :
  let file := (exportAsJSON Example.clock Sample.toISOString Sample.stringify
                 Sample.prepared.1 Sample.exportOptions Sample.prepared.2).1 in
  download_content file = "{ }"
  ∧ download_name file = "workspace-export-2026-11-02.json"
  ∧ importWorkspace Sample.parseExport Example.typeErrorMessage
      (FileText (download_content file)) Example.options
    = ImportResult.mk true "Successfully imported 1 pages, 3 columns, and 2 cards"
        (ImportResult.mkCounts 1 3 2) [].
Proof.
  intros file.
  destruct (export_import_roundtrip Sample.parseExport Example.typeErrorMessage
              Example.clock Sample.parseDate Sample.toISOString Sample.stringify
              (workspace Example.board) Sample.exportOptions Example.options
              Example.world0 ltac:(discriminate) eq_refl) as [Hresult _].
  split_and!; [by vm_compute|by vm_compute|].
  subst file. unfold Sample.prepared. rewrite Hresult. by vm_compute.
Defined.

Lemma backup_restore_roundtrip_witness :
  let file := (createBackup Example.clock Sample.toISOString Sample.stringify
                 (workspace Example.board) Example.world0).1 in
  download_content file = "{ }"
  ∧ download_name file = "workspace-backup-2026-11-02.json"
  ∧ restoreFromBackup Sample.parseBackup Example.typeErrorMessage
      (FileText (download_content file))
    = ImportResult.mk true "Successfully imported 2 pages, 3 columns, and 3 cards"
        (ImportResult.mkCounts 2 3 3) [].
Proof.
  intros file.
  destruct (backup_restore_roundtrip Sample.parseBackup Example.typeErrorMessage
              Example.clock Sample.toISOString Sample.stringify
              (workspace Example.board) Example.world0 ltac:(discriminate) eq_refl)
    as [Hresult _].
  split_and!; [by vm_compute|by vm_compute|].
  subst file. rewrite Hresult. by vm_compute.
Defined.

Lemma template_roundtrip_witness :
  let file := (saveAsTemplate Example.clock Sample.toISOString Sample.stringify
                 Sample.slug (workspace Example.board) "My T" Example.world0).1 in
  download_content file = "{ }"
  ∧ loadFromTemplate Sample.parseTemplate Example.typeErrorMessage Sample.display
      (FileText (download_content file))
    = mkTemplateResult true ("Template " +:+ quoted "My T" +:+ " loaded successfully")
        (Some (templateJSON (workspace Example.board) "My T"
                 (Sample.toISOString (Example.clock 0))))
  ∧ importWorkspace Sample.parseTemplate Example.typeErrorMessage
      (FileText (download_content file)) Example.options
    = ImportResult.mk false "Import failed: Invalid import data format"
        (ImportResult.mkCounts 0 0 0) [].
Proof.
  intros file.
  destruct (template_roundtrip Sample.parseTemplate Example.typeErrorMessage
              Example.clock Sample.toISOString Sample.stringify Sample.slug
              Sample.display (workspace Example.board) "My T" Example.options
              Example.world0 ltac:(discriminate) eq_refl) as [Hload Himport].
  split_and!; [by vm_compute|exact Hload|exact Himport].
Defined.

Lemma prepareExportData_dateRange_witness :
  dateRange Sample.exportOptions = Some (mkDateRange "early" "late")
  ∧ allCards (export_pages Sample.prepared.1) = [Example.card2; Example.card3]
  ∧ Page.id <$> export_pages Sample.prepared.1 = ["p1"]
  ∧ (λ p, Column.id <$> Page.columns p) <$> export_pages Sample.prepared.1
    = [["c1"; "c2"; "c3"]].
Proof.
  destruct (prepareExportData_dateRange Example.clock Sample.parseDate
              Sample.toISOString (workspace Example.board) Sample.exportOptions
              (mkDateRange "early" "late") Example.world0 eq_refl)
    as (Hpages & Hcolumns & Hcards & _).
  split_and!; [done| | |].
  - unfold Sample.prepared. rewrite Hcards. by vm_compute.
  - unfold Sample.prepared. rewrite Hpages. by vm_compute.
  - unfold Sample.prepared. rewrite Hcolumns. by vm_compute.
Defined.

Lemma exportAsCSV_rows_witness :
  allCards (export_pages Sample.noCards) = []
  ∧ download_content
      (exportAsCSV Example.clock Sample.toISOString pretty Sample.noCards
         Sample.exportOptions Example.world0).1
    = "Page,Column,Card Title,Description,Status,Tags,Created At,Updated At"
  ∧ download_name
      (exportAsCSV Example.clock Sample.toISOString pretty Sample.noCards
         Sample.exportOptions Example.world0).1
    = "workspace-export-2026-11-02.csv"
  ∧ length (csvRows pretty (export_pages Sample.prepared.1)) = 3%nat.
Proof.
  destruct (exportAsCSV_rows Example.clock Sample.toISOString pretty Sample.noCards
              Sample.exportOptions Example.world0) as (_ & _ & _ & Hname & Hheader).
  destruct (exportAsCSV_rows Example.clock Sample.toISOString pretty Sample.prepared.1
              Sample.exportOptions Example.world0) as (Hrows & _).
  split_and!; [done|by apply Hheader| |].
  - rewrite Hname. by vm_compute.
  - rewrite Hrows. by vm_compute.
Defined.
